(** * espn-qb-scraper: a shallow embedding of the acquisition, storage and
    query code, and the properties its specification states about it.

    The Python sources embedded here are
    - [src/hybrid_scraper.py]  (class [HybridQBScraper]),
    - [src/compare.py]         (class [QuarterbackComparer]),
    - [src/utils.py]           ([calculate_efficiency_metrics]),
    - [src/scraper.py]         ([ESPNQBScraper._extract_number]),
    - [src/db_manager.py]      ([DatabaseManager.needs_update]).

    Conventions of the embedding.
    - A Python [int] is a [Z].  A Python [float] is a double; a finite
      double is given by the rational number it is ([Q]).  Division,
      multiplication and subtraction of floats, the conversion of an
      [int] and the reading of a numeral round to the nearest double, to
      even on a tie ([Float64.round]); comparison is exact.  The values of
      the model have no infinity and no nan: where Python's result is an
      infinity, the model has a number of magnitude [2 ^ 1024] or more,
      which no double is ([Float64.finite] tells).  A float literal of the
      source is written as the decimal it is.
    - A [str] is the sequence of its code points, restricted to
      U+0000..U+00FF, so that a Rocq [ascii] is one code point.
    - The outer dictionary (player name -> stats) is an association list in
      insertion order, because iteration order and sort stability depend on
      it.  The inner dictionary (stat key -> value) is an association list
      with distinct keys, also in insertion order.
    - Exceptions are values of [exn]; code that can raise returns a
      [result].  Only subclasses of [Exception] are modelled; asynchronous
      interrupts ([KeyboardInterrupt], [SystemExit]) are not.
    - Console output ([print]) is not modelled. *)

From Stdlib Require Import ZArith QArith Qround Qabs Qpower Lqa.
From Stdlib Require Import List String Ascii Bool Lia Sorted.
From stdpp Require Import base option list.

Local Open Scope Z_scope.
Local Open Scope string_scope.

(* ===================================================================== *)
(** * Part I: the embedding                                              *)
(* ===================================================================== *)

(** ** Python values, exceptions and results *)

Inductive pyval : Type :=
| PInt (z : Z)
| PFloat (q : Q)
| PStr (s : string).

Inductive exn : Type :=
| KeyError (k : string)
| TypeError
| ValueError
| ZeroDivisionError
| ConnectionError
| Timeout
| JSONDecodeError
| ParserError
| OperationalError
| OverflowError.

Inductive result (A : Type) : Type :=
| Ok (a : A)
| Raise (e : exn).
Arguments Ok {A} a.
Arguments Raise {A} e.

#[global] Instance result_ret : MRet result := fun A a => Ok a.
#[global] Instance result_bind : MBind result := fun A B f r =>
  match r with Ok a => f a | Raise e => Raise e end.

(** ** Doubles *)

Module Float64.

(** The integer nearest to [m], the even one of the two when [m] lies
    halfway between two integers. *)
Definition nearest_even (m : Q) : Z :=
  let f := Qfloor m in
  match (m - inject_Z f ?= 1 # 2)%Q with
  | Lt => f
  | Gt => f + 1
  | Eq => if Z.even f then f else f + 1
  end.

(** The binary exponent of a positive [x], the [e] with
    [2 ^ e <= x < 2 ^ (e + 1)]: the difference of the bit lengths of
    numerator and denominator, or one less. *)
Definition exponent (x : Q) : Z :=
  let k := Z.log2 (Qnum x) - Z.log2 (Z.pos (Qden x)) in
  if Qle_bool (2 ^ k) x then k else k - 1.

(** The exponent of the last place of the doubles around [x]: a double
    has 53 significant bits, which puts it 52 below the exponent of
    [x], and it is not below -1074, the exponent of the least subnormal
    number. *)
Definition quantum (x : Q) : Z := Z.max (exponent (Qabs x) - 52) (-1074).

(** Rounding to binary64: the nearest multiple of the last place, the
    even one on a tie.  The exponent is not bounded above here; what
    rounds to [2 ^ 1024] or beyond overflows ([finite]). *)
Definition round (x : Q) : Q :=
  if Qeq_bool x 0 then 0%Q
  else Qred (inject_Z (nearest_even (x / 2 ^ quantum x)) * 2 ^ quantum x).

(** The magnitudes of the doubles. *)
Definition finite (x : Q) : bool := negb (Qle_bool (2 ^ 1024) (Qabs x)).

End Float64.

(** The number a numeric value denotes; a [str] denotes none. *)
Definition num_of (v : pyval) : option Q :=
  match v with
  | PInt z => Some (inject_Z z)
  | PFloat q => Some q
  | PStr _ => None
  end.

Definition Qlt_bool (a b : Q) : bool := negb (Qle_bool b a).

(** [a > b]: numbers compare by value, strings by code points, and a
    string against a number raises [TypeError]. *)
Definition py_gt (a b : pyval) : result bool :=
  match a, b with
  | PStr s, PStr t => Ok (String.ltb t s)
  | PStr _, _ | _, PStr _ => Raise TypeError
  | _, _ =>
      match num_of a, num_of b with
      | Some x, Some y => Ok (Qlt_bool y x)
      | _, _ => Raise TypeError
      end
  end.

(** [float(z)], also where arithmetic converts an [int] operand: the
    nearest double, and [OverflowError] for an [int] beyond the
    doubles. *)
Definition float_of_int (z : Z) : result Q :=
  let q := Float64.round (inject_Z z) in
  if Float64.finite q then Ok q else Raise OverflowError.

(** The operand of a float operation, as a float. *)
Definition float_of_num (v : pyval) : result Q :=
  match v with
  | PInt z => float_of_int z
  | PFloat q => Ok q
  | PStr _ => Raise TypeError
  end.

(** [a - b]: [int - int] is an [int]; with a [float] among the two, both
    are taken as floats, the first one first, and the difference is
    rounded; strings do not subtract. *)
Definition py_sub (a b : pyval) : result pyval :=
  match a, b with
  | PInt x, PInt y => Ok (PInt (x - y))
  | PStr _, _ | _, PStr _ => Raise TypeError
  | _, _ =>
      x ← float_of_num a;
      y ← float_of_num b;
      Ok (PFloat (Float64.round (x - y)))
  end.

(** [a / b]: true division, always a [float].  [int / int] is the
    nearest double to the quotient of the two integers, and
    [OverflowError] when that is beyond the doubles.  With a [float]
    among the two, both are taken as floats and the quotient is rounded.
    A zero divisor raises [ZeroDivisionError]. *)
Definition py_truediv (a b : pyval) : result pyval :=
  match a, b with
  | PStr _, _ | _, PStr _ => Raise TypeError
  | PInt x, PInt y =>
      if (y =? 0)%Z then Raise ZeroDivisionError
      else
        let q := Float64.round (inject_Z x / inject_Z y) in
        if Float64.finite q then Ok (PFloat q) else Raise OverflowError
  | _, _ =>
      x ← float_of_num a;
      y ← float_of_num b;
      if Qeq_bool y 0 then Raise ZeroDivisionError
      else Ok (PFloat (Float64.round (x / y)))
  end.

(** [s * n] for a [str]: [n] copies of [s], none for [n <= 0]. *)
Fixpoint str_repeat (s : string) (n : nat) : string :=
  match n with
  | O => EmptyString
  | S n' => (s ++ str_repeat s n')%string
  end.

(** [a * b]: [int * int] is an [int]; a [str] and an [int] give the
    repeated [str], the count being one that fits an index; with a
    [float] among two numbers, both are taken as floats and the product
    is rounded. *)
Definition py_mul (a b : pyval) : result pyval :=
  match a, b with
  | PInt x, PInt y => Ok (PInt (x * y))
  | PStr s, PInt n | PInt n, PStr s =>
      if (n <? 2 ^ 63)%Z then Ok (PStr (str_repeat s (Z.to_nat n)))
      else Raise OverflowError
  | PStr _, _ | _, PStr _ => Raise TypeError
  | _, _ =>
      x ← float_of_num a;
      y ← float_of_num b;
      Ok (PFloat (Float64.round (x * y)))
  end.

(** ** Strings *)

Module Str.

Definition code (c : ascii) : N := N_of_ascii c.

(** [str.lower] on code points below 256. *)
Definition lower_char (c : ascii) : ascii :=
  let n := code c in
  if ((65 <=? n) && (n <=? 90))%N
     || ((192 <=? n) && (n <=? 214))%N
     || ((216 <=? n) && (n <=? 222))%N
  then ascii_of_N (n + 32) else c.

Fixpoint lower (s : string) : string :=
  match s with
  | EmptyString => EmptyString
  | String c s' => String (lower_char c) (lower s')
  end.

(** [s.replace(a, b)] for one-character [a] and [b]. *)
Fixpoint replace (a b : ascii) (s : string) : string :=
  match s with
  | EmptyString => EmptyString
  | String c s' => String (if Ascii.eqb c a then b else c) (replace a b s')
  end.

(** [sub in s]. *)
Fixpoint contains (sub s : string) : bool :=
  String.prefix sub s ||
  match s with
  | EmptyString => false
  | String _ s' => contains sub s'
  end.

(** [str.isspace] on one code point below 256. *)
Definition isspace (c : ascii) : bool :=
  let n := code c in
  (((9 <=? n) && (n <=? 13)) || ((28 <=? n) && (n <=? 32))
   || (n =? 133) || (n =? 160))%N.

Fixpoint lstrip (s : string) : string :=
  match s with
  | EmptyString => EmptyString
  | String c s' => if isspace c then lstrip s' else s
  end.

Fixpoint rstrip (s : string) : string :=
  match s with
  | EmptyString => EmptyString
  | String c s' =>
      match rstrip s' with
      | EmptyString => if isspace c then EmptyString else String c EmptyString
      | r => String c r
      end
  end.

Definition strip (s : string) : string := rstrip (lstrip s).

(** [str.isdigit] on one code point below 256: the ASCII digits and the
    superscripts U+00B2, U+00B3, U+00B9. *)
Definition isdigit (c : ascii) : bool :=
  let n := code c in
  (((48 <=? n) && (n <=? 57)) || (n =? 178) || (n =? 179) || (n =? 185))%N.

(** [str.isdecimal] on one code point below 256: the ASCII digits, the
    only decimal digits there. *)
Definition is_ascii_digit (c : ascii) : bool :=
  let n := code c in ((48 <=? n) && (n <=? 57))%N.

(** The digits below 256 that are no decimal digits: the superscripts
    U+00B2, U+00B3 and U+00B9. *)
Definition is_superscript (c : ascii) : bool :=
  let n := code c in ((n =? 178) || (n =? 179) || (n =? 185))%N.

Fixpoint filter (p : ascii -> bool) (s : string) : string :=
  match s with
  | EmptyString => EmptyString
  | String c s' => if p c then String c (filter p s') else filter p s'
  end.

Fixpoint existsb (p : ascii -> bool) (s : string) : bool :=
  match s with
  | EmptyString => false
  | String c s' => p c || existsb p s'
  end.

Fixpoint forallb (p : ascii -> bool) (s : string) : bool :=
  match s with
  | EmptyString => true
  | String c s' => p c && forallb p s'
  end.

End Str.

(** ** exception handling: [try ... except] *)

(** [try r except <classes> as e: h e], where [handles] tells which
    exceptions the clause catches. *)
Definition try_except {A} (r : result A) (handles : exn -> bool)
    (h : exn -> result A) : result A :=
  match r with
  | Ok a => Ok a
  | Raise e => if handles e then h e else Raise e
  end.

Definition is_ValueError (e : exn) : bool :=
  match e with ValueError | JSONDecodeError => true | _ => false end.

(** Every modelled exception is a subclass of [Exception]. *)
Definition is_Exception (e : exn) : bool := true.

(** ** The in-memory data model *)

(** One player's statistics: the inner dictionary, with distinct keys in
    insertion order. *)
Abbreviation stats := (list (string * pyval)).

(** The in-memory mapping, player name -> stats, in insertion order. *)
Abbreviation mapping := (list (string * list (string * pyval))).

Fixpoint dict_lookup (d : stats) (k : string) : option pyval :=
  match d with
  | [] => None
  | (k', v) :: d' => if String.eqb k k' then Some v else dict_lookup d' k
  end.

(** [d[k] = v] *)
Fixpoint dict_set (k : string) (v : pyval) (d : stats) : stats :=
  match d with
  | [] => [(k, v)]
  | (k', v') :: d' =>
      if String.eqb k k' then (k, v) :: d' else (k', v') :: dict_set k v d'
  end.

(** [d.get(k, dflt)] *)
Definition dict_get (d : stats) (k : string) (dflt : pyval) : pyval :=
  default dflt (dict_lookup d k).

(** [k in d] *)
Definition dict_has (d : stats) (k : string) : bool :=
  match dict_lookup d k with Some _ => true | None => false end.

(** [d[k]] *)
Definition dict_item (d : stats) (k : string) : result pyval :=
  match dict_lookup d k with Some v => Ok v | None => Raise (KeyError k) end.

(** Truth value of a dictionary: non-empty. *)
Definition dict_truthy (d : stats) : bool :=
  match d with [] => false | _ :: _ => true end.

(** Truth value of the outer mapping. *)
Definition mapping_truthy (m : mapping) : bool :=
  match m with [] => false | _ :: _ => true end.

(** A dictionary display [{k1: v1, ...}]: the items are set from left
    to right. *)
Definition dict_of (l : list (string * pyval)) : stats :=
  fold_left (fun d kv => dict_set (fst kv) (snd kv) d) l [].

(** [sequence[:limit]], for a limit of either sign. *)
Definition slice_to {A} (limit : Z) (l : list A) : list A :=
  if (0 <=? limit)%Z then firstn (Z.to_nat limit) l
  else firstn (Z.to_nat (Z.of_nat (length l) + limit)%Z) l.

(** *** [sorted(l, key=key, reverse=True)]

    The library sort is stable, also under [reverse=True], so its result
    is the unique stable arrangement in descending key order; it is
    computed here by a stable insertion sort.  It raises [TypeError] as
    soon as it compares a string key with a numeric one, which happens
    exactly when both kinds occur among the keys. *)

Definition is_num (v : pyval) : bool :=
  match v with PStr _ => false | _ => true end.

Definition is_str (v : pyval) : bool :=
  match v with PStr _ => true | _ => false end.

Definition homogeneous (ks : list pyval) : bool :=
  forallb is_num ks || forallb is_str ks.

(** [a >= b] on keys of one kind: not [b > a]. *)
Definition key_ge (a b : pyval) : bool :=
  match py_gt b a with
  | Ok true => false
  | _ => true
  end.

(** [a >= b] as a proposition: the order of the numbers, or of the
    strings; values of different kinds are not ordered. *)
Definition value_ge (a b : pyval) : Prop :=
  match a, b with
  | PStr s, PStr t => String.leb t s = true
  | PStr _, _ | _, PStr _ => False
  | _, _ =>
      match num_of a, num_of b with
      | Some x, Some y => (y <= x)%Q
      | _, _ => False
      end
  end.

Fixpoint insert_desc {A} (key : A -> pyval) (x : A) (l : list A) : list A :=
  match l with
  | [] => [x]
  | y :: l' =>
      if key_ge (key x) (key y) then x :: y :: l'
      else y :: insert_desc key x l'
  end.

Definition sorted_desc {A} (key : A -> pyval) (l : list A) : result (list A) :=
  if homogeneous (map key l)
  then Ok (fold_right (insert_desc key) [] l)
  else Raise TypeError.

(** [a >= b], with the same rules as [a > b]. *)
Definition py_ge (a b : pyval) : result bool :=
  match a, b with
  | PStr s, PStr t => Ok (String.leb t s)
  | PStr _, _ | _, PStr _ => Raise TypeError
  | _, _ =>
      match num_of a, num_of b with
      | Some x, Some y => Ok (Qle_bool y x)
      | _, _ => Raise TypeError
      end
  end.

(** [m[k]] on the outer mapping, [None] for a missing key. *)
Fixpoint mapping_lookup (m : mapping) (k : string) : option stats :=
  match m with
  | [] => None
  | (k', v) :: m' => if String.eqb k k' then Some v else mapping_lookup m' k
  end.

(** [m[k] = v] on the outer mapping: an existing key keeps its place. *)
Fixpoint mapping_set (k : string) (v : stats) (m : mapping) : mapping :=
  match m with
  | [] => [(k, v)]
  | (k', v') :: m' =>
      if String.eqb k k' then (k, v) :: m' else (k', v') :: mapping_set k v m'
  end.

(** ** [src/hybrid_scraper.py]: the static demo dataset *)

Definition demo_entry (name team : string)
    (games_played completions attempts : Z) (completion_pct : Q)
    (yards : Z) (yards_per_attempt : Q) (touchdowns interceptions : Z)
    (rating : Q) (sacked fumbles : Z) : string * stats :=
  (name,
   dict_of [ ("team", PStr team);
             ("games_played", PInt games_played);
             ("completions", PInt completions);
             ("attempts", PInt attempts);
             ("completion_pct", PFloat completion_pct);
             ("yards", PInt yards);
             ("yards_per_attempt", PFloat yards_per_attempt);
             ("touchdowns", PInt touchdowns);
             ("interceptions", PInt interceptions);
             ("rating", PFloat rating);
             ("sacked", PInt sacked);
             ("fumbles", PInt fumbles) ]).

(** [HybridQBScraper.get_demo_data] *)
Definition get_demo_data : mapping :=
  [ demo_entry "Patrick Mahomes" "KC"  17 362 565 64.1 4183 7.4 31 8  105.2 28 3;
    demo_entry "Josh Allen"      "BUF" 17 359 565 63.5 4306 7.6 35 14 92.6  24 5;
    demo_entry "Justin Herbert"  "LAC" 13 313 477 65.6 3104 6.5 20 7  93.2  29 4;
    demo_entry "Lamar Jackson"   "BAL" 16 307 457 67.2 3678 8.0 24 7  102.7 19 6;
    demo_entry "Joe Burrow"      "CIN" 10 244 365 66.8 2309 6.3 15 6  91.0  24 2;
    demo_entry "Dak Prescott"    "DAL" 17 410 590 69.5 4516 7.7 36 9  105.9 39 7;
    demo_entry "Jalen Hurts"     "PHI" 17 352 538 65.4 3858 7.2 23 15 89.1  38 8;
    demo_entry "Tua Tagovailoa"  "MIA" 17 388 560 69.3 4624 8.3 29 14 101.1 34 4;
    demo_entry "Kirk Cousins"    "MIN" 8  216 311 69.5 2331 7.5 18 5  103.8 16 2;
    demo_entry "Jared Goff"      "DET" 17 407 605 67.3 4575 7.6 30 12 97.9  30 5 ].

(** ** [src/compare.py]: class [QuarterbackComparer] *)

Module QuarterbackComparer.

(** The object: [self.qb_data]; [self.stats_columns] is a constant. *)
Record t := { qb_data : mapping }.

Definition stats_columns : list string :=
  [ "yards"; "touchdowns"; "interceptions"; "completion_pct";
    "rating"; "yards_per_attempt"; "games_played" ].

(** One entry of the ["comparisons"] dictionary. *)
Record stat_comparison := {
  qb1_value : pyval;
  qb2_value : pyval;
  winner : string;
  difference : pyval }.

(** The dictionary [compare_stats] returns: either [{"error": msg}] or
    the three-key comparison. *)
Inductive comparison :=
| CompareError (error : string)
| Compared (quarterback_1 quarterback_2 : string * stats)
           (comparisons : list (string * stat_comparison)).

(** [_find_qb]: first entry, in insertion order, whose lower-cased name
    contains the lower-cased search name. *)
Fixpoint find_in (search_name_lower : string) (items : mapping)
    : option stats :=
  match items with
  | [] => None
  | (name, st) :: rest =>
      if Str.contains search_name_lower (Str.lower name) then Some st
      else find_in search_name_lower rest
  end.

Definition _find_qb (self : t) (search_name : string)
    : option stats :=
  find_in (Str.lower search_name) (qb_data self).

(** The body of the loop over [stats_columns], for one [stat]. *)
Definition compare_one (qb1_name qb2_name : string)
    (qb1_stats qb2_stats : stats) (stat : string)
    : result (option (string * stat_comparison)) :=
  if dict_has qb1_stats stat && dict_has qb2_stats stat then
    val1 ← dict_item qb1_stats stat;
    val2 ← dict_item qb2_stats stat;
    gt12 ← py_gt val1 val2;
    wd ← (if gt12 : bool then
            d ← py_sub val1 val2; mret (qb1_name, d)
          else
            gt21 ← py_gt val2 val1;
            if gt21 : bool then
              d ← py_sub val2 val1; mret (qb2_name, d)
            else mret ("Tie", PInt 0));
    mret (Some (stat, {| qb1_value := val1; qb2_value := val2;
                         winner := fst wd; difference := snd wd |}))
  else mret None.

Fixpoint compare_loop (qb1_name qb2_name : string)
    (qb1_stats qb2_stats : stats) (cols : list string)
    (acc : list (string * stat_comparison))
    : result (list (string * stat_comparison)) :=
  match cols with
  | [] => mret acc
  | stat :: cols' =>
      r ← compare_one qb1_name qb2_name qb1_stats qb2_stats stat;
      compare_loop qb1_name qb2_name qb1_stats qb2_stats cols'
        (match r with Some e => acc ++ [e] | None => acc end)
  end.

Definition compare_stats (self : t) (qb1_name qb2_name : string)
    : result comparison :=
  let qb1_stats := _find_qb self qb1_name in
  let qb2_stats := _find_qb self qb2_name in
  match qb1_stats, qb2_stats with
  | Some s1, Some s2 =>
      if dict_truthy s1 && dict_truthy s2 then
        cs ← compare_loop qb1_name qb2_name s1 s2 stats_columns [];
        mret (Compared (qb1_name, s1) (qb2_name, s2) cs)
      else mret (CompareError "One or both quarterbacks not found")
  | _, _ => mret (CompareError "One or both quarterbacks not found")
  end.

(** The entry of the ["comparisons"] dictionary under [stat]. *)
Fixpoint assoc {V} (k : string) (l : list (string * V)) : option V :=
  match l with
  | [] => None
  | (k', v) :: l' => if String.eqb k k' then Some v else assoc k l'
  end.

Definition comparison_of (c : comparison) (stat : string)
    : option stat_comparison :=
  match c with
  | CompareError _ => None
  | Compared _ _ cs => assoc stat cs
  end.

(** The sort key [lambda x: x[1].get(stat, 0)]. *)
Definition stat_key (stat : string) (x : string * stats)
    : pyval :=
  dict_get (snd x) stat (PInt 0).

(** [get_top_qbs] *)
Definition get_top_qbs (self : t) (stat : string) (limit : Z)
    : result mapping :=
  if negb (mapping_truthy (qb_data self)) then mret []
  else
    sorted_qbs ← sorted_desc (stat_key stat) (qb_data self);
    mret (slice_to limit sorted_qbs).

(** Descending order of the stat's value along a sequence: every entry
    is at least as large as every later one. *)
Definition ge_by (stat : string) (a b : string * stats) : Prop :=
  value_ge (stat_key stat a) (stat_key stat b).

Definition descending (stat : string) (l : mapping) : Prop :=
  StronglySorted (ge_by stat) l.

(** A mapping in which one player has no team. *)
Definition one_without_team : mapping :=
  [ ("A", dict_of [ ("team", PStr "KC"); ("yards", PInt 1) ]);
    ("B", dict_of [ ("yards", PInt 2) ]) ].

(** [max(items, key=key)] once the first item is taken as the best so
    far: every later item replaces the best when its key is [>] the
    best's, so that the first of the greatest items is returned. *)
Fixpoint max_from {A} (key : A -> pyval) (best : A) (l : list A) : result A :=
  match l with
  | [] => mret best
  | x :: l' =>
      gt ← py_gt (key x) (key best);
      max_from key (if gt : bool then x else best) l'
  end.

(** [get_best_qb]: [(None, {})] on the empty mapping. *)
Definition get_best_qb (self : t) (stat : string)
    : result (option string * stats) :=
  match qb_data self with
  | [] => mret (None, [])
  | first :: rest =>
      best_qb ← max_from (stat_key stat) first rest;
      mret (Some (fst best_qb), snd best_qb)
  end.

(** One entry of the ["comparisons"] dictionary read from the other
    player's side: the two values change places. *)
Definition swap_sides (e : string * stat_comparison)
    : string * stat_comparison :=
  (fst e, {| qb1_value := qb2_value (snd e); qb2_value := qb1_value (snd e);
             winner := winner (snd e); difference := difference (snd e) |}).

End QuarterbackComparer.

(** ** [src/utils.py] *)

Module Utils.

(** [calculate_efficiency_metrics]: the four derived metrics, in the
    order the source assigns them. *)
Definition calculate_efficiency_metrics (st : stats)
    : result stats :=
  let metrics : stats := [] in
  let attempts := dict_get st "attempts" (PInt 0) in
  let completions := dict_get st "completions" (PInt 0) in
  let yards := dict_get st "yards" (PInt 0) in
  let touchdowns := dict_get st "touchdowns" (PInt 0) in
  let interceptions := dict_get st "interceptions" (PInt 0) in
  (* Completion percentage *)
  c1 ← py_gt attempts (PInt 0);
  v1 ← (if c1 : bool
        then r ← py_truediv completions attempts; py_mul r (PInt 100)
        else mret (PInt 0));
  let metrics := dict_set "completion_percentage" v1 metrics in
  (* Yards per attempt *)
  c2 ← py_gt attempts (PInt 0);
  v2 ← (if c2 : bool then py_truediv yards attempts else mret (PInt 0));
  let metrics := dict_set "yards_per_attempt" v2 metrics in
  (* Touchdown to interception ratio *)
  c3 ← py_gt interceptions (PInt 0);
  v3 ← (if c3 : bool then py_truediv touchdowns interceptions
        else c ← py_gt touchdowns (PInt 0);
             mret (if c : bool then touchdowns else PInt 0));
  let metrics := dict_set "td_int_ratio" v3 metrics in
  (* Yards per completion *)
  c4 ← py_gt completions (PInt 0);
  v4 ← (if c4 : bool then py_truediv yards completions else mret (PInt 0));
  let metrics := dict_set "yards_per_completion" v4 metrics in
  mret metrics.

(** The counters the function reads are numbers wherever the record
    has them. *)
Definition numeric_fields (st : stats) : Prop :=
  forall k,
    In k [ "attempts"; "completions"; "yards"; "touchdowns"; "interceptions" ] ->
    is_num (dict_get st k (PInt 0)) = true.

(** The counters that are [int]s are below [2 ^ 1023] in absolute value,
    and so not beyond the doubles. *)
Definition moderate_ints (st : stats) : Prop :=
  forall k z,
    In k [ "attempts"; "completions"; "yards"; "touchdowns"; "interceptions" ] ->
    dict_get st k (PInt 0) = PInt z -> (Z.abs z < 2 ^ 1023)%Z.

(** The counters are [int]s where the record has them, none of them
    negative and all of them below [2 ^ 1000]. *)
Definition int_counters (st : stats) : Prop :=
  forall k,
    In k [ "attempts"; "completions"; "yards"; "touchdowns"; "interceptions" ] ->
    exists z, dict_get st k (PInt 0) = PInt z /\ (0 <= z < 2 ^ 1000)%Z.


(** The loop of [filter_qbs_by_minimum_attempts]. *)
Fixpoint filter_loop (min_attempts : Z) (items : mapping)
    (filtered_data : mapping) : result mapping :=
  match items with
  | [] => mret filtered_data
  | (name, st) :: rest =>
      keep ← py_ge (dict_get st "attempts" (PInt 0)) (PInt min_attempts);
      filter_loop min_attempts rest
        (if keep : bool then mapping_set name st filtered_data
         else filtered_data)
  end.

(** [filter_qbs_by_minimum_attempts] *)
Definition filter_qbs_by_minimum_attempts (qb_data : mapping)
    (min_attempts : Z) : result mapping :=
  filter_loop min_attempts qb_data [].

(** [get_qb_rankings] *)
Definition get_qb_rankings (qb_data : mapping) (stat : string)
    : result mapping :=
  if negb (mapping_truthy qb_data) then mret []
  else sorted_desc (QuarterbackComparer.stat_key stat) qb_data.

(** The number of attempts of an entry is a number, and at least [n]. *)
Definition attempts_at_least (n : Z) (p : string * stats) : bool :=
  match num_of (dict_get (snd p) "attempts" (PInt 0)) with
  | Some x => Qle_bool (inject_Z n) x
  | None => false
  end.

(** The attempts of every entry are a number where the entry has them. *)
Definition numeric_attempts (m : mapping) : Prop :=
  Forall (fun p => is_num (dict_get (snd p) "attempts" (PInt 0)) = true) m.

End Utils.

(** ** [src/scraper.py]: numeric extraction from a table cell *)

Module ESPNQBScraper.

(** A table cell as the parser hands it over: the text nodes below the
    element, in document order. *)
Record tag := { strings : list string }.

Definition nonempty (s : string) : bool :=
  match s with EmptyString => false | _ => true end.

(** [cell.get_text(strip=True)]: every text node is stripped, empty ones
    are dropped, and the rest are joined without a separator. *)
Definition get_text_strip (cell : tag) : string :=
  String.concat "" (List.filter nonempty (map Str.strip (strings cell))).

(** The part of [s] before its first ['.'], and the part after it. *)
Fixpoint split_dot (s : string) : string * option string :=
  match s with
  | EmptyString => (EmptyString, None)
  | String c s' =>
      if Ascii.eqb c "."%char then (EmptyString, Some s')
      else let '(a, b) := split_dot s' in (String c a, b)
  end.

(** The value of a run of ASCII digits, read left to right. *)
Fixpoint digits_value (acc : N) (s : string) : option N :=
  match s with
  | EmptyString => Some acc
  | String c s' =>
      if Str.is_ascii_digit c
      then digits_value (acc * 10 + (Str.code c - 48))%N s'
      else None
  end.

(** [float(s)] for the strings [_extract_number] passes to it, which
    consist of [isdigit] characters and ['.'].  The accepted ones are
    the unsigned decimal numerals: decimal digits around at most one
    point, with at least one digit; among the code points of the model
    the decimal digits are the ASCII digits, the superscripts being
    digits that are no decimals.  Everything else is a [ValueError].
    The result is the double nearest to the numeral.  (For a numeral
    beyond the doubles Python has the float infinity and raises
    nothing.) *)
Definition float (s : string) : result Q :=
  let '(ip, fp) := split_dot s in
  let fp := default EmptyString fp in
  if negb (nonempty ip) && negb (nonempty fp) then Raise ValueError
  else
    match digits_value 0 ip, digits_value 0 fp with
    | Some i, Some f =>
        let scale := (10 ^ N.of_nat (String.length fp))%N in
        Ok (Float64.round
              (inject_Z (Z.of_N (i * scale + f)) / inject_Z (Z.of_N scale)))%Q
    | _, _ => Raise ValueError
    end.

Definition keep (c : ascii) : bool := Str.isdigit c || Ascii.eqb c "."%char.

(** [_extract_number] *)
Definition _extract_number (cell : option tag) : result Q :=
  match cell with
  | None => mret 0%Q
  | Some cell =>
      let text := get_text_strip cell in
      if negb (nonempty text) || String.eqb text "-" then mret 0%Q
      else
        let cleaned := Str.filter keep text in
        try_except
          (if nonempty cleaned then float cleaned else mret 0%Q)
          is_ValueError
          (fun _ => mret 0%Q)
  end.

(** The value of one ASCII digit. *)
Definition digit_of (c : ascii) : Q := inject_Z (Z.of_N (Str.code c - 48)).

(** The step of [digits_value] on rationals: one more digit is read to
    the right of those read so far. *)
Definition read_digit (acc : Q) (c : ascii) : Q := (acc * 10 + digit_of c)%Q.

(** *** The specification's reading of a cell

    "The number formed from the cell's digit and decimal-point
    characters", written from the words of the specification and
    independently of [float]: a numeral is a run of ASCII digits,
    optionally followed by a point and a second run, with at least one
    digit; its value is the sum of its digits weighted by powers of
    ten. *)

(** The weight of the digit [k] places left of the last one. *)
Definition weight (k : nat) : Q := inject_Z (Z.of_N (10 ^ N.of_nat k)).

(** Value of the digits before the point: a digit with [k] digits to its
    right has weight 10^k. *)
Fixpoint int_part (s : list ascii) : Q :=
  match s with
  | [] => 0
  | c :: s' => digit_of c * weight (length s') + int_part s'
  end%Q.

(** Value of the digits after the point: the first has weight 1/10. *)
Definition frac_part (s : list ascii) : Q :=
  fold_right (fun c acc => (digit_of c + acc) / 10)%Q 0%Q s.

Definition number_formed (s : string) : option Q :=
  let '(ip, fp) := split_dot s in
  let fp := default EmptyString fp in
  if Str.forallb Str.is_ascii_digit ip && Str.forallb Str.is_ascii_digit fp
     && (nonempty ip || nonempty fp)
  then Some (int_part (list_ascii_of_string ip)
             + frac_part (list_ascii_of_string fp))%Q
  else None.

(** The cells of the first clause: empty text, a dash, or no digit. *)
Definition blank (cell : option tag) : bool :=
  match cell with
  | None => true
  | Some c =>
      let text := get_text_strip c in
      negb (nonempty text) || String.eqb text "-"
      || negb (Str.existsb Str.isdigit text)
  end.

Definition cleaned_of (cell : option tag) : string :=
  match cell with
  | None => EmptyString
  | Some c => Str.filter keep (get_text_strip c)
  end.

(** The two clauses as the specification words them: a blank cell gives
    zero, and every other cell gives the number its kept characters
    form. *)
Definition extraction_as_specified (cell : option tag) : Prop :=
  (blank cell = true -> exists v, _extract_number cell = Ok v /\ (v == 0)%Q)
  /\ (blank cell = false ->
      exists v n, _extract_number cell = Ok v
                  /\ number_formed (cleaned_of cell) = Some n
                  /\ (v == n)%Q).

Definition cell_of (text : string) : option tag :=
  Some {| strings := [text] |}.

(** *** Reading the rows of the statistics table *)

(** A cell of a table row: the element itself, and what [find('a')]
    returns on it, the first link below it if there is one. *)
Record cell := { cell_tag : tag; cell_a : option tag }.

Definition header_words : list string := [ "rank"; "player"; "team"; "" ].

(** [self._extract_number(cells[i])], as a Python value. *)
Definition stat_of (c : cell) : result pyval :=
  v ← _extract_number (Some (cell_tag c));
  mret (PFloat v).

(** [self._extract_number(cells[i]) if len(cells) > i else 0], for the
    cells from the ninth on, [more] being [cells[8:]] and [i] counting
    from 8. *)
Definition stat_of_optional (more : list cell) (i : nat) : result pyval :=
  match nth_error more i with
  | Some c => stat_of c
  | None => mret (PInt 0)
  end.

(** The body of the loop over the rows, for the cells of one row: a row
    of fewer than eight cells is passed over, and so is a row whose name
    is empty or a header word.  With eight cells or more, every test
    [len(cells) > i] for [i <= 7] holds, no index is out of range and no
    attribute is missing, so that the [except (IndexError,
    AttributeError)] clause is never entered. *)
Definition parse_row (cells : list cell) : result (option (string * stats)) :=
  match cells with
  | c0 :: c1 :: c2 :: c3 :: c4 :: c5 :: c6 :: c7 :: more =>
      let name_cell := c1 in
      let name :=
        match cell_a name_cell with
        | Some name_link => get_text_strip name_link
        | None => get_text_strip (cell_tag name_cell)
        end in
      if negb (nonempty name)
         || List.existsb (String.eqb (Str.lower name)) header_words
      then mret None
      else
        let team := get_text_strip (cell_tag c2) in
        games_played ← stat_of c3;
        completions ← stat_of c4;
        attempts ← stat_of c5;
        completion_pct ← stat_of c6;
        yards ← stat_of c7;
        yards_per_attempt ← stat_of_optional more 0;
        touchdowns ← stat_of_optional more 1;
        interceptions ← stat_of_optional more 2;
        rating ← stat_of_optional more 3;
        mret (Some (name,
                    dict_of [ ("team", PStr team);
                              ("games_played", games_played);
                              ("completions", completions);
                              ("attempts", attempts);
                              ("completion_pct", completion_pct);
                              ("yards", yards);
                              ("yards_per_attempt", yards_per_attempt);
                              ("touchdowns", touchdowns);
                              ("interceptions", interceptions);
                              ("rating", rating) ]))
  | _ => mret None
  end.

Fixpoint parse_rows (rows : list (list cell)) (qb_stats : mapping)
    : result mapping :=
  match rows with
  | [] => mret qb_stats
  | cells :: rest =>
      r ← parse_row cells;
      parse_rows rest
        (match r with
         | Some (name, st) => mapping_set name st qb_stats
         | None => qb_stats
         end)
  end.

(** [_parse_qb_stats], from the table it has found on.  [trs] is what
    [stats_table.find_all('tr')] returns, each row being given by what
    [row.find_all(['td', 'th'])] returns on it; the first row is the
    header and is skipped. *)
Definition parse_table (trs : list (list cell)) : result mapping :=
  parse_rows (skipn 1 trs) [].

(** [search_qb_by_name]: the one-entry dictionary of the first match. *)
Fixpoint search_qb_by_name_in (search_name_lower : string) (items : mapping)
    : option mapping :=
  match items with
  | [] => None
  | (name, st) :: rest =>
      if Str.contains search_name_lower (Str.lower name)
      then Some [(name, st)]
      else search_qb_by_name_in search_name_lower rest
  end.

Definition search_qb_by_name (qb_stats : mapping) (search_name : string)
    : option mapping :=
  search_qb_by_name_in (Str.lower search_name) qb_stats.

(** [get_top_qbs] of the scraper, which takes the mapping as an
    argument. *)
Definition get_top_qbs (qb_stats : mapping) (stat : string) (limit : Z)
    : result mapping :=
  if negb (mapping_truthy qb_stats) then mret []
  else
    sorted_qbs ← sorted_desc (fun x => dict_get (snd x) stat (PInt 0)) qb_stats;
    mret (slice_to limit sorted_qbs).

(** The statistics of a player as a row of the table gives them. *)
Definition stat_keys : list string :=
  [ "games_played"; "completions"; "attempts"; "completion_pct"; "yards";
    "yards_per_attempt"; "touchdowns"; "interceptions"; "rating" ].

Definition nonneg_number (v : pyval) : Prop :=
  exists x, num_of v = Some x /\ (0 <= x)%Q.

Definition scraped_record (st : stats) : Prop :=
  map fst st = "team" :: stat_keys
  /\ (exists team, dict_lookup st "team" = Some (PStr team))
  /\ (forall k, In k stat_keys ->
                exists v, dict_lookup st k = Some v /\ nonneg_number v).

(** The only [int] of a record read from a table is the 0 of a cell that
    is missing (or of a key the record does not have). *)
Definition zero_ints (st : stats) : Prop :=
  forall k z, dict_get st k (PInt 0) = PInt z -> z = 0%Z.

Definition scraped_entry (p : string * stats) : Prop :=
  nonempty (fst p) = true
  /\ ~ In (Str.lower (fst p)) header_words
  /\ scraped_record (snd p).

End ESPNQBScraper.

(** ** The persistent store: the two SQLite tables *)

(** A point on the time line, in microseconds; what [datetime.now()]
    returns and what the timestamp columns hold. *)
Abbreviation timestamp := Z.

Record quarterback_row := {
  q_id : Z;
  q_espn_id : string;
  q_name : string;
  q_team : pyval;
  q_position : string;
  q_created_at : timestamp;
  q_updated_at : timestamp }.

Record stats_row := {
  s_id : Z;
  s_qb_id : Z;
  s_season : Z;
  s_games_played : pyval;
  s_completions : pyval;
  s_attempts : pyval;
  s_completion_pct : pyval;
  s_yards : pyval;
  s_yards_per_attempt : pyval;
  s_touchdowns : pyval;
  s_interceptions : pyval;
  s_rating : pyval;
  s_sacked : pyval;
  s_fumbles : pyval;
  s_last_updated : option timestamp }.

(** The database file once [init_database] has created its schema.  Each
    table carries the counter SQLite keeps in [sqlite_sequence] for an
    [AUTOINCREMENT] key: the largest row id ever handed out. *)
Record database := {
  quarterbacks : list quarterback_row;
  quarterbacks_seq : Z;
  quarterback_stats : list stats_row;
  quarterback_stats_seq : Z }.

Module Sql.

Definition empty : database :=
  {| quarterbacks := []; quarterbacks_seq := 0;
     quarterback_stats := []; quarterback_stats_seq := 0 |}.

Definition max_id (ids : list Z) : Z := fold_right Z.max 0 ids.

(** The row id an [AUTOINCREMENT] key gets: one more than the largest
    that ever existed in the table. *)
Definition next_id (seq : Z) (ids : list Z) : Z := Z.max seq (max_id ids) + 1.

(** [INSERT OR REPLACE INTO quarterbacks (espn_id, name, team, position,
    updated_at) VALUES (?, ?, ?, ?, ?)].  No [id] is given, so a new one
    is allocated; the rows that collide with the new one on the [UNIQUE]
    column [espn_id] are deleted; [created_at] takes its default, the
    current time. *)
Definition insert_or_replace_quarterback (now : timestamp)
    (espn_id name : string) (team : pyval) (position : string)
    (updated_at : timestamp) (d : database) : database :=
  let id := next_id (quarterbacks_seq d) (map q_id (quarterbacks d)) in
  let kept :=
    List.filter (fun r => negb (String.eqb (q_espn_id r) espn_id))
                (quarterbacks d) in
  {| quarterbacks :=
       kept ++ [ {| q_id := id; q_espn_id := espn_id; q_name := name;
                    q_team := team; q_position := position;
                    q_created_at := now; q_updated_at := updated_at |} ];
     quarterbacks_seq := id;
     quarterback_stats := quarterback_stats d;
     quarterback_stats_seq := quarterback_stats_seq d |}.

(** [SELECT id FROM quarterbacks WHERE espn_id = ?], then
    [cursor.fetchone()[0]]; subscripting [None] is a [TypeError]. *)
Definition select_id (espn_id : string) (d : database) : result Z :=
  match List.find (fun r => String.eqb (q_espn_id r) espn_id) (quarterbacks d) with
  | Some r => Ok (q_id r)
  | None => Raise TypeError
  end.

(** [INSERT OR REPLACE INTO quarterback_stats (qb_id, season, ...,
    last_updated) VALUES (...)].  The rows that collide with the new one
    on [UNIQUE(qb_id, season)] are deleted. *)
Definition insert_or_replace_stats (row : stats_row) (d : database)
    : database :=
  let id := next_id (quarterback_stats_seq d) (map s_id (quarterback_stats d)) in
  let kept :=
    List.filter (fun r => negb ((s_qb_id r =? s_qb_id row)%Z
                                && (s_season r =? s_season row)%Z))
                (quarterback_stats d) in
  {| quarterbacks := quarterbacks d;
     quarterbacks_seq := quarterbacks_seq d;
     quarterback_stats :=
       kept ++ [ {| s_id := id; s_qb_id := s_qb_id row;
                    s_season := s_season row;
                    s_games_played := s_games_played row;
                    s_completions := s_completions row;
                    s_attempts := s_attempts row;
                    s_completion_pct := s_completion_pct row;
                    s_yards := s_yards row;
                    s_yards_per_attempt := s_yards_per_attempt row;
                    s_touchdowns := s_touchdowns row;
                    s_interceptions := s_interceptions row;
                    s_rating := s_rating row;
                    s_sacked := s_sacked row;
                    s_fumbles := s_fumbles row;
                    s_last_updated := s_last_updated row |} ];
     quarterback_stats_seq := id |}.

(** [SELECT MAX(last_updated) FROM quarterback_stats]: [NULL]s are
    skipped, and the result is [NULL] when nothing is left.  The stored
    text is the fixed-width ISO form, whose text order is the order of
    the time line. *)
Definition max_opt (a : option timestamp) (b : option timestamp)
    : option timestamp :=
  match a, b with
  | Some x, Some y => Some (Z.max x y)
  | Some x, None => Some x
  | None, o => o
  end.

Definition select_max_last_updated (d : database) : option timestamp :=
  fold_right max_opt None (map s_last_updated (quarterback_stats d)).

(** No row of statistics refers to a player id that was never handed
    out.  The empty database satisfies this and every statement of the
    program preserves it. *)
Definition stats_refer_to_issued_ids (d : database) : Prop :=
  Forall (fun r => (s_qb_id r <= Z.max (quarterbacks_seq d)
                                       (max_id (map q_id (quarterbacks d))))%Z)
         (quarterback_stats d).

(** [o] is the newest [last_updated] across the rows of statistics:
    [None] when no row has one. *)
Definition newest (d : database) (o : option timestamp) : Prop :=
  match o with
  | None => forall r, In r (quarterback_stats d) -> s_last_updated r = None
  | Some m =>
      (exists r, In r (quarterback_stats d) /\ s_last_updated r = Some m)
      /\ (forall r t, In r (quarterback_stats d) ->
                      s_last_updated r = Some t -> (t <= m)%Z)
  end.

(** *** Queries *)

(** The order of [ORDER BY]: numbers by value, text by code points, and
    any text above any number.  ([NULL] does not occur among the values
    of the model.) *)
Definition sql_ge (a b : pyval) : bool :=
  match a, b with
  | PStr s, PStr t => String.leb t s
  | PStr _, _ => true
  | _, PStr _ => false
  | _, _ =>
      match num_of a, num_of b with
      | Some x, Some y => Qle_bool y x
      | _, _ => true
      end
  end.

Fixpoint insert_by {A} (ge : A -> A -> bool) (x : A) (l : list A) : list A :=
  match l with
  | [] => [x]
  | y :: l' => if ge x y then x :: y :: l' else y :: insert_by ge x l'
  end.

(** [ORDER BY col DESC].  SQL leaves the order of rows with equal values
    open; the model keeps them in the order of the unsorted rows. *)
Definition order_by_desc {A} (col : A -> pyval) (rows : list A) : list A :=
  fold_right (insert_by (fun a b => sql_ge (col a) (col b))) [] rows.

(** [FROM quarterbacks q JOIN quarterback_stats qs ON q.id = qs.qb_id
    WHERE qs.season = ?], before any ordering. *)
Definition join_season (season : Z) (d : database)
    : list (quarterback_row * stats_row) :=
  flat_map
    (fun q =>
       map (pair q)
           (List.filter (fun s => (s_qb_id s =? q_id q)%Z
                                  && (s_season s =? season)%Z)
                        (quarterback_stats d)))
    (quarterbacks d).

(** The query of [get_quarterback_stats]: the join, [ORDER BY qs.yards
    DESC].  A row of the result is given by the two rows it is made of;
    the selected columns are [q.name], [q.team] and the columns of
    [qs]. *)
Definition select_stats (season : Z) (d : database)
    : list (quarterback_row * stats_row) :=
  order_by_desc (fun r => s_yards (snd r)) (join_season season d).

End Sql.

(** ** [src/hybrid_scraper.py]: class [HybridQBScraper] *)

Module HybridQBScraper.

(** A decoded JSON document. *)
#[warnings="-register-all"]
Inductive json_value :=
| JNull
| JBool (b : bool)
| JNumber (q : Q)
| JString (s : string)
| JArray (l : list json_value)
| JObject (l : list (string * json_value)).

(** What [session.get] hands back: the status, the body, and what
    [response.json()] gives for that body (a document, or the decoder's
    exception). *)
Record response := {
  status_code : Z;
  content : string;
  json : result json_value }.

(** A parsed page, seen through the one method the code calls. *)
Record soup := {
  select_one : string -> option ESPNQBScraper.tag }.

(** Everything outside the program: the remote source (the answer to the
    n-th request, for a given URL: a response, or the exception the
    request raises), the HTML parser, the clock, and the database file
    of the scraper object, whose schema [__init__] has created. *)
Record world := {
  net : nat -> string -> result response;
  requests : nat;
  html_parser : string -> result soup;
  slept : Z;
  now : timestamp;
  year : Z;
  db : database }.

(** State and exceptions: a computation transforms the world and either
    returns or raises. *)
Definition M (A : Type) : Type := world -> result A * world.

#[global] Instance M_ret : MRet M := fun A a w => (Ok a, w).
#[global] Instance M_bind : MBind M := fun A B f m w =>
  match m w with
  | (Ok a, w') => f a w'
  | (Raise e, w') => (Raise e, w')
  end.

Definition lift {A} (r : result A) : M A := fun w => (r, w).

(** [try: m except Exception as e: h e] *)
Definition try_catch {A} (m : M A) (h : exn -> M A) : M A := fun w =>
  match m w with
  | (Ok a, w') => (Ok a, w')
  | (Raise e, w') => if is_Exception e then h e w' else (Raise e, w')
  end.

Definition set_db (d : database) (w : world) : world :=
  {| net := net w; requests := requests w; html_parser := html_parser w;
     slept := slept w; now := now w; year := year w; db := d |}.

(** [self.session.get(url, timeout=10)] *)
Definition session_get (url : string) : M response := fun w =>
  (net w (requests w) url,
   {| net := net w; requests := S (requests w);
      html_parser := html_parser w; slept := slept w; now := now w;
      year := year w; db := db w |}).

(** [time.sleep(seconds)] *)
Definition sleep (seconds : Z) : M unit := fun w =>
  (Ok tt,
   {| net := net w; requests := requests w; html_parser := html_parser w;
      slept := (slept w + seconds)%Z; now := now w; year := year w;
      db := db w |}).

(** [BeautifulSoup(content, 'html.parser')] *)
Definition BeautifulSoup (content : string) : M soup := fun w =>
  (html_parser w content, w).

(** [_parse_api_stats]: the source returns the empty dictionary it has
    just created, whatever the document. *)
Definition _parse_api_stats (data : json_value) : M mapping :=
  let qb_stats : mapping := [] in
  mret qb_stats.

Definition api_url : string :=
  "https://site.api.espn.com/apis/site/v2/sports/football/nfl/statistics".

(** [try_espn_api] *)
Definition try_espn_api : M mapping :=
  try_catch
    (response ← session_get api_url;
     if (status_code response =? 200)%Z then
       data ← lift (json response);
       _parse_api_stats data
     else mret [])
    (fun e => mret []).

Definition dquote : string := String (ascii_of_N 34) EmptyString.

Definition table_selectors : list string :=
  [ "table.Table"; "table"; ".Table";
    "[class*=" ++ dquote ++ "table" ++ dquote ++ "]" ].

(** [_parse_webpage]: the page is parsed and the first selector that
    matches is looked for, but no row is ever read from the table: the
    dictionary returned is the empty one created at the start. *)
Definition _parse_webpage (content : string) : M mapping :=
  soup ← BeautifulSoup content;
  let qb_stats : mapping := [] in
  let table :=
    List.find (fun selector => bool_decide (is_Some (select_one soup selector)))
              table_selectors in
  mret qb_stats.

Definition urls_to_try : list string :=
  [ "https://www.espn.com/nfl/stats/player/_/view/offense/stat/passing/table/passing/sort/passingYards/dir/desc";
    "https://www.espn.com/nfl/stats/player/_/stat/passing";
    "https://www.espn.com/nfl/stats/player/_/view/offense/stat/passing" ].

(** The [for url in urls_to_try] loop and the [return {}] after it. *)
Fixpoint scrape_loop (urls : list string) : M mapping :=
  match urls with
  | [] => mret []
  | url :: rest =>
      response ← session_get url;
      if (status_code response =? 200)%Z then
        _parse_webpage (content response)
      else
        _ ← sleep 2;
        scrape_loop rest
  end.

(** [try_web_scraping] *)
Definition try_web_scraping : M mapping :=
  try_catch (scrape_loop urls_to_try) (fun e => mret []).

(** The [espn_id] the source derives from a name:
    [f"demo_{name.lower().replace(' ', '_')}"]. *)
Definition demo_id (name : string) : string :=
  "demo_" ++ Str.replace " "%char "_"%char (Str.lower name).

(** One turn of the loop in [_save_to_database]: the upsert of one
    player and of the player's row of statistics. *)
Definition save_one (current_time : timestamp) (season : Z)
    (name : string) (st : stats) (d : database)
    : result database :=
  team ← dict_item st "team";
  let d := Sql.insert_or_replace_quarterback current_time
             (demo_id name) name team "QB" current_time d in
  qb_id ← Sql.select_id (demo_id name) d;
  mret (Sql.insert_or_replace_stats
          {| s_id := 0; s_qb_id := qb_id; s_season := season;
             s_games_played := dict_get st "games_played" (PInt 0);
             s_completions := dict_get st "completions" (PInt 0);
             s_attempts := dict_get st "attempts" (PInt 0);
             s_completion_pct := dict_get st "completion_pct" (PInt 0);
             s_yards := dict_get st "yards" (PInt 0);
             s_yards_per_attempt := dict_get st "yards_per_attempt" (PInt 0);
             s_touchdowns := dict_get st "touchdowns" (PInt 0);
             s_interceptions := dict_get st "interceptions" (PInt 0);
             s_rating := dict_get st "rating" (PInt 0);
             s_sacked := dict_get st "sacked" (PInt 0);
             s_fumbles := dict_get st "fumbles" (PInt 0);
             s_last_updated := Some current_time |} d).

Fixpoint save_loop (current_time : timestamp) (season : Z)
    (items : mapping) (d : database) : result database :=
  match items with
  | [] => mret d
  | (name, st) :: rest =>
      d' ← save_one current_time season name st d;
      save_loop current_time season rest d'
  end.

(** [_save_to_database]: the loop runs inside one transaction, which
    [conn.commit()] makes durable; when a turn raises, the commit is
    never reached and the file keeps its old contents. *)
Definition _save_to_database (qb_data : mapping) : M unit := fun w =>
  let current_time := now w in
  let season := year w in
  match save_loop current_time season qb_data (db w) with
  | Ok d => (Ok tt, set_db d w)
  | Raise e => (Raise e, w)
  end.

(** [update_database] *)
Definition update_database (force_demo : bool) : M mapping :=
  let qb_data : mapping := [] in
  qb_data ← (if negb force_demo then
               qb_data ← try_espn_api;
               if negb (mapping_truthy qb_data) then try_web_scraping
               else mret qb_data
             else mret qb_data);
  qb_data ← (if negb (mapping_truthy qb_data) then mret get_demo_data
             else mret qb_data);
  _ ← _save_to_database qb_data;
  mret qb_data.

(** The store's upsert of one (player, season, stats) triple, as
    [_save_to_database] performs it for a one-entry mapping. *)
Definition upsert (current_time : timestamp) (season : Z)
    (player : string * stats) (d : database)
    : result database :=
  save_loop current_time season [player] d.

(** *** Failures of the remote source

    What the specification calls a failure of the API path, seen from a
    world about to run [try_espn_api]: the request raises (network
    error, timeout), or the status is not 200, or decoding the body
    raises (parse error). *)
Definition api_fails (w : world) : Prop :=
  match net w (requests w) api_url with
  | Raise _ => True
  | Ok r => status_code r <> 200%Z \/ exists e, json r = Raise e
  end.

(** A failure of the scrape path, for the requests numbered from [n]
    on: a request raises, or the first page that answers 200 does not
    parse, or no page answers 200. *)
Fixpoint scrape_fails (w : world) (n : nat) (urls : list string) : Prop :=
  match urls with
  | [] => True
  | url :: rest =>
      match net w n url with
      | Raise _ => True
      | Ok r =>
          if (status_code r =? 200)%Z
          then exists e, html_parser w (content r) = Raise e
          else scrape_fails w (S n) rest
      end
  end.

(** A world whose remote source refuses every connection. *)
Definition offline (d : database) : world :=
  {| net := fun _ _ => Raise ConnectionError;
     requests := 0;
     html_parser := fun _ => Raise ParserError;
     slept := 0; now := 0; year := 2024; db := d |}.

(** The first entry of the demo dataset. *)
Definition mahomes : string * stats :=
  demo_entry "Patrick Mahomes" "KC" 17 362 565 64.1 4183 7.4 31 8 105.2 28 3.

(** *** Reading the store back *)

(** [get_quarterback_stats]: the rows of the data frame. *)
Definition get_quarterback_stats (season : option Z)
    : M (list (quarterback_row * stats_row)) := fun w =>
  let season := default (year w) season in
  (Ok (Sql.select_stats season (db w)), w).

(** [int(row[c])] and [float(row[c])] on what is read from a numeric
    column: [int] truncates towards zero, [float] gives the nearest
    double (an integer of the store has 64 bits, and is not beyond the
    doubles).  The model covers numbers;
    what SQLite makes of a text bound to a numeric column depends on the
    column's affinity, which the store does not model, and the
    conversion of a text is taken to raise, as it does for a text that
    is not a numeral. *)
Definition int_of (v : pyval) : result pyval :=
  match v with
  | PInt z => Ok (PInt z)
  | PFloat q => Ok (PInt (Z.quot (Qnum q) (Z.pos (Qden q))))
  | PStr _ => Raise ValueError
  end.

Definition float_of (v : pyval) : result pyval :=
  match v with
  | PInt z => Ok (PFloat (Float64.round (inject_Z z)))
  | PFloat q => Ok (PFloat q)
  | PStr _ => Raise ValueError
  end.

(** The dictionary [get_all_quarterbacks] builds from one row.  No
    column of the model holds [NULL], so that [pd.notna] holds for
    [sacked] and [fumbles]. *)
Definition row_to_dict (r : quarterback_row * stats_row) : result stats :=
  let q := fst r in
  let s := snd r in
  games_played ← int_of (s_games_played s);
  completions ← int_of (s_completions s);
  attempts ← int_of (s_attempts s);
  completion_pct ← float_of (s_completion_pct s);
  yards ← int_of (s_yards s);
  yards_per_attempt ← float_of (s_yards_per_attempt s);
  touchdowns ← int_of (s_touchdowns s);
  interceptions ← int_of (s_interceptions s);
  rating ← float_of (s_rating s);
  sacked ← int_of (s_sacked s);
  fumbles ← int_of (s_fumbles s);
  mret (dict_of [ ("team", q_team q);
                  ("games_played", games_played);
                  ("completions", completions);
                  ("attempts", attempts);
                  ("completion_pct", completion_pct);
                  ("yards", yards);
                  ("yards_per_attempt", yards_per_attempt);
                  ("touchdowns", touchdowns);
                  ("interceptions", interceptions);
                  ("rating", rating);
                  ("sacked", sacked);
                  ("fumbles", fumbles) ]).

(** The loop [for _, row in df.iterrows(): qb_dict[row['name']] = ...]. *)
Fixpoint rows_to_dict (rows : list (quarterback_row * stats_row))
    (qb_dict : mapping) : result mapping :=
  match rows with
  | [] => mret qb_dict
  | row :: rest =>
      d ← row_to_dict row;
      rows_to_dict rest (mapping_set (q_name (fst row)) d qb_dict)
  end.

(** [get_all_quarterbacks] *)
Definition get_all_quarterbacks (season : option Z) : M mapping :=
  df ← get_quarterback_stats season;
  lift (rows_to_dict df []).

(** *** What the store holds *)

Definition numeric_row (s : stats_row) : Prop :=
  Forall (fun v => is_num v = true)
         [ s_games_played s; s_completions s; s_attempts s;
           s_completion_pct s; s_yards s; s_yards_per_attempt s;
           s_touchdowns s; s_interceptions s; s_rating s; s_sacked s;
           s_fumbles s ].

(** The properties of a store that every [_save_to_database] keeps: no
    id is beyond the counter of its table, the two [UNIQUE] constraints
    hold, every player row carries the [espn_id] of its name, and the
    statistics are numbers. *)
Record consistent (d : database) : Prop := {
  ids_issued :
    Forall (fun q => (q_id q <= quarterbacks_seq d)%Z) (quarterbacks d);
  refs_issued :
    Forall (fun s => (s_qb_id s <= quarterbacks_seq d)%Z) (quarterback_stats d);
  unique_espn_id : NoDup (map q_espn_id (quarterbacks d));
  espn_id_of_name :
    Forall (fun q => q_espn_id q = demo_id (q_name q)) (quarterbacks d);
  unique_player_season :
    NoDup (map (fun s => (s_qb_id s, s_season s)) (quarterback_stats d));
  rows_numeric : Forall numeric_row (quarterback_stats d) }.

(** The columns of statistics that [_save_to_database] fills. *)
Definition stat_columns : list string :=
  [ "games_played"; "completions"; "attempts"; "completion_pct"; "yards";
    "yards_per_attempt"; "touchdowns"; "interceptions"; "rating"; "sacked";
    "fumbles" ].

(** A number that SQLite stores as it is: a float, or an integer of 64
    bits. *)
Definition storable_number (v : pyval) : bool :=
  match v with
  | PInt z => (- 2 ^ 63 <=? z)%Z && (z <? 2 ^ 63)%Z
  | PFloat _ => true
  | PStr _ => false
  end.

(** A stats dictionary inside the domain of the store model: the team is
    a text, and the statistics it has are numbers that can be stored. *)
Definition storable (st : stats) : bool :=
  match dict_lookup st "team" with
  | Some (PStr _) => true
  | _ => false
  end
  && forallb (fun k => storable_number (dict_get st k (PInt 0))) stat_columns.

(** What is read back for a dictionary that was saved: the twelve keys
    of the table, with 0 for a missing statistic, the counters as
    [int]s and the rates as [float]s. *)
Definition read_back (st : stats) : result stats :=
  team ← dict_item st "team";
  row_to_dict
    ({| q_id := 0; q_espn_id := EmptyString; q_name := EmptyString;
        q_team := team; q_position := "QB"; q_created_at := 0;
        q_updated_at := 0 |},
     {| s_id := 0; s_qb_id := 0; s_season := 0;
        s_games_played := dict_get st "games_played" (PInt 0);
        s_completions := dict_get st "completions" (PInt 0);
        s_attempts := dict_get st "attempts" (PInt 0);
        s_completion_pct := dict_get st "completion_pct" (PInt 0);
        s_yards := dict_get st "yards" (PInt 0);
        s_yards_per_attempt := dict_get st "yards_per_attempt" (PInt 0);
        s_touchdowns := dict_get st "touchdowns" (PInt 0);
        s_interceptions := dict_get st "interceptions" (PInt 0);
        s_rating := dict_get st "rating" (PInt 0);
        s_sacked := dict_get st "sacked" (PInt 0);
        s_fumbles := dict_get st "fumbles" (PInt 0);
        s_last_updated := None |}).

(** The player [name] is in the store for [season], and reads back as
    the dictionary [c]. *)
Definition stored (d : database) (season : Z) (name : string) (c : stats)
    : Prop :=
  exists q s,
    In q (quarterbacks d) /\ q_name q = name
    /\ In s (quarterback_stats d)
    /\ s_qb_id s = q_id q /\ s_season s = season
    /\ row_to_dict (q, s) = Ok c.

(** [w'] has the clock and the database of [w]: what [_save_to_database]
    reads. *)
Definition same_store (w w' : world) : Prop :=
  db w' = db w /\ now w' = now w /\ year w' = year w.

End HybridQBScraper.

(** ** [src/scraper.py]: fetching the statistics *)

Module ESPNQBScraperFetch.

Import ESPNQBScraper.

(** A parsed page, seen through what [_parse_qb_stats] asks of it:
    [select_one] gives the first element that matches a selector, and of
    that element only the rows are read, each row being given by the
    cells [find_all(['td', 'th'])] returns on it. *)
Record soup := {
  select_one : string -> option (list (list cell)) }.

(** Everything outside the program: the remote source, the HTML parser
    and the time spent sleeping. *)
Record world := {
  net : nat -> string -> result HybridQBScraper.response;
  requests : nat;
  html_parser : string -> result soup;
  slept : Z }.

Definition M (A : Type) : Type := world -> result A * world.

#[global] Instance M_ret : MRet M := fun A a w => (Ok a, w).
#[global] Instance M_bind : MBind M := fun A B f m w =>
  match m w with
  | (Ok a, w') => f a w'
  | (Raise e, w') => (Raise e, w')
  end.

Definition lift {A} (r : result A) : M A := fun w => (r, w).

(** [try: m except Exception as e: h e] *)
Definition try_catch {A} (m : M A) (h : exn -> M A) : M A := fun w =>
  match m w with
  | (Ok a, w') => (Ok a, w')
  | (Raise e, w') => if is_Exception e then h e w' else (Raise e, w')
  end.

(** [self.session.get(url, timeout=10)] *)
Definition session_get (url : string) : M HybridQBScraper.response := fun w =>
  (net w (requests w) url,
   {| net := net w; requests := S (requests w);
      html_parser := html_parser w; slept := slept w |}).

(** [time.sleep(seconds)] *)
Definition sleep (seconds : Z) : M unit := fun w =>
  (Ok tt,
   {| net := net w; requests := requests w; html_parser := html_parser w;
      slept := (slept w + seconds)%Z |}).

(** [BeautifulSoup(content, 'html.parser')] *)
Definition BeautifulSoup (content : string) : M soup := fun w =>
  (html_parser w content, w).

Definition table_selectors : list string :=
  [ "table.Table"; "table"; ".Table";
    "[class*=" ++ HybridQBScraper.dquote ++ "table" ++ HybridQBScraper.dquote
      ++ "]";
    "[class*=" ++ HybridQBScraper.dquote ++ "stats" ++ HybridQBScraper.dquote
      ++ "]" ].

(** The loop over [table_selectors]: the first element found. *)
Fixpoint first_table (soup : soup) (selectors : list string)
    : option (list (list cell)) :=
  match selectors with
  | [] => None
  | selector :: rest =>
      match select_one soup selector with
      | Some stats_table => Some stats_table
      | None => first_table soup rest
      end
  end.

(** [_parse_alternative_data]: the scripts and the player [div]s are
    looked for, and the dictionary returned is the empty one created at
    the start, on both of its ways out. *)
Definition _parse_alternative_data (soup : soup) : M mapping :=
  let qb_stats : mapping := [] in
  mret qb_stats.

(** [_parse_qb_stats] *)
Definition _parse_qb_stats (content : string) : M mapping :=
  soup ← BeautifulSoup content;
  match first_table soup table_selectors with
  | None => _parse_alternative_data soup
  | Some stats_table => lift (parse_table stats_table)
  end.

(** [_parse_api_data]: the source returns the empty dictionary it has
    just created. *)
Definition _parse_api_data (data : HybridQBScraper.json_value) : M mapping :=
  let qb_stats : mapping := [] in
  mret qb_stats.

(** [_fetch_from_api] *)
Definition _fetch_from_api : M mapping :=
  try_catch
    (response ← session_get HybridQBScraper.api_url;
     if (HybridQBScraper.status_code response =? 200)%Z then
       data ← lift (HybridQBScraper.json response);
       _parse_api_data data
     else mret [])
    (fun e => mret []).

Definition urls_to_try : list string :=
  [ "https://www.espn.com/nfl/stats/player/_/view/offense/stat/passing/table/passing/sort/passingYards/dir/desc";
    "https://www.espn.com/nfl/stats/player/_/stat/passing";
    "https://www.espn.com/nfl/stats/player/_/view/offense/stat/passing";
    "https://www.espn.com/nfl/stats/player/_/stat/passing/table/passing" ].

(** The [for url in urls_to_try] loop of [fetch_qb_stats] and the call
    of [_fetch_from_api] after it. *)
Fixpoint fetch_loop (urls : list string) : M mapping :=
  match urls with
  | [] => _fetch_from_api
  | url :: rest =>
      response ← session_get url;
      if (HybridQBScraper.status_code response =? 200)%Z then
        _parse_qb_stats (HybridQBScraper.content response)
      else
        _ ← sleep 2;
        fetch_loop rest
  end.

(** [fetch_qb_stats]: both [except] clauses return the empty
    dictionary. *)
Definition fetch_qb_stats : M mapping :=
  try_catch (fetch_loop urls_to_try) (fun e => mret []).

End ESPNQBScraperFetch.

(** ** [src/db_manager.py]: class [DatabaseManager] *)

Module DatabaseManager.

(** [needs_update].  [store] is the database file: [None] when
    [os.path.exists(self.db_path)] is false.  Of the statistics table
    only the column [last_updated] is read.  [age.total_seconds()] is
    the difference of the two timestamps in seconds. *)
Definition needs_update (store : option database) (now : timestamp)
    (max_age_hours : Z) : bool :=
  match store with
  | None => true
  | Some d =>
      match Sql.select_max_last_updated d with
      | None => true
      | Some last_updated =>
          let age := (now - last_updated)%Z in
          Qlt_bool (inject_Z (max_age_hours * 3600)) (age # 1000000)
      end
  end.

End DatabaseManager.

(** ** [main.py]: the menu of rankings *)

Module Main.

(** [s.isdigit()]: at least one character, and every character a
    digit. *)
Definition isdigit (s : string) : bool :=
  ESPNQBScraper.nonempty s && Str.forallb Str.isdigit s.

(** [int(s)] for a string of [isdigit] characters.  [int] accepts the
    decimal digits, and a digit that is no decimal makes it raise
    [ValueError].  Among the code points of the model (below 256) the
    digits are the ASCII digits, which are decimals, and the
    superscripts U+00B2, U+00B3 and U+00B9, which are not.  The
    interpreter may also refuse a numeral that is too long (more than
    4300 digits, by default, since Python 3.11); the model has no such
    limit. *)
Definition int (s : string) : result Z :=
  if ESPNQBScraper.nonempty s then
    match ESPNQBScraper.digits_value 0 s with
    | Some n => Ok (Z.of_N n)
    | None => Raise ValueError
    end
  else Raise ValueError.

(** The dictionary [stats] of [view_top_quarterbacks]: the choice, the
    stat key and the label printed for it. *)
Definition stats : list (string * (string * string)) :=
  [ ("1", ("yards", "Passing Yards"));
    ("2", ("touchdowns", "Touchdowns"));
    ("3", ("rating", "Passer Rating"));
    ("4", ("completion_pct", "Completion Percentage"));
    ("5", ("yards_per_attempt", "Yards per Attempt"));
    ("6", ("interceptions", "Interceptions (Lowest)")) ].

(** [view_top_quarterbacks].  [choice_line] and [limit_line] are the two
    lines read from the console, the second one being read only for a
    choice of the menu.  The result is the ranking that [print_top_qbs]
    obtains from [get_top_qbs] and prints, or [None] for a choice that
    is not on the menu. *)
Definition view_top_quarterbacks (comparer : QuarterbackComparer.t)
    (choice_line limit_line : string) : result (option mapping) :=
  let choice := Str.strip choice_line in
  match QuarterbackComparer.assoc choice stats with
  | Some (stat, name) =>
      let limit := Str.strip limit_line in
      limit ← (if isdigit limit then int limit else mret 10%Z);
      top_qbs ← QuarterbackComparer.get_top_qbs comparer stat limit;
      mret (Some top_qbs)
  | None => mret None
  end.

End Main.

(* ===================================================================== *)
(** * Part II: properties                                                *)
(* ===================================================================== *)

(** ** Doubles: rounding *)

Section Float64Facts.

Local Open Scope Q_scope.

Lemma pow2_pos (e : Z) : 0 < 2 ^ e.
Proof. apply Qpower_0_lt. reflexivity. Qed.

Lemma pow2_plus (a b : Z) : 2 ^ (a + b) == 2 ^ a * 2 ^ b.
Proof. apply Qpower_plus. discriminate. Qed.

Lemma pow2_lt_inv (a b : Z) : 2 ^ a < 2 ^ b -> (a < b)%Z.
Proof. intros H. apply (Qpower_lt_compat_l_inv 2 a b H). reflexivity. Qed.

Lemma pow2_le (a b : Z) : (a <= b)%Z -> 2 ^ a <= 2 ^ b.
Proof. intros H. apply Qpower_le_compat_l; [exact H|discriminate]. Qed.

Lemma pow2_lt (a b : Z) : (a < b)%Z -> 2 ^ a < 2 ^ b.
Proof. intros H. apply Qpower_lt_compat_l; [exact H|reflexivity]. Qed.

Lemma pow2_Z (n : Z) : (0 <= n)%Z -> inject_Z (2 ^ n) == 2 ^ n.
Proof. intros H. apply (Zpower_Qpower 2 n H). Qed.

(** An integer nearest to [m] is at most one half away from it. *)
Lemma nearest_even_close (m : Q) :
  Qabs (inject_Z (Float64.nearest_even m) - m) <= 1 # 2.
Proof.
  unfold Float64.nearest_even.
  pose proof (Qfloor_le m) as Hlo. pose proof (Qlt_floor m) as Hhi.
  rewrite inject_Z_plus in Hhi. change (inject_Z 1) with 1 in Hhi.
  apply Qabs_Qle_condition.
  destruct (m - inject_Z (Qfloor m) ?= 1 # 2) eqn:E.
  - apply Qeq_alt in E.
    destruct (Z.even (Qfloor m)); rewrite ?inject_Z_plus;
      change (inject_Z 1) with 1; split; lra.
  - apply Qlt_alt in E. split; lra.
  - apply Qgt_alt in E. rewrite inject_Z_plus. change (inject_Z 1) with 1.
    split; lra.
Qed.

Lemma nearest_even_nonneg (m : Q) : 0 <= m -> (0 <= Float64.nearest_even m)%Z.
Proof.
  intros H. unfold Float64.nearest_even.
  assert (Hf : (0 <= Qfloor m)%Z).
  { change 0%Z with (Qfloor 0). apply Qfloor_resp_le. exact H. }
  destruct (m - inject_Z (Qfloor m) ?= 1 # 2);
    [destruct (Z.even (Qfloor m))| |]; lia.
Qed.


(** [exponent] is the binary exponent of a positive number. *)
Lemma exponent_spec (x : Q) :
  0 < x ->
  2 ^ Float64.exponent x <= x /\ x < 2 ^ (Float64.exponent x + 1).
Proof.
  intros Hx. unfold Float64.exponent.
  destruct x as [n d]; cbn [Qnum Qden].
  assert (Hn : (0 < n)%Z) by (unfold Qlt in Hx; simpl in Hx; lia).
  destruct (Z.log2_spec n Hn) as [Hn1 Hn2].
  destruct (Z.log2_spec (Z.pos d) (Pos2Z.is_pos d)) as [Hd1 Hd2].
  pose proof (Z.log2_nonneg n) as Hln.
  pose proof (Z.log2_nonneg (Z.pos d)) as Hld.
  set (ln := Z.log2 n) in *. set (ld := Z.log2 (Z.pos d)) in *.
  rewrite Zle_Qle in Hn1, Hd1. rewrite Zlt_Qlt in Hn2, Hd2.
  rewrite pow2_Z in Hn1, Hd1, Hn2, Hd2 by lia.
  assert (HD : 0 < inject_Z (Z.pos d)) by reflexivity.
  assert (Hup : n # d < 2 ^ (ln - ld + 1)).
  { rewrite (Qmake_Qdiv n d). apply Qlt_shift_div_r; [exact HD|].
    apply (Qlt_le_trans _ _ _ Hn2).
    replace (Z.succ ln) with ((ln - ld + 1) + ld)%Z by lia.
    rewrite pow2_plus. apply Qmult_le_l; [apply pow2_pos|exact Hd1]. }
  assert (Hlo : 2 ^ (ln - ld - 1) <= n # d).
  { rewrite (Qmake_Qdiv n d). apply Qle_shift_div_l; [exact HD|].
    apply (Qle_trans _ (2 ^ ln)); [|exact Hn1].
    replace ln with ((ln - ld - 1) + Z.succ ld)%Z at 2 by lia.
    rewrite pow2_plus. apply Qmult_le_l; [apply pow2_pos|].
    apply Qlt_le_weak. exact Hd2. }
  destruct (Qle_bool (2 ^ (ln - ld)) (n # d)) eqn:E.
  - apply Qle_bool_iff in E. split; [exact E|exact Hup].
  - split; [exact Hlo|].
    replace (ln - ld - 1 + 1)%Z with (ln - ld)%Z by lia.
    apply Qnot_le_lt. intros Hle. apply Qle_bool_iff in Hle. congruence.
Qed.

(** The exponent is determined by the value. *)
Lemma exponent_unique (x : Q) (e : Z) :
  2 ^ e <= x -> x < 2 ^ (e + 1) -> Float64.exponent x = e.
Proof.
  intros Hlo Hhi.
  assert (Hx : 0 < x) by (apply (Qlt_le_trans _ (2 ^ e)); [apply pow2_pos|exact Hlo]).
  destruct (exponent_spec x Hx) as [Hlo' Hhi'].
  assert (H1 : (Float64.exponent x < e + 1)%Z).
  { apply pow2_lt_inv. apply (Qle_lt_trans _ x); assumption. }
  assert (H2 : (e < Float64.exponent x + 1)%Z).
  { apply pow2_lt_inv. apply (Qle_lt_trans _ x); assumption. }
  lia.
Qed.

Lemma exponent_proper (x y : Q) :
  0 < x -> x == y -> Float64.exponent x = Float64.exponent y.
Proof.
  intros Hx E. destruct (exponent_spec x Hx) as [Hlo Hhi].
  symmetry. apply exponent_unique; rewrite <- E; assumption.
Qed.


Lemma Qabs_nonzero (x : Q) : ~ x == 0 -> 0 < Qabs x.
Proof.
  intros Hx. destruct (Qlt_le_dec 0 (Qabs x)) as [H|H]; [exact H|].
  exfalso. apply Hx.
  pose proof (Qabs_nonneg x) as H0.
  assert (E : Qabs x == 0) by (apply Qle_antisym; assumption).
  revert E. apply Qabs_case; intros H1 E; lra.
Qed.

Lemma round_zero (x : Q) : x == 0 -> Float64.round x = 0.
Proof.
  intros E. unfold Float64.round.
  rewrite (proj2 (Qeq_bool_iff x 0) E). reflexivity.
Qed.

Lemma round_eq (x : Q) :
  ~ x == 0 ->
  Float64.round x
  == inject_Z (Float64.nearest_even (x / 2 ^ Float64.quantum x))
     * 2 ^ Float64.quantum x.
Proof.
  intros Hx. unfold Float64.round.
  destruct (Qeq_bool x 0) eqn:E.
  - apply Qeq_bool_iff in E. contradiction.
  - apply Qred_correct.
Qed.

(** Rounding moves a number by half a unit in the last place at most. *)
Lemma round_error (x : Q) :
  Qabs (Float64.round x - x) <= (1 # 2) * 2 ^ Float64.quantum x.
Proof.
  pose proof (pow2_pos (Float64.quantum x)) as Hq.
  destruct (Qeq_dec x 0) as [E|Hx].
  - rewrite (round_zero x E).
    assert (E0 : Qabs (0 - x) == 0) by (rewrite E; reflexivity).
    rewrite E0. apply Qmult_le_0_compat; [discriminate|].
    apply Qlt_le_weak. exact Hq.
  - rewrite (round_eq x Hx).
    set (q := Float64.quantum x) in *. set (m := x / 2 ^ q).
    assert (Ed : inject_Z (Float64.nearest_even m) * 2 ^ q - x
                 == (inject_Z (Float64.nearest_even m) - m) * 2 ^ q).
    { unfold m. field. intros E. rewrite E in Hq. discriminate Hq. }
    rewrite Ed.
    rewrite Qabs_Qmult, (Qabs_pos (2 ^ q)) by (apply Qlt_le_weak; exact Hq).
    apply Qmult_le_compat_r; [apply nearest_even_close|].
    apply Qlt_le_weak. exact Hq.
Qed.

(** Above the subnormal numbers the error is relative: at most
    [2 ^ -53] of the number. *)
Lemma round_relative (x : Q) :
  2 ^ (-1022) <= Qabs x ->
  Qabs (Float64.round x - x) <= 2 ^ (-53) * Qabs x.
Proof.
  intros Hn.
  assert (Hpos : 0 < Qabs x)
    by (apply (Qlt_le_trans _ (2 ^ (-1022))); [apply pow2_pos|exact Hn]).
  destruct (exponent_spec (Qabs x) Hpos) as [Hlo Hhi].
  assert (He : (-1022 <= Float64.exponent (Qabs x))%Z).
  { assert (-1022 < Float64.exponent (Qabs x) + 1)%Z; [|lia].
    apply pow2_lt_inv. apply (Qle_lt_trans _ (Qabs x)); assumption. }
  apply (Qle_trans _ _ _ (round_error x)).
  unfold Float64.quantum. rewrite Z.max_l by lia.
  setoid_replace ((1 # 2) * 2 ^ (Float64.exponent (Qabs x) - 52))
    with (2 ^ (-53) * 2 ^ Float64.exponent (Qabs x)) using relation Qeq.
  - apply Qmult_le_l; [apply pow2_pos|exact Hlo].
  - replace (Float64.exponent (Qabs x) - 52)%Z
      with (-52 + Float64.exponent (Qabs x))%Z by lia.
    rewrite pow2_plus. rewrite Qmult_assoc.
    apply Qmult_comp; reflexivity.
Qed.

Lemma round_nonneg (x : Q) : 0 <= x -> 0 <= Float64.round x.
Proof.
  intros H. destruct (Qeq_dec x 0) as [E|Hx].
  - rewrite (round_zero x E). apply Qle_refl.
  - rewrite (round_eq x Hx).
    pose proof (pow2_pos (Float64.quantum x)) as Hq.
    apply Qmult_le_0_compat; [|apply Qlt_le_weak; exact Hq].
    change 0 with (inject_Z 0). rewrite <- Zle_Qle.
    apply nearest_even_nonneg.
    apply Qle_shift_div_l; [exact Hq|]. rewrite Qmult_0_l. exact H.
Qed.

(** Equal numbers round to one and the same fraction. *)
Lemma round_proper (x y : Q) : x == y -> Float64.round x = Float64.round y.
Proof.
  intros E. destruct (Qeq_dec x 0) as [E0|Hx].
  - rewrite (round_zero x E0), (round_zero y); [reflexivity|].
    rewrite <- E. exact E0.
  - assert (Hy : ~ y == 0) by (rewrite <- E; exact Hx).
    unfold Float64.round.
    destruct (Qeq_bool x 0) eqn:Ex;
      [apply Qeq_bool_iff in Ex; contradiction|].
    destruct (Qeq_bool y 0) eqn:Ey;
      [apply Qeq_bool_iff in Ey; contradiction|].
    assert (Eq : Float64.quantum x = Float64.quantum y).
    { unfold Float64.quantum. f_equal. f_equal.
      apply exponent_proper; [apply Qabs_nonzero; exact Hx|].
      rewrite E. reflexivity. }
    apply Qred_complete. rewrite Eq.
    assert (En : Float64.nearest_even (x / 2 ^ Float64.quantum y)
                 = Float64.nearest_even (y / 2 ^ Float64.quantum y)).
    { unfold Float64.nearest_even.
      assert (Em : x / 2 ^ Float64.quantum y == y / 2 ^ Float64.quantum y)
        by (rewrite E; reflexivity).
      rewrite (Qfloor_comp _ _ Em).
      rewrite Em. reflexivity. }
    rewrite En. reflexivity.
Qed.


(** Rounding keeps a number below the next power of two. *)
Lemma round_bound (x : Q) (k : Z) :
  (-1074 <= k)%Z -> Qabs x < 2 ^ k -> Qabs (Float64.round x) < 2 ^ (k + 1).
Proof.
  intros Hk Hx.
  destruct (Qeq_dec x 0) as [E|Hx0].
  - rewrite (round_zero x E). apply pow2_pos.
  - pose proof (round_error x) as Herr.
    destruct (exponent_spec (Qabs x) (Qabs_nonzero x Hx0)) as [Hlo _].
    assert (He : (Float64.exponent (Qabs x) < k)%Z).
    { apply pow2_lt_inv. apply (Qle_lt_trans _ (Qabs x)); assumption. }
    assert (Hq : (1 # 2) * 2 ^ Float64.quantum x <= 2 ^ k).
    { apply (Qle_trans _ (1 * 2 ^ Float64.quantum x)).
      - apply Qmult_le_compat_r; [discriminate|].
        apply Qlt_le_weak, pow2_pos.
      - rewrite Qmult_1_l. apply pow2_le. unfold Float64.quantum. lia. }
    setoid_replace (Float64.round x) with (x + (Float64.round x - x))
      using relation Qeq by ring.
    apply (Qle_lt_trans _ _ _ (Qabs_triangle _ _)).
    replace (k + 1)%Z with (1 + k)%Z by lia. rewrite pow2_plus.
    change (2 ^ 1) with 2. lra.
Qed.

(** What is below [2 ^ 1023] in absolute value rounds to a double. *)
Lemma round_finite (x : Q) :
  Qabs x < 2 ^ 1023 -> Float64.finite (Float64.round x) = true.
Proof.
  intros H. unfold Float64.finite. apply negb_true_iff.
  destruct (Qle_bool (2 ^ 1024) (Qabs (Float64.round x))) eqn:E;
    [|reflexivity].
  apply Qle_bool_iff in E.
  pose proof (round_bound x 1023 ltac:(lia) H) as Hb.
  change (1023 + 1)%Z with 1024%Z in Hb.
  exfalso. exact (Qlt_not_le _ _ Hb E).
Qed.

Lemma Qabs_inject_Z (z : Z) : Qabs (inject_Z z) == inject_Z (Z.abs z).
Proof. reflexivity. Qed.

(** An [int] below [2 ^ 1023] in absolute value converts. *)
Lemma float_of_int_moderate (z : Z) :
  (Z.abs z < 2 ^ 1023)%Z ->
  float_of_int z = Ok (Float64.round (inject_Z z)).
Proof.
  intros H. unfold float_of_int. rewrite round_finite; [reflexivity|].
  rewrite Qabs_inject_Z, <- pow2_Z by lia. rewrite <- Zlt_Qlt. exact H.
Qed.


(** Above the subnormal numbers a positive number rounds to a positive
    one. *)
Lemma round_pos (x : Q) : 2 ^ (-1022) <= x -> 0 < Float64.round x.
Proof.
  intros H.
  assert (Hx : 0 < x)
    by (apply (Qlt_le_trans _ (2 ^ (-1022))); [apply pow2_pos|exact H]).
  assert (Ea : Qabs x == x) by (apply Qabs_pos, Qlt_le_weak; exact Hx).
  pose proof (round_relative x) as Hr. rewrite Ea in Hr. specialize (Hr H).
  apply Qabs_Qle_condition in Hr. destruct Hr as [Hr _].
  assert (Hu : 2 ^ (-53) * x <= (1 # 2) * x).
  { apply Qmult_le_compat_r; [|apply Qlt_le_weak; exact Hx].
    apply (Qle_trans _ (2 ^ (-1))); [apply pow2_le; lia|].
    apply Qle_refl. }
  lra.
Qed.


(** Rounding a number that is not negative: the error is at most
    [2 ^ -53] of the number, or half the least subnormal number. *)
Lemma round_close (x : Q) :
  0 <= x -> Qabs (Float64.round x - x) <= 2 ^ (-53) * x + 2 ^ (-1075).
Proof.
  intros H0.
  pose proof (pow2_pos (-1075)) as Hs. pose proof (pow2_pos (-53)) as Hu.
  assert (Hux : 0 <= 2 ^ (-53) * x)
    by (apply Qmult_le_0_compat; [apply Qlt_le_weak; exact Hu|exact H0]).
  assert (Ea : Qabs x == x) by (apply Qabs_pos; exact H0).
  destruct (Qeq_dec x 0) as [E|Hx].
  - rewrite (round_zero x E).
    assert (Ex : Qabs (0 - x) == 0) by (rewrite E; reflexivity).
    rewrite Ex. lra.
  - destruct (Qlt_le_dec x (2 ^ (-1022))) as [Hsub|Hnorm].
    + apply (Qle_trans _ _ _ (round_error x)).
      destruct (exponent_spec (Qabs x) (Qabs_nonzero x Hx)) as [Hlo _].
      assert (He : (Float64.exponent (Qabs x) < -1022)%Z).
      { apply pow2_lt_inv. apply (Qle_lt_trans _ (Qabs x)); [exact Hlo|].
        rewrite Ea. exact Hsub. }
      unfold Float64.quantum. rewrite Z.max_r by lia.
      change (-1074)%Z with (1 + -1075)%Z. rewrite pow2_plus.
      change (2 ^ 1) with 2. lra.
    + pose proof (round_relative x) as Hr. rewrite Ea in Hr.
      specialize (Hr Hnorm). lra.
Qed.

End Float64Facts.

(** ** Head-to-head comparison over the demo dataset *)

Section Comparison.

Import QuarterbackComparer.

Lemma Qlt_bool_inject_Z (a b : Z) :
  Qlt_bool (inject_Z a) (inject_Z b) = (a <? b)%Z.
Proof.
  unfold Qlt_bool, Qle_bool; simpl.
  rewrite !Z.mul_1_r. symmetry. apply Z.ltb_antisym.
Qed.

(** The rule of the comparison, on integer stats: the player with the
    greater value is the winner, whatever the stat, and equal values are
    a tie; the difference is the distance between the two values. *)
Lemma compare_one_greater_wins (qb1_name qb2_name : string)
    (qb1_stats qb2_stats : stats) (stat : string) (x y : Z) :
  dict_lookup qb1_stats stat = Some (PInt x) ->
  dict_lookup qb2_stats stat = Some (PInt y) ->
  compare_one qb1_name qb2_name qb1_stats qb2_stats stat
  = Ok (Some (stat,
              {| qb1_value := PInt x; qb2_value := PInt y;
                 winner := if (y <? x)%Z then qb1_name
                           else if (x <? y)%Z then qb2_name else "Tie";
                 difference := PInt (Z.abs (x - y)) |})).
Proof.
  intros H1 H2. unfold compare_one, dict_has, dict_item. rewrite H1, H2.
  cbn [andb mbind result_bind py_gt num_of].
  rewrite !Qlt_bool_inject_Z.
  destruct (Z.ltb_spec y x) as [Hyx|Hxy];
    cbn [mbind result_bind py_sub mret result_ret fst snd].
  - rewrite Z.abs_eq by lia. reflexivity.
  - destruct (Z.ltb_spec x y) as [Hlt|Hge];
      cbn [mbind result_bind py_sub mret result_ret fst snd].
    + rewrite Z.abs_neq by lia. replace (- (x - y)) with (y - x) by lia.
      reflexivity.
    + replace (x - y) with 0 by lia. reflexivity.
Qed.

(** C1, as the specification states it, does not hold: there is no run
    of [compare_stats] on "Patrick Mahomes" and "Josh Allen" over the demo
    dataset that reports Mahomes as the winner of ['interceptions']. *)
Lemma compare_interceptions_winner_is_not_mahomes :
  ~ (exists c sc,
        compare_stats {| qb_data := get_demo_data |}
                      "Patrick Mahomes" "Josh Allen" = Ok c
        /\ comparison_of c "interceptions" = Some sc
        /\ winner sc = "Patrick Mahomes"
        /\ difference sc = PInt 6).
Proof.
  intros (c & sc & Hrun & Hsc & Hwin & _).
  vm_compute in Hrun.
  injection Hrun as <-.
  vm_compute in Hsc.
  injection Hsc as <-.
  discriminate Hwin.
Qed.

(** C1 (amended): comparing "Patrick Mahomes" with "Josh Allen" over the
    demo dataset reads the interceptions 8 and 14 and reports Josh Allen
    as the winner of ['interceptions'], with difference 6. *)
Theorem compare_interceptions_demo :
  exists c sc,
    compare_stats {| qb_data := get_demo_data |}
                  "Patrick Mahomes" "Josh Allen" = Ok c
    /\ comparison_of c "interceptions" = Some sc
    /\ qb1_value sc = PInt 8
    /\ qb2_value sc = PInt 14
    /\ winner sc = "Josh Allen"
    /\ difference sc = PInt 6.
Proof.
  destruct (compare_stats {| qb_data := get_demo_data |}
                          "Patrick Mahomes" "Josh Allen") as [c|e] eqn:Hrun;
    vm_compute in Hrun; [|discriminate Hrun].
  injection Hrun as <-.
  eexists; eexists; split; [reflexivity|].
  split; [vm_compute; reflexivity|].
  repeat split.
Qed.

End Comparison.

(** ** The acquisition chain *)

Section Acquisition.

Import HybridQBScraper.

(** The API path returns the empty mapping in every world: a request
    that raises, a status other than 200 and a body that does not decode
    are all absorbed, and a decoded document is not read. *)
Lemma try_espn_api_empty (w : world) :
  exists w', try_espn_api w = (Ok [], w').
Proof.
  unfold try_espn_api, try_catch, mbind, M_bind, session_get.
  destruct (net w (requests w) api_url) as [r|e]; simpl; [|eauto].
  destruct (status_code r =? 200)%Z; simpl; [|eauto].
  unfold lift; destruct (json r); simpl; eauto.
Qed.

Lemma parse_webpage_cases (content : string) (w : world) :
  _parse_webpage content w = (Ok [], w)
  \/ exists e, _parse_webpage content w = (Raise e, w).
Proof.
  unfold _parse_webpage, mbind, M_bind, BeautifulSoup.
  destruct (html_parser w content); simpl; eauto.
Qed.

Lemma scrape_loop_cases (urls : list string) :
  forall w, exists w',
    scrape_loop urls w = (Ok [], w')
    \/ exists e, scrape_loop urls w = (Raise e, w').
Proof.
  induction urls as [|url rest IH]; intros w; simpl.
  - exists w; left; reflexivity.
  - unfold mbind, M_bind, session_get.
    destruct (net w (requests w) url) as [r|e]; simpl; [|eauto].
    destruct (status_code r =? 200)%Z.
    + match goal with |- context [_parse_webpage ?c ?w1] =>
        destruct (parse_webpage_cases c w1) as [H|[e H]]; rewrite H; eauto
      end.
    + apply IH.
Qed.

(** The scrape path returns the empty mapping in every world. *)
Lemma try_web_scraping_empty (w : world) :
  exists w', try_web_scraping w = (Ok [], w').
Proof.
  unfold try_web_scraping, try_catch.
  destruct (scrape_loop_cases urls_to_try w) as (w' & [H|[e H]]);
    rewrite H; simpl; eauto.
Qed.

(** C5: whenever the remote source fails (the request raises a network
    error or a timeout, the status is not 200, or the body does not
    parse), [try_espn_api] and [try_web_scraping] return the empty
    mapping; they return normally, so nothing propagates to the
    caller. *)
Theorem fetch_failures_give_empty_mapping (w : world) :
  (api_fails w -> fst (try_espn_api w) = Ok [])
  /\ (scrape_fails w (requests w) urls_to_try ->
      fst (try_web_scraping w) = Ok []).
Proof.
  split; intros _.
  - destruct (try_espn_api_empty w) as [w' ->]; reflexivity.
  - destruct (try_web_scraping_empty w) as [w' ->]; reflexivity.
Qed.

Lemma fetch_failures_give_empty_mapping_witness :
  api_fails (offline Sql.empty)
  /\ scrape_fails (offline Sql.empty) 0 urls_to_try
  /\ fst (try_espn_api (offline Sql.empty)) = Ok []
  /\ fst (try_web_scraping (offline Sql.empty)) = Ok [].
Proof.
  split; [exact I|]. split; [exact I|].
  split.
  - apply (proj1 (fetch_failures_give_empty_mapping (offline Sql.empty))).
    exact I.
  - apply (proj2 (fetch_failures_give_empty_mapping (offline Sql.empty))).
    exact I.
Defined.

(** *** Saving *)

Lemma find_after_filter {A} (f : A -> bool) (l : list A) (x : A) :
  f x = true ->
  List.find f (List.filter (fun r => negb (f r)) l ++ [x]) = Some x.
Proof.
  intros Hx; induction l as [|y l IH]; simpl.
  - rewrite Hx; reflexivity.
  - destruct (f y) eqn:Hy; simpl; [exact IH|].
    rewrite Hy; exact IH.
Qed.

(** Right after the upsert of a player, the player's row is found, under
    the id the upsert allocated. *)
Lemma select_id_after_insert now espn_id name team position updated_at d :
  Sql.select_id espn_id
    (Sql.insert_or_replace_quarterback now espn_id name team position
                                       updated_at d)
  = Ok (Sql.next_id (quarterbacks_seq d) (map q_id (quarterbacks d))).
Proof.
  unfold Sql.select_id, Sql.insert_or_replace_quarterback; simpl.
  rewrite (find_after_filter (fun r => String.eqb (q_espn_id r) espn_id)).
  - reflexivity.
  - simpl; apply String.eqb_refl.
Qed.

Lemma save_one_ok current_time season name (st : stats) d :
  dict_has st "team" = true ->
  exists d', save_one current_time season name st d = Ok d'.
Proof.
  intros Hteam; unfold save_one, dict_item.
  unfold dict_has in Hteam.
  destruct (dict_lookup st "team") as [team|]; [|discriminate Hteam].
  cbn [mbind result_bind].
  rewrite select_id_after_insert; cbn [mbind result_bind mret result_ret].
  eauto.
Qed.

Lemma save_loop_ok current_time season (items : mapping) :
  forallb (fun p => dict_has (snd p) "team") items = true ->
  forall d, exists d', save_loop current_time season items d = Ok d'.
Proof.
  induction items as [|[name st] rest IH]; intros Hall d; simpl.
  - eauto.
  - simpl in Hall; apply andb_true_iff in Hall; destruct Hall as [Hst Hrest].
    destruct (save_one_ok current_time season name st d Hst) as [d' ->].
    cbn [mbind result_bind]; apply IH; exact Hrest.
Qed.

Lemma demo_data_has_teams :
  forallb (fun p => dict_has (snd p) "team") get_demo_data = true.
Proof. vm_compute; reflexivity. Qed.

(** Saving the demo dataset succeeds on every database and touches
    nothing but the database. *)
Lemma save_demo_data_ok (w : world) :
  exists d, _save_to_database get_demo_data w = (Ok tt, set_db d w).
Proof.
  unfold _save_to_database.
  destruct (save_loop_ok (now w) (year w) get_demo_data
                         demo_data_has_teams (db w)) as [d ->].
  eauto.
Qed.

Lemma mahomes_heads_demo_data :
  hd_error get_demo_data = Some mahomes.
Proof. reflexivity. Qed.

Lemma demo_data_nonempty : get_demo_data <> [].
Proof. discriminate. Qed.

(** Whatever the two tiers did to the world, [update_database] ends by
    saving and returning the demo dataset. *)
Lemma update_database_returns_demo (force_demo : bool) (w : world) :
  exists w', update_database force_demo w = (Ok get_demo_data, w').
Proof.
  unfold update_database.
  destruct force_demo; cbn [negb].
  - unfold mbind at 1, M_bind at 1; cbn [mret M_ret].
    unfold mbind at 1, M_bind at 1; cbn [mapping_truthy negb mret M_ret].
    unfold mbind, M_bind.
    destruct (save_demo_data_ok w) as [d ->]; cbn [mret M_ret]; eauto.
  - unfold mbind at 1, M_bind at 1.
    unfold mbind at 1, M_bind at 1.
    destruct (try_espn_api_empty w) as [w1 ->]; cbn [mapping_truthy negb].
    destruct (try_web_scraping_empty w1) as [w2 ->].
    unfold mbind at 1, M_bind at 1; cbn [mapping_truthy negb mret M_ret].
    unfold mbind, M_bind.
    destruct (save_demo_data_ok w2) as [d ->]; cbn [mret M_ret]; eauto.
Qed.

(** C2: for every value of [force_demo] and in every world, that is,
    whatever the API and scrape tiers answer, [update_database] returns,
    and the mapping it returns is not empty. *)
Theorem update_database_never_empty (force_demo : bool) (w : world) :
  exists qb_data w',
    update_database force_demo w = (Ok qb_data, w')
    /\ qb_data <> []
    /\ mapping_truthy qb_data = true.
Proof.
  destruct (update_database_returns_demo force_demo w) as [w' H].
  exists get_demo_data, w'; split; [exact H|].
  split; [exact demo_data_nonempty | reflexivity].
Qed.

(** C3: with [force_demo=True], [update_database] issues no request at
    all and returns exactly the static demo dataset, which has ten
    entries. *)
Theorem update_database_force_demo (w : world) :
  exists w',
    update_database true w = (Ok get_demo_data, w')
    /\ requests w' = requests w
    /\ slept w' = slept w
    /\ length get_demo_data = 10%nat.
Proof.
  unfold update_database; cbn [negb].
  unfold mbind at 1, M_bind at 1; cbn [mret M_ret].
  unfold mbind at 1, M_bind at 1; cbn [mapping_truthy negb mret M_ret].
  unfold mbind, M_bind.
  destruct (save_demo_data_ok w) as [d ->]; cbn [mret M_ret].
  exists (set_db d w); repeat split.
Qed.

End Acquisition.

(** ** The store: upsert and staleness *)

Section Store.

Import HybridQBScraper.

Lemma max_id_ge (ids : list Z) (x : Z) : In x ids -> x <= Sql.max_id ids.
Proof.
  induction ids as [|y ids IH]; simpl; [tauto|].
  intros [->|Hin]; [lia|]. specialize (IH Hin); lia.
Qed.

Lemma filter_all {A} (f : A -> bool) (l : list A) :
  Forall (fun x => f x = true) l -> List.filter f l = l.
Proof.
  induction 1 as [|x l Hx _ IH]; simpl; [reflexivity|].
  rewrite Hx, IH; reflexivity.
Qed.

(** Every upsert of a player, the first as well as a repeated one, adds
    one row to the statistics table: the [REPLACE] on [quarterbacks]
    gives the player a fresh id, so the [UNIQUE(qb_id, season)] key of
    the new statistics row never collides with the row written for the
    same player before. *)
Lemma upsert_adds_stats_row current_time season name
    (st : stats) (d : database) :
  Sql.stats_refer_to_issued_ids d ->
  dict_has st "team" = true ->
  exists d',
    upsert current_time season (name, st) d = Ok d'
    /\ Sql.stats_refer_to_issued_ids d'
    /\ length (quarterback_stats d') = S (length (quarterback_stats d)).
Proof.
  intros Hwf Hteam.
  unfold upsert, save_loop, save_one, dict_item.
  unfold dict_has in Hteam.
  destruct (dict_lookup st "team") as [team|]; [|discriminate Hteam].
  cbn [mbind result_bind].
  rewrite select_id_after_insert; cbn [mbind result_bind mret result_ret].
  eexists; split; [reflexivity|].
  set (id := Sql.next_id (quarterbacks_seq d) (map q_id (quarterbacks d))).
  assert (Hfresh : Forall (fun r => s_qb_id r < id) (quarterback_stats d)).
  { eapply Forall_impl; [exact Hwf|].
    intros r Hr; unfold id, Sql.next_id; simpl in *; lia. }
  assert (Hkeep :
    List.filter (fun r => negb ((s_qb_id r =? id)%Z && (s_season r =? season)%Z))
                (quarterback_stats d) = quarterback_stats d).
  { apply filter_all. eapply Forall_impl; [exact Hfresh|].
    intros r Hr; simpl in Hr.
    destruct (Z.eqb_spec (s_qb_id r) id); [lia|reflexivity]. }
  split.
  - unfold Sql.stats_refer_to_issued_ids, Sql.insert_or_replace_stats; simpl.
    fold id. rewrite Hkeep.
    apply Forall_app; split.
    + eapply Forall_impl; [exact Hfresh|]. intros r Hr; simpl in Hr; lia.
    + constructor; [simpl; lia|constructor].
  - unfold Sql.insert_or_replace_stats; simpl. fold id.
    rewrite Hkeep, length_app; simpl; lia.
Qed.

(** C4 fails on the code.  Starting from the empty store, one upsert of
    Patrick Mahomes leaves one player row and one statistics row; the
    same upsert applied again leaves one player row, now under id 2, and
    two statistics rows, the first of which refers to the id that no
    longer exists. *)
Theorem upsert_twice_duplicates_stats_row :
  exists d1 d2,
    upsert 0 2024 mahomes Sql.empty = Ok d1
    /\ upsert 0 2024 mahomes d1 = Ok d2
    /\ map q_id (quarterbacks d1) = [1]
    /\ map s_qb_id (quarterback_stats d1) = [1]
    /\ map q_id (quarterbacks d2) = [2]
    /\ map s_qb_id (quarterback_stats d2) = [1; 2]
    /\ length (quarterback_stats d2) <> length (quarterback_stats d1).
Proof.
  destruct (upsert 0 2024 mahomes Sql.empty) as [d1|e] eqn:H1;
    vm_compute in H1; [|discriminate H1].
  injection H1 as <-.
  eexists; eexists; split; [reflexivity|].
  split; [vm_compute; reflexivity|].
  vm_compute; repeat split; discriminate.
Qed.

(** *** Staleness *)

Lemma select_max_newest (d : database) :
  Sql.newest d (Sql.select_max_last_updated d).
Proof.
  unfold Sql.newest, Sql.select_max_last_updated.
  induction (quarterback_stats d) as [|r rows IH]; simpl.
  - intros r [].
  - destruct (s_last_updated r) as [t|] eqn:Hr; simpl.
    + destruct (fold_right Sql.max_opt None (map s_last_updated rows))
        as [m|] eqn:Hm; simpl.
      * destruct IH as [(r' & Hin & Hr') Hle]. split.
        -- destruct (Z.max_spec t m) as [[_ ->]|[_ ->]]; eauto.
        -- intros r0 t0 [<-|Hin0] H0.
           ++ rewrite Hr in H0; injection H0 as <-; lia.
           ++ specialize (Hle r0 t0 Hin0 H0); lia.
      * split; [eauto|].
        intros r0 t0 [<-|Hin0] H0.
        -- rewrite Hr in H0; injection H0 as <-; lia.
        -- rewrite (IH r0 Hin0) in H0; discriminate.
    + destruct (fold_right Sql.max_opt None (map s_last_updated rows))
        as [m|] eqn:Hm.
      * destruct IH as [(r' & Hin & Hr') Hle]. split; [eauto|].
        intros r0 t0 [<-|Hin0] H0; [congruence|eauto].
      * intros r0 [<-|Hin0]; eauto.
Qed.

Lemma newest_unique (d : database) (o1 o2 : option timestamp) :
  Sql.newest d o1 -> Sql.newest d o2 -> o1 = o2.
Proof.
  destruct o1 as [m1|], o2 as [m2|]; simpl; try reflexivity.
  - intros [(r1 & I1 & E1) L1] [(r2 & I2 & E2) L2].
    f_equal. specialize (L1 r2 m2 I2 E2). specialize (L2 r1 m1 I1 E1). lia.
  - intros [(r1 & I1 & E1) _] H2. rewrite (H2 r1 I1) in E1; discriminate.
  - intros H1 [(r2 & I2 & E2) _]. rewrite (H1 r2 I2) in E2; discriminate.
Qed.

Lemma Qlt_bool_inject (a b : Z) :
  Qlt_bool (inject_Z a) (b # 1000000) = true <-> a * 1000000 < b.
Proof.
  unfold Qlt_bool. rewrite negb_true_iff.
  split.
  - intros H. destruct (Z_lt_le_dec (a * 1000000) b) as [Hlt|Hge]; [exact Hlt|].
    assert (Hle : Qle_bool (b # 1000000) (inject_Z a) = true).
    { apply Qle_bool_iff. unfold Qle; simpl. lia. }
    congruence.
  - intros H. destruct (Qle_bool (b # 1000000) (inject_Z a)) eqn:E; [|reflexivity].
    apply Qle_bool_iff in E. unfold Qle in E; simpl in E. lia.
Qed.

(** C9: [needs_update] answers true exactly when the store file does
    not exist, or no row of statistics carries a timestamp (in
    particular when the table has no rows), or the newest timestamp lies
    more than [max_age_hours] hours (3600 seconds each, a second being
    1000000 microseconds) before the current time; in every other case
    it answers false. *)
Theorem needs_update_spec (store : option database) (now : timestamp)
    (max_age_hours : Z) :
  (DatabaseManager.needs_update store now max_age_hours = true <->
     store = None
     \/ (exists d, store = Some d /\ Sql.newest d None)
     \/ (exists d m, store = Some d /\ Sql.newest d (Some m)
                     /\ max_age_hours * 3600 * 1000000 < now - m))
  /\ (forall d, store = Some d -> quarterback_stats d = [] ->
                DatabaseManager.needs_update store now max_age_hours = true).
Proof.
  split.
  - unfold DatabaseManager.needs_update.
    destruct store as [d|]; [|split; auto].
    pose proof (select_max_newest d) as Hnew.
    destruct (Sql.select_max_last_updated d) as [m|].
    + rewrite Qlt_bool_inject. split.
      * intros H. right; right. exists d, m. auto.
      * intros [H|[(d' & H & H')|(d' & m' & H & H' & Hlt)]].
        -- discriminate.
        -- injection H as <-.
           pose proof (newest_unique _ _ _ Hnew H'); discriminate.
        -- injection H as <-.
           pose proof (newest_unique _ _ _ Hnew H') as E; injection E as <-.
           exact Hlt.
    + split; [|reflexivity]. intros _. right; left. exists d; auto.
  - intros d -> Hrows. unfold DatabaseManager.needs_update,
      Sql.select_max_last_updated. rewrite Hrows; reflexivity.
Qed.

End Store.

(** ** Derived metrics *)

Section Metrics.

Lemma is_num_num_of (v : pyval) :
  is_num v = true -> exists x, num_of v = Some x.
Proof. destruct v; simpl; intros H; [eauto|eauto|discriminate H]. Qed.

Lemma py_gt_zero (v : pyval) (x : Q) :
  num_of v = Some x -> py_gt v (PInt 0) = Ok (Qlt_bool 0 x).
Proof. destruct v; simpl; intros H; inversion H; subst; reflexivity. Qed.

Lemma Qlt_bool_iff (a b : Q) : Qlt_bool a b = true <-> (a < b)%Q.
Proof.
  unfold Qlt_bool; rewrite negb_true_iff; split.
  - intros H. apply Qnot_le_lt. intros Hle.
    apply Qle_bool_iff in Hle. congruence.
  - intros H. destruct (Qle_bool b a) eqn:E; [|reflexivity].
    apply Qle_bool_iff in E. exfalso. exact (Qlt_not_le _ _ H E).
Qed.

Lemma float_of_int_cases (z : Z) :
  float_of_int z = Ok (Float64.round (inject_Z z))
  \/ float_of_int z = Raise OverflowError.
Proof.
  unfold float_of_int.
  destruct (Float64.finite (Float64.round (inject_Z z))); auto.
Qed.

Lemma float_of_int_100 : float_of_int 100 = Ok 100%Q.
Proof. vm_compute. reflexivity. Qed.

(** A positive [int] is a positive float. *)
Lemma round_int_pos (z : Z) : 0 < z -> (0 < Float64.round (inject_Z z))%Q.
Proof.
  intros H. apply round_pos.
  apply (Qle_trans _ (2 ^ 0)%Q); [apply pow2_le; lia|].
  change (2 ^ 0)%Q with (inject_Z 1). rewrite <- Zle_Qle. lia.
Qed.

(** A division whose divisor passed the test [> 0] gives a float, or
    raises [OverflowError]: it never raises [ZeroDivisionError]. *)
Lemma py_truediv_guarded (a b : pyval) (x y : Q) :
  num_of a = Some x -> num_of b = Some y -> Qlt_bool 0 y = true ->
  (exists q, py_truediv a b = Ok (PFloat q))
  \/ py_truediv a b = Raise OverflowError.
Proof.
  intros Ha Hb Hpos. apply Qlt_bool_iff in Hpos.
  destruct a as [xa|xa|], b as [yb|yb|]; try discriminate;
    cbn [num_of] in Ha, Hb; injection Ha as <-; injection Hb as <-;
    unfold py_truediv; cbn [float_of_num mbind result_bind].
  - assert (Hy : 0 < yb)
      by (change 0%Q with (inject_Z 0) in Hpos; rewrite <- Zlt_Qlt in Hpos;
          exact Hpos).
    destruct (Z.eqb_spec yb 0); [lia|].
    destruct (Float64.finite _); eauto.
  - destruct (float_of_int_cases xa) as [-> | ->]; cbn [mbind result_bind];
      [|auto].
    destruct (Qeq_bool yb 0) eqn:E; [|eauto].
    apply Qeq_bool_iff in E. rewrite E in Hpos.
    exfalso. exact (Qlt_irrefl _ Hpos).
  - assert (Hy : 0 < yb)
      by (change 0%Q with (inject_Z 0) in Hpos; rewrite <- Zlt_Qlt in Hpos;
          exact Hpos).
    destruct (float_of_int_cases yb) as [-> | ->]; cbn [mbind result_bind];
      [|auto].
    destruct (Qeq_bool (Float64.round (inject_Z yb)) 0) eqn:E; [|eauto].
    apply Qeq_bool_iff in E. pose proof (round_int_pos yb Hy) as Hr.
    rewrite E in Hr. exfalso. exact (Qlt_irrefl _ Hr).
  - destruct (Qeq_bool yb 0) eqn:E; [|eauto].
    apply Qeq_bool_iff in E. rewrite E in Hpos.
    exfalso. exact (Qlt_irrefl _ Hpos).
Qed.

(** The quotient of an [int] below [2 ^ 1023] in absolute value by a
    positive [int] is the double nearest to the quotient of the
    integers. *)
Lemma py_truediv_ints (x y : Z) :
  Z.abs x < 2 ^ 1023 -> 0 < y ->
  py_truediv (PInt x) (PInt y)
  = Ok (PFloat (Float64.round (inject_Z x / inject_Z y))).
Proof.
  intros Hx Hy. unfold py_truediv.
  destruct (Z.eqb_spec y 0); [lia|].
  rewrite round_finite; [reflexivity|].
  apply (Qle_lt_trans _ (Qabs (inject_Z x))).
  - unfold Qdiv. rewrite Qabs_Qmult, Qabs_Qinv.
    assert (H1 : (1 <= Qabs (inject_Z y))%Q).
    { rewrite Qabs_inject_Z. change 1%Q with (inject_Z 1).
      rewrite <- Zle_Qle. lia. }
    pose proof (Qabs_nonneg (inject_Z x)) as H0.
    rewrite <- (Qmult_1_r (Qabs (inject_Z x))) at 2.
    apply Qmult_le_compat_nonneg; [split; [exact H0|apply Qle_refl]|].
    split; [apply Qinv_le_0_compat; lra|].
    apply Qle_shift_inv_r; lra.
  - rewrite Qabs_inject_Z, <- pow2_Z by lia. rewrite <- Zlt_Qlt. exact Hx.
Qed.

(** With [int] operands below [2 ^ 1023] in absolute value, a guarded
    division gives a float. *)
Lemma py_truediv_moderate (a b : pyval) (x y : Q) :
  num_of a = Some x -> num_of b = Some y -> Qlt_bool 0 y = true ->
  (forall z, a = PInt z -> Z.abs z < 2 ^ 1023) ->
  (forall z, b = PInt z -> Z.abs z < 2 ^ 1023) ->
  exists q, py_truediv a b = Ok (PFloat q).
Proof.
  intros Ha Hb Hpos Hma Hmb.
  destruct (py_truediv_guarded a b x y Ha Hb Hpos) as [H|H]; [exact H|].
  exfalso. apply Qlt_bool_iff in Hpos.
  destruct a as [xa|xa|], b as [yb|yb|]; try discriminate;
    cbn [num_of] in Ha, Hb; injection Ha as <-; injection Hb as <-.
  - assert (Hy : 0 < yb)
      by (change 0%Q with (inject_Z 0) in Hpos; rewrite <- Zlt_Qlt in Hpos;
          exact Hpos).
    rewrite (py_truediv_ints xa yb (Hma xa eq_refl) Hy) in H. discriminate H.
  - unfold py_truediv in H; cbn [float_of_num mbind result_bind] in H.
    rewrite (float_of_int_moderate xa (Hma xa eq_refl)) in H.
    cbn [mbind result_bind] in H.
    destruct (Qeq_bool yb 0); discriminate H.
  - unfold py_truediv in H; cbn [float_of_num mbind result_bind] in H.
    rewrite (float_of_int_moderate yb (Hmb yb eq_refl)) in H.
    cbn [mbind result_bind] in H.
    destruct (Qeq_bool (Float64.round (inject_Z yb)) 0); discriminate H.
  - unfold py_truediv in H; cbn [float_of_num mbind result_bind] in H.
    destruct (Qeq_bool yb 0); discriminate H.
Qed.

(** The product of a float by the [int] 100. *)
Lemma py_mul_100 (r : Q) :
  py_mul (PFloat r) (PInt 100) = Ok (PFloat (Float64.round (r * 100))).
Proof.
  unfold py_mul; cbn [float_of_num mbind result_bind].
  rewrite float_of_int_100. reflexivity.
Qed.


(** [calculate_efficiency_metrics] on numeric counters, the tests
    evaluated and the dictionary built. *)
Lemma metrics_unfold (st : stats) (a c t i : Q) :
  num_of (dict_get st "attempts" (PInt 0)) = Some a ->
  num_of (dict_get st "completions" (PInt 0)) = Some c ->
  num_of (dict_get st "touchdowns" (PInt 0)) = Some t ->
  num_of (dict_get st "interceptions" (PInt 0)) = Some i ->
  Utils.calculate_efficiency_metrics st
  = (v1 ← (if Qlt_bool 0 a
           then r ← py_truediv (dict_get st "completions" (PInt 0))
                               (dict_get st "attempts" (PInt 0));
                py_mul r (PInt 100)
           else mret (PInt 0));
     v2 ← (if Qlt_bool 0 a
           then py_truediv (dict_get st "yards" (PInt 0))
                           (dict_get st "attempts" (PInt 0))
           else mret (PInt 0));
     v3 ← (if Qlt_bool 0 i
           then py_truediv (dict_get st "touchdowns" (PInt 0))
                           (dict_get st "interceptions" (PInt 0))
           else mret (if Qlt_bool 0 t
                      then dict_get st "touchdowns" (PInt 0) else PInt 0));
     v4 ← (if Qlt_bool 0 c
           then py_truediv (dict_get st "yards" (PInt 0))
                           (dict_get st "completions" (PInt 0))
           else mret (PInt 0));
     mret [ ("completion_percentage", v1); ("yards_per_attempt", v2);
            ("td_int_ratio", v3); ("yards_per_completion", v4) ]).
Proof.
  intros Ha Hc Ht Hi.
  unfold Utils.calculate_efficiency_metrics; cbv zeta.
  rewrite (py_gt_zero _ _ Ha), (py_gt_zero _ _ Hi), (py_gt_zero _ _ Hc),
          (py_gt_zero _ _ Ht).
  reflexivity.
Qed.

(** The four steps of the function on numeric counters: each gives a
    value of the expected kind, or raises [OverflowError]. *)
Lemma metrics_cases (st : stats) :
  Utils.numeric_fields st ->
  exists a c y t i,
    num_of (dict_get st "attempts" (PInt 0)) = Some a
    /\ num_of (dict_get st "completions" (PInt 0)) = Some c
    /\ num_of (dict_get st "yards" (PInt 0)) = Some y
    /\ num_of (dict_get st "touchdowns" (PInt 0)) = Some t
    /\ num_of (dict_get st "interceptions" (PInt 0)) = Some i
    /\ (Utils.calculate_efficiency_metrics st = Raise OverflowError
        \/ exists q1 q2 q3 q4,
             Utils.calculate_efficiency_metrics st
             = Ok [ ("completion_percentage",
                     if Qlt_bool 0 a then PFloat q1 else PInt 0);
                    ("yards_per_attempt",
                     if Qlt_bool 0 a then PFloat q2 else PInt 0);
                    ("td_int_ratio",
                     if Qlt_bool 0 i then PFloat q3
                     else if Qlt_bool 0 t
                          then dict_get st "touchdowns" (PInt 0) else PInt 0);
                    ("yards_per_completion",
                     if Qlt_bool 0 c then PFloat q4 else PInt 0) ]
             /\ (Qlt_bool 0 a = true ->
                 exists r,
                   py_truediv (dict_get st "completions" (PInt 0))
                              (dict_get st "attempts" (PInt 0))
                   = Ok (PFloat r)
                   /\ q1 = Float64.round (r * 100))
             /\ (Qlt_bool 0 a = true ->
                 py_truediv (dict_get st "yards" (PInt 0))
                            (dict_get st "attempts" (PInt 0))
                 = Ok (PFloat q2))
             /\ (Qlt_bool 0 i = true ->
                 py_truediv (dict_get st "touchdowns" (PInt 0))
                            (dict_get st "interceptions" (PInt 0))
                 = Ok (PFloat q3))
             /\ (Qlt_bool 0 c = true ->
                 py_truediv (dict_get st "yards" (PInt 0))
                            (dict_get st "completions" (PInt 0))
                 = Ok (PFloat q4))).
Proof.
  intros Hnum.
  destruct (is_num_num_of _ (Hnum "attempts" ltac:(simpl; tauto))) as [a Ha].
  destruct (is_num_num_of _ (Hnum "completions" ltac:(simpl; tauto))) as [c Hc].
  destruct (is_num_num_of _ (Hnum "yards" ltac:(simpl; tauto))) as [y Hy].
  destruct (is_num_num_of _ (Hnum "touchdowns" ltac:(simpl; tauto))) as [t Ht].
  destruct (is_num_num_of _ (Hnum "interceptions" ltac:(simpl; tauto))) as [i Hi].
  exists a, c, y, t, i. repeat (split; [assumption|]).
  rewrite (metrics_unfold st a c t i Ha Hc Ht Hi).
  assert (D1 : Qlt_bool 0 a = true ->
    (exists q, py_truediv (dict_get st "completions" (PInt 0))
                          (dict_get st "attempts" (PInt 0)) = Ok (PFloat q))
    \/ py_truediv (dict_get st "completions" (PInt 0))
                  (dict_get st "attempts" (PInt 0)) = Raise OverflowError)
    by (apply (py_truediv_guarded _ _ c a Hc Ha)).
  assert (D2 : Qlt_bool 0 a = true ->
    (exists q, py_truediv (dict_get st "yards" (PInt 0))
                          (dict_get st "attempts" (PInt 0)) = Ok (PFloat q))
    \/ py_truediv (dict_get st "yards" (PInt 0))
                  (dict_get st "attempts" (PInt 0)) = Raise OverflowError)
    by (apply (py_truediv_guarded _ _ y a Hy Ha)).
  assert (D3 : Qlt_bool 0 i = true ->
    (exists q, py_truediv (dict_get st "touchdowns" (PInt 0))
                          (dict_get st "interceptions" (PInt 0))
               = Ok (PFloat q))
    \/ py_truediv (dict_get st "touchdowns" (PInt 0))
                  (dict_get st "interceptions" (PInt 0)) = Raise OverflowError)
    by (apply (py_truediv_guarded _ _ t i Ht Hi)).
  assert (D4 : Qlt_bool 0 c = true ->
    (exists q, py_truediv (dict_get st "yards" (PInt 0))
                          (dict_get st "completions" (PInt 0)) = Ok (PFloat q))
    \/ py_truediv (dict_get st "yards" (PInt 0))
                  (dict_get st "completions" (PInt 0)) = Raise OverflowError)
    by (apply (py_truediv_guarded _ _ y c Hy Hc)).
  set (A := dict_get st "attempts" (PInt 0)) in *.
  set (C := dict_get st "completions" (PInt 0)) in *.
  set (Y := dict_get st "yards" (PInt 0)) in *.
  set (T := dict_get st "touchdowns" (PInt 0)) in *.
  set (I := dict_get st "interceptions" (PInt 0)) in *.
  destruct (Qlt_bool 0 a).
  - destruct (D1 eq_refl) as [[r Hr]|Hr]; rewrite Hr;
      cbn [mbind result_bind]; [|left; reflexivity].
    rewrite py_mul_100; cbn [mbind result_bind].
    destruct (D2 eq_refl) as [[q2 H2]|H2]; rewrite H2;
      cbn [mbind result_bind]; [|left; reflexivity].
    destruct (Qlt_bool 0 i).
    + destruct (D3 eq_refl) as [[q3 H3]|H3]; rewrite H3;
        cbn [mbind result_bind]; [|left; reflexivity].
      destruct (Qlt_bool 0 c).
      * destruct (D4 eq_refl) as [[q4 H4]|H4]; rewrite H4;
          cbn [mbind result_bind]; [|left; reflexivity].
        right. exists (Float64.round (r * 100)), q2, q3, q4.
        split; [reflexivity|]. repeat split; eauto.
      * right. exists (Float64.round (r * 100)), q2, q3, 0%Q.
        split; [reflexivity|]. repeat split; eauto; discriminate.
    + cbn [mbind result_bind mret result_ret].
      destruct (Qlt_bool 0 c).
      * destruct (D4 eq_refl) as [[q4 H4]|H4]; rewrite H4;
          cbn [mbind result_bind]; [|left; reflexivity].
        right. exists (Float64.round (r * 100)), q2, 0%Q, q4.
        split; [reflexivity|]. repeat split; eauto; discriminate.
      * right. exists (Float64.round (r * 100)), q2, 0%Q, 0%Q.
        split; [reflexivity|]. repeat split; eauto; discriminate.
  - cbn [mbind result_bind mret result_ret].
    destruct (Qlt_bool 0 i).
    + destruct (D3 eq_refl) as [[q3 H3]|H3]; rewrite H3;
        cbn [mbind result_bind]; [|left; reflexivity].
      destruct (Qlt_bool 0 c).
      * destruct (D4 eq_refl) as [[q4 H4]|H4]; rewrite H4;
          cbn [mbind result_bind]; [|left; reflexivity].
        right. exists 0%Q, 0%Q, q3, q4.
        split; [reflexivity|]. repeat split; eauto; discriminate.
      * right. exists 0%Q, 0%Q, q3, 0%Q.
        split; [reflexivity|]. repeat split; eauto; discriminate.
    + cbn [mbind result_bind mret result_ret].
      destruct (Qlt_bool 0 c).
      * destruct (D4 eq_refl) as [[q4 H4]|H4]; rewrite H4;
          cbn [mbind result_bind]; [|left; reflexivity].
        right. exists 0%Q, 0%Q, 0%Q, q4.
        split; [reflexivity|]. repeat split; eauto; discriminate.
      * right. exists 0%Q, 0%Q, 0%Q, 0%Q.
        split; [reflexivity|]. repeat split; eauto; discriminate.
Qed.


(** With [int] counters that are not beyond the doubles, nothing is
    raised. *)
Lemma metrics_moderate (st : stats) :
  Utils.numeric_fields st -> Utils.moderate_ints st ->
  exists metrics, Utils.calculate_efficiency_metrics st = Ok metrics.
Proof.
  intros Hnum Hmod.
  destruct (is_num_num_of _ (Hnum "attempts" ltac:(simpl; tauto))) as [a Ha].
  destruct (is_num_num_of _ (Hnum "completions" ltac:(simpl; tauto))) as [c Hc].
  destruct (is_num_num_of _ (Hnum "yards" ltac:(simpl; tauto))) as [y Hy].
  destruct (is_num_num_of _ (Hnum "touchdowns" ltac:(simpl; tauto))) as [t Ht].
  destruct (is_num_num_of _ (Hnum "interceptions" ltac:(simpl; tauto))) as [i Hi].
  rewrite (metrics_unfold st a c t i Ha Hc Ht Hi).
  pose proof (Hmod "attempts") as MA. pose proof (Hmod "completions") as MC.
  pose proof (Hmod "yards") as MY. pose proof (Hmod "touchdowns") as MT.
  pose proof (Hmod "interceptions") as MI.
  assert (D1 : Qlt_bool 0 a = true ->
    exists q, py_truediv (dict_get st "completions" (PInt 0))
                         (dict_get st "attempts" (PInt 0)) = Ok (PFloat q)).
  { intros E. apply (py_truediv_moderate _ _ c a Hc Ha E).
    - intros z Hz. apply (MC z); [simpl; tauto|exact Hz].
    - intros z Hz. apply (MA z); [simpl; tauto|exact Hz]. }
  assert (D2 : Qlt_bool 0 a = true ->
    exists q, py_truediv (dict_get st "yards" (PInt 0))
                         (dict_get st "attempts" (PInt 0)) = Ok (PFloat q)).
  { intros E. apply (py_truediv_moderate _ _ y a Hy Ha E).
    - intros z Hz. apply (MY z); [simpl; tauto|exact Hz].
    - intros z Hz. apply (MA z); [simpl; tauto|exact Hz]. }
  assert (D3 : Qlt_bool 0 i = true ->
    exists q, py_truediv (dict_get st "touchdowns" (PInt 0))
                         (dict_get st "interceptions" (PInt 0))
              = Ok (PFloat q)).
  { intros E. apply (py_truediv_moderate _ _ t i Ht Hi E).
    - intros z Hz. apply (MT z); [simpl; tauto|exact Hz].
    - intros z Hz. apply (MI z); [simpl; tauto|exact Hz]. }
  assert (D4 : Qlt_bool 0 c = true ->
    exists q, py_truediv (dict_get st "yards" (PInt 0))
                         (dict_get st "completions" (PInt 0)) = Ok (PFloat q)).
  { intros E. apply (py_truediv_moderate _ _ y c Hy Hc E).
    - intros z Hz. apply (MY z); [simpl; tauto|exact Hz].
    - intros z Hz. apply (MC z); [simpl; tauto|exact Hz]. }
  destruct (Qlt_bool 0 a);
    [destruct (D1 eq_refl) as [r ->]; cbn [mbind result_bind];
     rewrite py_mul_100; destruct (D2 eq_refl) as [q2 ->]|];
    cbn [mbind result_bind mret result_ret];
    (destruct (Qlt_bool 0 i); [destruct (D3 eq_refl) as [q3 ->]|]);
    cbn [mbind result_bind mret result_ret];
    (destruct (Qlt_bool 0 c); [destruct (D4 eq_refl) as [q4 ->]|]);
    cbn [mbind result_bind mret result_ret];
    eexists; reflexivity.
Qed.

Lemma int_counters_numeric (st : stats) :
  Utils.int_counters st -> Utils.numeric_fields st.
Proof. intros H k Hk. destruct (H k Hk) as (z & -> & _). reflexivity. Qed.

Lemma int_counters_moderate (st : stats) :
  Utils.int_counters st -> Utils.moderate_ints st.
Proof.
  intros H k z Hk Hz. destruct (H k Hk) as (z' & E & Hlo & Hhi).
  rewrite E in Hz. injection Hz as <-.
  assert ((2 ^ 1000 < 2 ^ 1023)%Z) by (apply Z.pow_lt_mono_r; lia).
  lia.
Qed.


Lemma mahomes_int_counters : Utils.int_counters (snd HybridQBScraper.mahomes).
Proof.
  intros k Hk; simpl in Hk.
  repeat (destruct Hk as [<-|Hk];
          [eexists; split; [vm_compute; reflexivity|];
           split; [lia|apply Z.ltb_lt; vm_compute; reflexivity]|]).
  destruct Hk.
Qed.




End Metrics.

(** ** Numeric extraction from a table cell *)

Section Extraction.

Import ESPNQBScraper.

Lemma weight_0 : (weight 0 == 1)%Q.
Proof. reflexivity. Qed.

Lemma weight_S (k : nat) : (weight (S k) == 10 * weight k)%Q.
Proof.
  unfold weight. rewrite Nat2N.inj_succ, N.pow_succ_r', N2Z.inj_mul, inject_Z_mult.
  reflexivity.
Qed.

Lemma weight_pos (k : nat) : (0 < weight k)%Q.
Proof.
  unfold weight. change 0%Q with (inject_Z 0). rewrite <- Zlt_Qlt.
  change 0%Z with (Z.of_N 0). apply N2Z.inj_lt.
  apply N.neq_0_lt_0, N.pow_nonzero. discriminate.
Qed.

Lemma weight_nonzero (k : nat) : ~ (weight k == 0)%Q.
Proof.
  intros E. pose proof (weight_pos k) as H. rewrite E in H.
  exact (Qlt_irrefl _ H).
Qed.

(** Reading digits from an accumulator shifts the accumulator left by
    the number of digits read. *)
Lemma read_shift (l : list ascii) :
  forall a : Q,
    (fold_left read_digit l a == a * weight (length l) + fold_left read_digit l 0)%Q.
Proof.
  induction l as [|c l IH]; intros a; simpl.
  - rewrite weight_0. ring.
  - rewrite (IH (read_digit a c)), (IH (read_digit 0 c)), weight_S.
    unfold read_digit. ring.
Qed.

Lemma read_proper (l : list ascii) (a a' : Q) :
  (a == a')%Q -> (fold_left read_digit l a == fold_left read_digit l a')%Q.
Proof.
  intros E. rewrite (read_shift l a), (read_shift l a'), E. reflexivity.
Qed.

(** [digits_value] succeeds exactly on runs of ASCII digits, and then
    computes the left-to-right reading. *)
Lemma digits_value_reads (s : string) :
  forall acc n,
    digits_value acc s = Some n ->
    Str.forallb Str.is_ascii_digit s = true
    /\ (inject_Z (Z.of_N n)
        == fold_left read_digit (list_ascii_of_string s) (inject_Z (Z.of_N acc)))%Q.
Proof.
  induction s as [|c s IH]; intros acc n; simpl.
  - intros H; injection H as <-. split; reflexivity.
  - destruct (Str.is_ascii_digit c); [|discriminate].
    intros H. destruct (IH _ _ H) as [Hall Hval]. split; [exact Hall|].
    rewrite Hval. apply read_proper.
    rewrite N2Z.inj_add, N2Z.inj_mul, inject_Z_plus, inject_Z_mult.
    unfold read_digit, digit_of. reflexivity.
Qed.

Lemma digits_value_total (s : string) :
  forall acc,
    Str.forallb Str.is_ascii_digit s = true ->
    exists n, digits_value acc s = Some n.
Proof.
  induction s as [|c s IH]; intros acc; simpl; [eauto|].
  destruct (Str.is_ascii_digit c); [|discriminate].
  intros H; apply IH; exact H.
Qed.

Lemma digits_value_none (s : string) (acc : N) :
  Str.forallb Str.is_ascii_digit s = false -> digits_value acc s = None.
Proof.
  intros H. destruct (digits_value acc s) as [n|] eqn:E; [|reflexivity].
  apply digits_value_reads in E. destruct E as [E _]; congruence.
Qed.

(** The left-to-right reading of the digits after the point, divided by
    their weight, is the sum of the digits weighted by the negative
    powers of ten. *)
Lemma frac_part_reads (l : list ascii) :
  (fold_left read_digit l 0 / weight (length l) == frac_part l)%Q.
Proof.
  induction l as [|c l IH]; simpl.
  - unfold Qdiv. ring.
  - fold (frac_part l). rewrite <- IH.
    rewrite (read_shift l (read_digit 0 c)), weight_S. unfold read_digit.
    field. apply weight_nonzero.
Qed.

Lemma int_part_reads (l : list ascii) :
  (fold_left read_digit l 0 == int_part l)%Q.
Proof.
  induction l as [|c l IH]; simpl; [reflexivity|].
  rewrite (read_shift l (read_digit 0 c)), IH.
  unfold read_digit, digit_of. ring.
Qed.

Lemma length_list_ascii (s : string) :
  length (list_ascii_of_string s) = String.length s.
Proof. induction s; simpl; congruence. Qed.

(** [float] against the specification's reading of a numeral: it
    returns the double nearest to the number formed when there is one,
    and raises [ValueError] when there is none. *)
Lemma float_refines_number_formed (s : string) :
  match number_formed s with
  | Some n => float s = Ok (Float64.round n)
  | None => float s = Raise ValueError
  end.
Proof.
  unfold number_formed, float.
  destruct (split_dot s) as [ip fp0]. cbv zeta.
  set (fp := default EmptyString fp0).
  destruct (Str.forallb Str.is_ascii_digit ip) eqn:Hip; simpl.
  - destruct (Str.forallb Str.is_ascii_digit fp) eqn:Hfp; simpl.
    + destruct (digits_value_total ip 0%N Hip) as [i Hi].
      destruct (digits_value_total fp 0%N Hfp) as [f Hf].
      rewrite Hi, Hf.
      destruct (nonempty ip || nonempty fp) eqn:Hne.
      * replace (negb (nonempty ip) && negb (nonempty fp)) with false
          by (destruct (nonempty ip), (nonempty fp); simpl in *; congruence).
        f_equal. apply round_proper.
        apply digits_value_reads in Hi, Hf.
        destruct Hi as [_ Hi], Hf as [_ Hf].
        rewrite <- frac_part_reads, length_list_ascii.
        rewrite <- int_part_reads.
        change (inject_Z (Z.of_N 0)) with 0%Q in Hi, Hf.
        rewrite <- Hi, <- Hf.
        rewrite N2Z.inj_add, N2Z.inj_mul, inject_Z_plus, inject_Z_mult.
        fold (weight (String.length fp)).
        field. apply weight_nonzero.
      * replace (negb (nonempty ip) && negb (nonempty fp)) with true
          by (destruct (nonempty ip), (nonempty fp); simpl in *; congruence).
        reflexivity.
    + rewrite (digits_value_none fp 0%N Hfp).
      destruct (negb (nonempty ip) && negb (nonempty fp)); [reflexivity|].
      destruct (digits_value 0 ip); reflexivity.
  - rewrite (digits_value_none ip 0%N Hip).
    destruct (negb (nonempty ip) && negb (nonempty fp)); reflexivity.
Qed.

Lemma float_nonneg (s : string) (v : Q) : float s = Ok v -> (0 <= v)%Q.
Proof.
  unfold float. destruct (split_dot s) as [ip fp0]. cbv zeta.
  destruct (negb (nonempty ip) && negb (nonempty (default EmptyString fp0)));
    [discriminate|].
  destruct (digits_value 0 ip) as [i|]; [|discriminate].
  destruct (digits_value 0 (default EmptyString fp0)) as [f|]; [|discriminate].
  intros H; injection H as <-.
  apply round_nonneg.
  apply Qle_shift_div_l.
  - change 0%Q with (inject_Z 0). rewrite <- Zlt_Qlt.
    change 0%Z with (Z.of_N 0). apply N2Z.inj_lt.
    apply N.neq_0_lt_0, N.pow_nonzero. discriminate.
  - rewrite Qmult_0_l. change 0%Q with (inject_Z 0). rewrite <- Zle_Qle.
    apply N2Z.is_nonneg.
Qed.

Lemma float_raises_only_ValueError (s : string) (e : exn) :
  float s = Raise e -> e = ValueError.
Proof.
  unfold float. destruct (split_dot s) as [ip fp0]. cbv zeta.
  destruct (negb (nonempty ip) && negb (nonempty (default EmptyString fp0)));
    [congruence|].
  destruct (digits_value 0 ip); [|congruence].
  destruct (digits_value 0 (default EmptyString fp0)); congruence.
Qed.

(** [_extract_number] returns on every cell: what it returns is zero or
    what [float] made of the kept characters. *)
Lemma extract_number_cases (cell : option tag) :
  _extract_number cell = Ok 0%Q
  \/ exists v, float (cleaned_of cell) = Ok v /\ _extract_number cell = Ok v.
Proof.
  destruct cell as [c|]; [|left; reflexivity].
  unfold _extract_number, cleaned_of.
  destruct (negb (nonempty (get_text_strip c))
            || String.eqb (get_text_strip c) "-"); [left; reflexivity|].
  destruct (nonempty (Str.filter keep (get_text_strip c)));
    [|left; reflexivity].
  destruct (float (Str.filter keep (get_text_strip c))) as [v|e] eqn:E.
  - right; exists v; split; reflexivity.
  - left. rewrite (float_raises_only_ValueError _ _ E). reflexivity.
Qed.

(** C10: on every table cell [_extract_number] returns a float that is
    not negative; the minus sign is not among the characters it keeps,
    so that the cell "-5" is read as 5.0. *)
Theorem extract_number_nonnegative :
  (forall cell : option tag,
      exists v, _extract_number cell = Ok v /\ (0 <= v)%Q)
  /\ keep "-"%char = false
  /\ _extract_number (cell_of "-5") = Ok 5%Q.
Proof.
  split; [|split; vm_compute; reflexivity].
  intros cell.
  destruct (extract_number_cases cell) as [H|(v & Hv & H)]; rewrite H.
  - exists 0%Q; split; [reflexivity|apply Qle_refl].
  - exists v; split; [reflexivity|exact (float_nonneg _ _ Hv)].
Qed.

(** *** The two clauses of the specification *)

Lemma ascii_digit_isdigit (c : ascii) :
  Str.is_ascii_digit c = true -> Str.isdigit c = true.
Proof.
  unfold Str.is_ascii_digit, Str.isdigit. intros ->. reflexivity.
Qed.

Lemma existsb_filter_keep (text : string) :
  Str.existsb Str.isdigit (Str.filter keep text)
  = Str.existsb Str.isdigit text.
Proof.
  induction text as [|c text IH]; simpl; [reflexivity|].
  unfold keep at 1. destruct (Str.isdigit c) eqn:Hc; simpl.
  - rewrite Hc; reflexivity.
  - destruct (Ascii.eqb c "."); simpl; [rewrite Hc; simpl|]; exact IH.
Qed.

Lemma existsb_nonempty (p : ascii -> bool) (s : string) :
  Str.existsb p s = true -> nonempty s = true.
Proof. destruct s; simpl; [discriminate|reflexivity]. Qed.

Lemma forallb_nonempty_existsb (s : string) :
  Str.forallb Str.is_ascii_digit s = true -> nonempty s = true ->
  Str.existsb Str.isdigit s = true.
Proof.
  destruct s as [|c s]; simpl; [discriminate|].
  intros H _. apply andb_true_iff in H. destruct H as [H _].
  rewrite (ascii_digit_isdigit _ H). reflexivity.
Qed.

Lemma split_dot_existsb (s : string) :
  Str.existsb Str.isdigit s
  = Str.existsb Str.isdigit (fst (split_dot s))
    || Str.existsb Str.isdigit (default EmptyString (snd (split_dot s))).
Proof.
  induction s as [|c s IH]; simpl; [reflexivity|].
  destruct (Ascii.eqb_spec c ".") as [->|Hc]; simpl.
  - reflexivity.
  - destruct (split_dot s) as [a b]; simpl in *.
    rewrite IH, orb_assoc. reflexivity.
Qed.

(** A string in which a number can be read has a digit. *)
Lemma number_formed_has_digit (s : string) (n : Q) :
  number_formed s = Some n -> Str.existsb Str.isdigit s = true.
Proof.
  unfold number_formed. rewrite (split_dot_existsb s).
  destruct (split_dot s) as [ip fp0]; simpl.
  destruct (Str.forallb Str.is_ascii_digit ip) eqn:Hip; simpl; [|discriminate].
  destruct (Str.forallb Str.is_ascii_digit (default EmptyString fp0)) eqn:Hfp;
    simpl; [|discriminate].
  destruct (nonempty ip) eqn:Nip; simpl.
  - intros _. rewrite (forallb_nonempty_existsb ip Hip Nip). reflexivity.
  - destruct (nonempty (default EmptyString fp0)) eqn:Nfp; [|discriminate].
    intros _. rewrite (forallb_nonempty_existsb _ Hfp Nfp).
    apply orb_true_r.
Qed.

Lemma digit_of_nonneg (c : ascii) : (0 <= digit_of c)%Q.
Proof.
  unfold digit_of. change 0%Q with (inject_Z 0). rewrite <- Zle_Qle.
  apply N2Z.is_nonneg.
Qed.

Lemma int_part_nonneg (l : list ascii) : (0 <= int_part l)%Q.
Proof.
  induction l as [|c l IH]; simpl; [apply Qle_refl|].
  pose proof (Qmult_le_0_compat _ _ (digit_of_nonneg c)
                (Qlt_le_weak _ _ (weight_pos (length l)))) as H.
  lra.
Qed.

Lemma frac_part_nonneg (l : list ascii) : (0 <= frac_part l)%Q.
Proof.
  induction l as [|c l IH]; simpl; [apply Qle_refl|].
  fold (frac_part l).
  apply Qle_shift_div_l; [reflexivity|].
  pose proof (digit_of_nonneg c). lra.
Qed.

(** The number formed is not negative. *)
Lemma number_formed_nonneg (s : string) (n : Q) :
  number_formed s = Some n -> (0 <= n)%Q.
Proof.
  unfold number_formed. destruct (split_dot s) as [ip fp0].
  destruct (_ && _); [|discriminate].
  intros H; injection H as <-.
  pose proof (int_part_nonneg (list_ascii_of_string ip)).
  pose proof (frac_part_nonneg
                (list_ascii_of_string (default EmptyString fp0))).
  lra.
Qed.

(** C6, as the specification states it, does not hold.  The cell "1.2.3"
    has digits, yet its digit and decimal-point characters form no
    number, and the function returns zero for it.  And where they form
    a number, what is returned is a float: for the cell "0.1" it is the
    double nearest to one tenth and not one tenth. *)
Lemma extraction_not_as_specified :
  blank (cell_of "1.2.3") = false
  /\ _extract_number (cell_of "1.2.3") = Ok 0%Q
  /\ ~ extraction_as_specified (cell_of "1.2.3")
  /\ ~ extraction_as_specified (cell_of "0.1").
Proof.
  split; [vm_compute; reflexivity|].
  split; [vm_compute; reflexivity|].
  split.
  - intros [_ H].
    destruct (H ltac:(vm_compute; reflexivity)) as (v & n & _ & Hn & _).
    vm_compute in Hn. discriminate Hn.
  - intros [_ H].
    destruct (H ltac:(vm_compute; reflexivity)) as (v & n & Hv & Hn & E).
    vm_compute in Hv. injection Hv as <-.
    vm_compute in Hn. injection Hn as <-.
    vm_compute in E. discriminate E.
Qed.

(** C6 (amended): numeric extraction never raises.  For every cell whose
    text is empty, a dash, or without any digit it returns zero.  For
    every other cell it returns zero when the cell's digit and
    decimal-point characters do not form a numeral (decimal digits
    around at most one point); when they do, it returns the double
    nearest to the number formed, which is off that number by at most
    [2 ^ -53] of it (and [2 ^ -1075]), as long as that double is
    finite; beyond the doubles the result is no finite number. *)
Theorem extract_number_fail_soft (cell : option tag) :
  exists v,
    _extract_number cell = Ok v
    /\ (blank cell = true -> (v == 0)%Q)
    /\ (blank cell = false ->
        match number_formed (cleaned_of cell) with
        | Some n =>
            if Float64.finite (Float64.round n)
            then v = Float64.round n
                 /\ (Qabs (v - n) <= 2 ^ (-53) * n + 2 ^ (-1075))%Q
            else Float64.finite v = false
        | None => (v == 0)%Q
        end).
Proof.
  destruct cell as [c|];
    [|exists 0%Q; split; [reflexivity|];
      split; [intros _; reflexivity|discriminate]].
  unfold _extract_number, blank, cleaned_of.
  set (text := get_text_strip c).
  destruct (negb (nonempty text) || String.eqb text "-") eqn:Hguard.
  { exists 0%Q. split; [reflexivity|].
    split; [intros _; reflexivity|discriminate]. }
  cbn [orb].
  pose proof (float_refines_number_formed (Str.filter keep text)) as Href.
  destruct (Str.existsb Str.isdigit text) eqn:Hdig; cbn [negb].
  - (* the text has a digit *)
    rewrite <- existsb_filter_keep in Hdig.
    rewrite (existsb_nonempty _ _ Hdig).
    destruct (number_formed (Str.filter keep text)) as [n|] eqn:Hn.
    + rewrite Href. exists (Float64.round n).
      split; [reflexivity|]. split; [discriminate|]. intros _.
      destruct (Float64.finite (Float64.round n)); [|reflexivity].
      split; [reflexivity|].
      apply round_close. exact (number_formed_nonneg _ _ Hn).
    + rewrite Href. exists 0%Q.
      split; [reflexivity|]. split; [discriminate|]. reflexivity.
  - (* no digit at all *)
    exists 0%Q. split; [|split; [intros _; reflexivity|discriminate]].
    destruct (nonempty (Str.filter keep text)); [|reflexivity].
    destruct (number_formed (Str.filter keep text)) as [n|] eqn:Hn.
    + apply number_formed_has_digit in Hn.
      rewrite existsb_filter_keep in Hn. congruence.
    + rewrite Href. reflexivity.
Qed.

End Extraction.

(** ** Ranking *)

Section Ranking.

Import QuarterbackComparer.

(** *** The order on values *)

Lemma string_leb_trans (a b c : string) :
  String.leb a b = true -> String.leb b c = true -> String.leb a c = true.
Proof.
  unfold String.leb. revert b c.
  induction a as [|x a IH]; intros [|y b] [|z c]; cbn [String.compare];
    try (intros; reflexivity); try (intros; discriminate).
  unfold Ascii.compare.
  destruct (N.compare_spec (N_of_ascii x) (N_of_ascii y)) as [Exy|Lxy|Gxy];
    destruct (N.compare_spec (N_of_ascii y) (N_of_ascii z)) as [Eyz|Lyz|Gyz];
    destruct (N.compare_spec (N_of_ascii x) (N_of_ascii z)) as [Exz|Lxz|Gxz];
    try (intros; reflexivity); try (intros; discriminate);
    try (exfalso; lia).
  apply IH.
Qed.

Lemma value_ge_trans (a b c : pyval) :
  value_ge a b -> value_ge b c -> value_ge a c.
Proof.
  destruct a, b, c; simpl; try tauto;
    try (intros H1 H2; exact (Qle_trans _ _ _ H2 H1)).
  intros H1 H2. exact (string_leb_trans _ _ _ H2 H1).
Qed.

Lemma Qle_bool_false (x y : Q) : Qle_bool y x = false -> (x <= y)%Q.
Proof.
  intros H. apply Qlt_le_weak, Qnot_le_lt. intros Hle.
  apply Qle_bool_iff in Hle. congruence.
Qed.

(** On two values of one kind, [key_ge] decides [value_ge], and one of
    the two values is at least the other. *)
Lemma key_ge_true (a b : pyval) :
  is_num a = is_num b -> key_ge a b = true -> value_ge a b.
Proof.
  destruct a, b; simpl; try discriminate; intros _;
    unfold key_ge, py_gt, Qlt_bool; simpl.
  1-4: match goal with |- context [Qle_bool ?y ?x] =>
         destruct (Qle_bool y x) eqn:E; simpl;
         [intros _; apply Qle_bool_iff; exact E | discriminate]
       end.
  unfold String.ltb, String.leb. rewrite (String.compare_antisym s0 s).
  destruct (String.compare s s0); simpl; congruence.
Qed.

Lemma key_ge_false (a b : pyval) :
  is_num a = is_num b -> key_ge a b = false -> value_ge b a.
Proof.
  destruct a, b; simpl; try discriminate; intros _;
    unfold key_ge, py_gt, Qlt_bool; simpl.
  1-4: match goal with |- context [Qle_bool ?y ?x] =>
         destruct (Qle_bool y x) eqn:E; simpl;
         [discriminate | intros _; apply Qle_bool_false; exact E]
       end.
  unfold String.ltb, String.leb.
  destruct (String.compare s s0); simpl; congruence.
Qed.

(** *** The stable insertion sort *)

Section Sort.

Variable stat : string.

Lemma insert_desc_length (x : string * stats) (l : mapping) :
  length (insert_desc (stat_key stat) x l) = S (length l).
Proof.
  induction l as [|y l IH]; simpl; [reflexivity|].
  destruct (key_ge (stat_key stat x) (stat_key stat y)); simpl; congruence.
Qed.

Lemma sort_length (l : mapping) :
  length (fold_right (insert_desc (stat_key stat)) [] l) = length l.
Proof.
  induction l as [|x l IH]; simpl; [reflexivity|].
  rewrite insert_desc_length, IH. reflexivity.
Qed.

Lemma insert_desc_perm (x : string * stats) (l : mapping) :
  Permutation (insert_desc (stat_key stat) x l) (x :: l).
Proof.
  induction l as [|y l IH]; simpl; [reflexivity|].
  destruct (key_ge (stat_key stat x) (stat_key stat y)); [reflexivity|].
  rewrite IH. apply perm_swap.
Qed.

Lemma sort_perm (l : mapping) :
  Permutation (fold_right (insert_desc (stat_key stat)) [] l) l.
Proof.
  induction l as [|x l IH]; simpl; [reflexivity|].
  rewrite insert_desc_perm, IH. reflexivity.
Qed.

Lemma insert_desc_sorted (k : bool) (x : string * stats)
    (l : mapping) :
  is_num (stat_key stat x) = k ->
  Forall (fun a => is_num (stat_key stat a) = k) l ->
  Sorted (ge_by stat) l -> Sorted (ge_by stat) (insert_desc (stat_key stat) x l).
Proof.
  intros Hx Hl Hs.
  induction l as [|y l IH]; simpl.
  - repeat constructor.
  - apply Forall_cons in Hl. destruct Hl as [Hy Hl].
    destruct (key_ge (stat_key stat x) (stat_key stat y)) eqn:E.
    + constructor; [exact Hs|]. constructor.
      apply key_ge_true; [congruence|exact E].
    + apply Sorted_inv in Hs. destruct Hs as [Hs Hhd].
      constructor; [exact (IH Hl Hs)|].
      assert (Hyx : ge_by stat y x) by (apply key_ge_false; [congruence|exact E]).
      destruct l as [|z l]; simpl.
      * constructor; exact Hyx.
      * destruct (key_ge (stat_key stat x) (stat_key stat z)); constructor;
          [exact Hyx | inversion Hhd; assumption].
Qed.

Lemma sort_sorted (k : bool) (l : mapping) :
  Forall (fun a => is_num (stat_key stat a) = k) l ->
  Sorted (ge_by stat) (fold_right (insert_desc (stat_key stat)) [] l).
Proof.
  induction l as [|x l IH]; simpl; intros Hl; [constructor|].
  apply Forall_cons in Hl. destruct Hl as [Hx Hl].
  apply (insert_desc_sorted k); [exact Hx| |exact (IH Hl)].
  rewrite List.Forall_forall in *. intros a Ha. apply Hl.
  exact (Permutation_in _ (sort_perm l) Ha).
Qed.

Lemma homogeneous_kind (l : mapping) :
  homogeneous (map (stat_key stat) l) = true ->
  exists k, Forall (fun a => is_num (stat_key stat a) = k) l.
Proof.
  unfold homogeneous. intros H. apply orb_true_iff in H.
  destruct H as [H|H]; [exists true|exists false];
    rewrite List.forallb_forall in H; apply List.Forall_forall;
    intros a Ha; specialize (H (stat_key stat a) (in_map (stat_key stat) l a Ha));
    [exact H | destruct (stat_key stat a); simpl in *; congruence].
Qed.

Lemma strongly_sorted_firstn (n : nat) (l : mapping) :
  StronglySorted (ge_by stat) l -> StronglySorted (ge_by stat) (firstn n l).
Proof.
  revert n. induction l as [|x l IH]; intros [|n] Hs; simpl;
    try constructor.
  - apply IH. inversion Hs; assumption.
  - inversion Hs as [|? ? _ Hall]; subst.
    apply Forall_take. exact Hall.
Qed.

Lemma sorted_desc_descending (l : mapping) :
  homogeneous (map (stat_key stat) l) = true ->
  exists s,
    sorted_desc (stat_key stat) l = Ok s
    /\ StronglySorted (ge_by stat) s /\ Permutation s l.
Proof.
  intros H. unfold sorted_desc. rewrite H.
  eexists; split; [reflexivity|]. split; [|apply sort_perm].
  destruct (homogeneous_kind l H) as [k Hk].
  apply Sorted_StronglySorted.
  - intros a b c. unfold ge_by. apply value_ge_trans.
  - exact (sort_sorted k l Hk).
Qed.

End Sort.

Lemma slice_to_length {A} (limit : Z) (l : list A) :
  Z.of_nat (length (slice_to limit l))
  = if (0 <=? limit)%Z then Z.min limit (Z.of_nat (length l))
    else Z.max 0 (Z.of_nat (length l) + limit).
Proof.
  unfold slice_to. destruct (Z.leb_spec 0 limit); rewrite length_firstn; lia.
Qed.

(** *** [get_top_qbs] *)

(** C8, as the specification states it, does not hold for every limit
    and every mapping.  With the limit -1 the slice drops the last
    entry: over the ten demo players the function returns nine entries,
    not min(-1, 10).  And over a mapping in which one player has a team
    and another has none, ranking by ['team'] compares a string with the
    default 0 and raises [TypeError] instead of returning a sequence. *)
Lemma top_qbs_not_for_every_input :
  (exists top,
      get_top_qbs {| qb_data := get_demo_data |} "yards" (-1) = Ok top
      /\ length top = 9%nat)
  /\ ~ (exists top,
           get_top_qbs {| qb_data := get_demo_data |} "yards" (-1) = Ok top
           /\ Z.of_nat (length top)
              = Z.min (-1) (Z.of_nat (length get_demo_data)))
  /\ get_top_qbs {| qb_data := one_without_team |} "team" 5 = Raise TypeError.
Proof.
  split; [|split].
  - destruct (get_top_qbs {| qb_data := get_demo_data |} "yards" (-1))
      as [top|e] eqn:H; vm_compute in H; [|discriminate H].
    injection H as <-. eexists; split; reflexivity.
  - intros (top & _ & Hlen).
    pose proof (Nat2Z.is_nonneg (length top)) as Hpos.
    rewrite Hlen in Hpos. vm_compute in Hpos. apply Hpos. reflexivity.
  - vm_compute. reflexivity.
Qed.

(** C8 (amended): for every in-memory mapping whose values under the
    stat key (0 where the key is absent) are all numbers or all strings,
    and for every limit N, [get_top_qbs] returns a sequence of entries of
    the mapping, each occurring at most as often as in the mapping, that
    is sorted in descending order of the stat's value; its length is
    min(N, number of players) when N >= 0, and max(0, number of players
    + N) when N < 0. *)
Theorem get_top_qbs_descending (self : QuarterbackComparer.t)
    (stat : string) (limit : Z) :
  homogeneous (map (stat_key stat) (qb_data self)) = true ->
  exists top,
    get_top_qbs self stat limit = Ok top
    /\ descending stat top
    /\ (exists rest, Permutation (top ++ rest) (qb_data self))
    /\ (0 <= limit ->
        Z.of_nat (length top)
        = Z.min limit (Z.of_nat (length (qb_data self))))
    /\ (limit < 0 ->
        Z.of_nat (length top)
        = Z.max 0 (Z.of_nat (length (qb_data self)) + limit)).
Proof.
  intros Hhom. unfold get_top_qbs.
  destruct (qb_data self) as [|p rest] eqn:Hdata; cbn [mapping_truthy negb].
  - exists []. split; [reflexivity|]. split; [constructor|].
    split; [exists []; reflexivity|]. simpl. split; lia.
  - destruct (sorted_desc_descending stat (p :: rest) Hhom)
      as (s & -> & Hsorted & Hperm).
    cbn [mbind result_bind mret result_ret].
    eexists; split; [reflexivity|].
    assert (Hcut : exists n, slice_to limit s = firstn n s).
    { unfold slice_to. destruct (0 <=? limit)%Z; eauto. }
    destruct Hcut as [n Hcut].
    split; [|split].
    + unfold descending. rewrite Hcut.
      apply strongly_sorted_firstn. exact Hsorted.
    + exists (skipn n s). rewrite Hcut, firstn_skipn. exact Hperm.
    + rewrite slice_to_length, (Permutation_length Hperm).
      split; intros Hl.
      * destruct (Z.leb_spec 0 limit); [reflexivity|lia].
      * destruct (Z.leb_spec 0 limit); [lia|reflexivity].
Qed.

Lemma get_top_qbs_descending_witness :
  homogeneous (map (stat_key "yards") get_demo_data) = true
  /\ exists top,
    get_top_qbs {| qb_data := get_demo_data |} "yards" 3 = Ok top
    /\ descending "yards" top
    /\ (exists rest, Permutation (top ++ rest) get_demo_data)
    /\ (0 <= 3 ->
        Z.of_nat (length top) = Z.min 3 (Z.of_nat (length get_demo_data)))
    /\ (3 < 0 ->
        Z.of_nat (length top)
        = Z.max 0 (Z.of_nat (length get_demo_data) + 3)).
Proof.
  split; [vm_compute; reflexivity|].
  apply (get_top_qbs_descending {| qb_data := get_demo_data |} "yards" 3).
  vm_compute; reflexivity.
Defined.

End Ranking.

(* ===================================================================== *)
(** * Part III: further properties of the embedded code                  *)
(* ===================================================================== *)

(** ** [src/compare.py]: search and head-to-head comparison *)

Section Search.

Import QuarterbackComparer.

Lemma prefix_refl (s : string) : String.prefix s s = true.
Proof.
  induction s as [|c s IH]; simpl; [reflexivity|].
  destruct (ascii_dec c c) as [_|Hne]; [exact IH|congruence].
Qed.

Lemma contains_refl (s : string) : Str.contains s s = true.
Proof.
  destruct s as [|c s]; [reflexivity|].
  cbn [Str.contains]. rewrite prefix_refl. reflexivity.
Qed.

Lemma find_in_first_match (needle : string) (items : mapping) :
  match find_in needle items with
  | Some st =>
      exists before name after,
        items = (before ++ (name, st) :: after)%list
        /\ Str.contains needle (Str.lower name) = true
        /\ Forall (fun p => Str.contains needle (Str.lower (fst p)) = false)
                  before
  | None =>
      Forall (fun p => Str.contains needle (Str.lower (fst p)) = false) items
  end.
Proof.
  induction items as [|[name st] rest IH]; simpl; [constructor|].
  destruct (Str.contains needle (Str.lower name)) eqn:Hhit.
  - exists [], name, rest. repeat split; [exact Hhit|constructor].
  - destruct (find_in needle rest) as [st'|].
    + destruct IH as (before & name' & after & -> & Hhit' & Hmiss).
      exists ((name, st) :: before), name', after.
      repeat split; [exact Hhit'|]. constructor; [exact Hhit|exact Hmiss].
    + constructor; [exact Hhit|exact IH].
Qed.

(** X1: [_find_qb] returns the stats of the first entry, in insertion
    order, whose lower-cased name contains the lower-cased search name,
    and [None] exactly when no entry does; a search name that equals a
    stored name up to letter case is therefore always found. *)
Theorem find_qb_first_match (self : QuarterbackComparer.t)
    (search_name : string) :
  match _find_qb self search_name with
  | Some st =>
      exists before name after,
        qb_data self = (before ++ (name, st) :: after)%list
        /\ Str.contains (Str.lower search_name) (Str.lower name) = true
        /\ Forall (fun p => Str.contains (Str.lower search_name)
                                         (Str.lower (fst p)) = false) before
  | None =>
      Forall (fun p => Str.contains (Str.lower search_name)
                                    (Str.lower (fst p)) = false)
             (qb_data self)
      /\ forall name st, In (name, st) (qb_data self) ->
                         Str.lower search_name <> Str.lower name
  end.
Proof.
  unfold _find_qb.
  pose proof (find_in_first_match (Str.lower search_name) (qb_data self)) as H.
  destruct (find_in (Str.lower search_name) (qb_data self)); [exact H|].
  split; [exact H|].
  intros name st Hin Heq.
  rewrite List.Forall_forall in H. specialize (H _ Hin). simpl in H.
  rewrite Heq, contains_refl in H. discriminate H.
Qed.

(** X2: [compare_stats] answers with the error dictionary exactly when
    one of the two names is not found (or is found with an empty stats
    dictionary); the message is then always the same. *)
Theorem compare_stats_error_iff (self : QuarterbackComparer.t)
    (qb1_name qb2_name : string) :
  let missing name :=
    match _find_qb self name with
    | Some st => dict_truthy st = false
    | None => True
    end in
  ((exists e, compare_stats self qb1_name qb2_name = Ok (CompareError e))
   <-> missing qb1_name \/ missing qb2_name)
  /\ (forall e, compare_stats self qb1_name qb2_name = Ok (CompareError e) ->
                e = "One or both quarterbacks not found").
Proof.
  cbv zeta. unfold compare_stats.
  destruct (_find_qb self qb1_name) as [s1|], (_find_qb self qb2_name) as [s2|];
    cbn [mret result_ret].
  - destruct (dict_truthy s1) eqn:H1, (dict_truthy s2) eqn:H2; cbn [andb].
    + destruct (compare_loop qb1_name qb2_name s1 s2 stats_columns [])
        as [cs|err]; cbn [mbind result_bind mret result_ret].
      * split; [|intros e H; discriminate H].
        split; [intros [e H]; discriminate H|intros [H|H]; discriminate H].
      * split; [|intros e H; discriminate H].
        split; [intros [e H]; discriminate H|intros [H|H]; discriminate H].
    + split; [|intros e H; injection H as <-; reflexivity].
      split; [intros _; right; reflexivity|intros _; eexists; reflexivity].
    + split; [|intros e H; injection H as <-; reflexivity].
      split; [intros _; left; reflexivity|intros _; eexists; reflexivity].
    + split; [|intros e H; injection H as <-; reflexivity].
      split; [intros _; left; reflexivity|intros _; eexists; reflexivity].
  - split; [|intros e H; injection H as <-; reflexivity].
    split; [intros _; right; exact I|intros _; eexists; reflexivity].
  - split; [|intros e H; injection H as <-; reflexivity].
    split; [intros _; left; exact I|intros _; eexists; reflexivity].
  - split; [|intros e H; injection H as <-; reflexivity].
    split; [intros _; left; exact I|intros _; eexists; reflexivity].
Qed.

End Search.

Section HeadToHead.

Import QuarterbackComparer.

Lemma string_compare_refl (s : string) : String.compare s s = Eq.
Proof.
  induction s as [|c s IH]; simpl; [reflexivity|].
  unfold Ascii.compare. rewrite N.compare_refl. exact IH.
Qed.

Lemma Qlt_bool_irrefl (x : Q) : Qlt_bool x x = false.
Proof.
  unfold Qlt_bool. apply negb_false_iff, Qle_bool_iff, Qle_refl.
Qed.

Lemma Qlt_bool_asym (x y : Q) : Qlt_bool x y = true -> Qlt_bool y x = false.
Proof.
  intros H. apply Qlt_bool_iff in H.
  unfold Qlt_bool. apply negb_false_iff, Qle_bool_iff, Qlt_le_weak, H.
Qed.

(** No value is greater than itself, whatever its kind. *)
Lemma py_gt_irrefl (v : pyval) : py_gt v v = Ok false.
Proof.
  destruct v; simpl; rewrite ?Qlt_bool_irrefl; try reflexivity.
  unfold String.ltb. rewrite string_compare_refl. reflexivity.
Qed.

(** The comparison read from the other side: it raises when the first
    raises, and two values are never each greater than the other. *)
Lemma py_gt_flip (a b : pyval) :
  match py_gt a b with
  | Ok true => py_gt b a = Ok false
  | Ok false => exists g, py_gt b a = Ok g
  | Raise e => py_gt b a = Raise e
  end.
Proof.
  destruct a as [x|x|s], b as [y|y|t]; simpl; try reflexivity;
    try match goal with |- (if ?c then _ else _) =>
          destruct c eqn:E;
          [rewrite (Qlt_bool_asym _ _ E); reflexivity | eauto]
        end.
  unfold String.ltb. rewrite (String.compare_antisym t s).
  destruct (String.compare s t); simpl; eauto.
Qed.

(** What [py_gt] answers on the two orders of two values that can be
    compared: at most one of the answers is true. *)
Lemma py_gt_both (a b : pyval) (g : bool) :
  py_gt a b = Ok g ->
  exists g', py_gt b a = Ok g' /\ (g = true -> g' = false).
Proof.
  intros H. pose proof (py_gt_flip a b) as F. rewrite H in F.
  destruct g.
  - exists false. auto.
  - destruct F as [g' F]. exists g'. split; [exact F|discriminate].
Qed.

Lemma compare_one_with_self (name : string) (st : stats) (stat : string) :
  compare_one name name st st stat
  = Ok (match dict_lookup st stat with
        | Some v => Some (stat, {| qb1_value := v; qb2_value := v;
                                   winner := "Tie"; difference := PInt 0 |})
        | None => None
        end).
Proof.
  unfold compare_one, dict_has, dict_item.
  destruct (dict_lookup st stat) as [v|]; [|reflexivity].
  cbn [andb mbind result_bind]. rewrite py_gt_irrefl. reflexivity.
Qed.

Lemma compare_loop_with_self (name : string) (st : stats) (cols : list string) :
  forall acc,
    exists cs,
      compare_loop name name st st cols acc = Ok (acc ++ cs)%list
      /\ map fst cs = List.filter (dict_has st) cols
      /\ Forall (fun e => winner (snd e) = "Tie"
                          /\ difference (snd e) = PInt 0
                          /\ qb1_value (snd e) = qb2_value (snd e)) cs.
Proof.
  induction cols as [|stat cols IH]; intros acc; simpl.
  - exists []. rewrite app_nil_r. repeat split. constructor.
  - rewrite compare_one_with_self. cbn [mbind result_bind].
    unfold dict_has. destruct (dict_lookup st stat) as [v|].
    + destruct (IH (acc ++ [(stat, {| qb1_value := v; qb2_value := v;
                                       winner := "Tie";
                                       difference := PInt 0 |})])%list)
        as (cs & Hrun & Hkeys & Hties).
      eexists (_ :: cs). rewrite Hrun, <- app_assoc. simpl.
      split; [reflexivity|]. split; [f_equal; exact Hkeys|].
      constructor; [repeat split|exact Hties].
    + destruct (IH acc) as (cs & Hrun & Hkeys & Hties).
      exists cs. auto.
Qed.

(** X3: comparing a player with themselves never raises and reports a
    tie with difference 0 on every stat of [stats_columns] the player
    has, whatever the kind of the values. *)
Theorem compare_with_self (self : QuarterbackComparer.t) (name : string)
    (st : stats) :
  _find_qb self name = Some st ->
  dict_truthy st = true ->
  exists cs,
    compare_stats self name name = Ok (Compared (name, st) (name, st) cs)
    /\ map fst cs = List.filter (dict_has st) stats_columns
    /\ Forall (fun e => winner (snd e) = "Tie"
                        /\ difference (snd e) = PInt 0
                        /\ qb1_value (snd e) = qb2_value (snd e)) cs.
Proof.
  intros Hfind Htruthy. unfold compare_stats. rewrite Hfind, Htruthy.
  cbn [andb].
  destruct (compare_loop_with_self name st stats_columns [])
    as (cs & Hrun & Hkeys & Hties).
  exists cs. rewrite Hrun. cbn [mbind result_bind mret result_ret app].
  auto.
Qed.

Lemma compare_with_self_witness :
  exists st cs,
    _find_qb {| qb_data := get_demo_data |} "mahomes" = Some st
    /\ dict_truthy st = true
    /\ compare_stats {| qb_data := get_demo_data |} "mahomes" "mahomes"
       = Ok (Compared ("mahomes", st) ("mahomes", st) cs)
    /\ map fst cs = List.filter (dict_has st) stats_columns
    /\ Forall (fun e => winner (snd e) = "Tie"
                        /\ difference (snd e) = PInt 0
                        /\ qb1_value (snd e) = qb2_value (snd e)) cs.
Proof.
  exists (snd HybridQBScraper.mahomes).
  assert (Hfind : _find_qb {| qb_data := get_demo_data |} "mahomes"
                  = Some (snd HybridQBScraper.mahomes))
    by (vm_compute; reflexivity).
  assert (Htruthy : dict_truthy (snd HybridQBScraper.mahomes) = true)
    by (vm_compute; reflexivity).
  destruct (compare_with_self {| qb_data := get_demo_data |} "mahomes"
              (snd HybridQBScraper.mahomes) Hfind Htruthy) as (cs & H).
  exists cs. split; [exact Hfind|]. split; [exact Htruthy|]. exact H.
Defined.

Lemma compare_one_swap (a b : string) (s1 s2 : stats) (stat : string)
    (r : option (string * stat_comparison)) :
  compare_one a b s1 s2 stat = Ok r ->
  compare_one b a s2 s1 stat = Ok (option_map swap_sides r).
Proof.
  unfold compare_one, dict_has, dict_item.
  destruct (dict_lookup s1 stat) as [v1|], (dict_lookup s2 stat) as [v2|];
    cbn [andb mbind result_bind mret result_ret];
    try (intros H; injection H as <-; reflexivity).
  destruct (py_gt v1 v2) as [g12|e] eqn:H12; cbn [mbind result_bind];
    [|intros H; discriminate H].
  destruct (py_gt_both _ _ _ H12) as (g21 & H21 & Hexcl).
  rewrite H21. cbn [mbind result_bind].
  destruct g12.
  - rewrite (Hexcl eq_refl). cbn [mbind result_bind].
    destruct (py_sub v1 v2) as [d|e];
      cbn [mbind result_bind mret result_ret fst snd];
      intros H; [injection H as <-; reflexivity|discriminate H].
  - destruct g21; cbn [mbind result_bind].
    + destruct (py_sub v2 v1) as [d|e];
        cbn [mbind result_bind mret result_ret fst snd];
        intros H; [injection H as <-; reflexivity|discriminate H].
    + cbn [mret result_ret fst snd].
      intros H; injection H as <-; reflexivity.
Qed.

Lemma compare_loop_swap (a b : string) (s1 s2 : stats) (cols : list string) :
  forall acc cs,
    compare_loop a b s1 s2 cols acc = Ok cs ->
    compare_loop b a s2 s1 cols (map swap_sides acc) = Ok (map swap_sides cs).
Proof.
  induction cols as [|stat cols IH]; intros acc cs; simpl.
  - intros H; injection H as <-; reflexivity.
  - destruct (compare_one a b s1 s2 stat) as [r|e] eqn:Hone;
      cbn [mbind result_bind]; [|intros H; discriminate H].
    rewrite (compare_one_swap _ _ _ _ _ _ Hone). cbn [mbind result_bind].
    intros H. apply IH in H. destruct r as [entry|]; simpl in *.
    + rewrite map_app in H. exact H.
    + exact H.
Qed.

(** X4: the verdict of a comparison does not depend on the order in
    which the two players are named: [compare_stats] on the names in the
    other order returns the same winner and the same difference for
    every stat, with the two values exchanged. *)
Theorem compare_stats_swap (self : QuarterbackComparer.t)
    (qb1_name qb2_name : string) (q1 q2 : string * stats)
    (cs : list (string * stat_comparison)) :
  compare_stats self qb1_name qb2_name = Ok (Compared q1 q2 cs) ->
  compare_stats self qb2_name qb1_name
  = Ok (Compared q2 q1 (map swap_sides cs)).
Proof.
  unfold compare_stats.
  destruct (_find_qb self qb1_name) as [s1|], (_find_qb self qb2_name) as [s2|];
    cbn [mret result_ret]; try (intros H; discriminate H).
  rewrite (andb_comm (dict_truthy s2)).
  destruct (dict_truthy s1 && dict_truthy s2); [|intros H; discriminate H].
  destruct (compare_loop qb1_name qb2_name s1 s2 stats_columns [])
    as [cs0|e] eqn:Hloop; cbn [mbind result_bind mret result_ret];
    [|intros H; discriminate H].
  intros H; injection H as <- <- <-.
  apply compare_loop_swap in Hloop. cbn [map] in Hloop. rewrite Hloop.
  reflexivity.
Qed.

Lemma compare_stats_swap_witness :
  exists q1 q2 cs,
    compare_stats {| qb_data := get_demo_data |} "Patrick Mahomes" "Josh Allen"
    = Ok (Compared q1 q2 cs)
    /\ compare_stats {| qb_data := get_demo_data |} "Josh Allen" "Patrick Mahomes"
       = Ok (Compared q2 q1 (map swap_sides cs)).
Proof.
  destruct (compare_stats {| qb_data := get_demo_data |}
                          "Patrick Mahomes" "Josh Allen") as [[e|q1 q2 cs]|e]
    eqn:Hrun; try (vm_compute in Hrun; discriminate Hrun).
  exists q1, q2, cs. split; [reflexivity|].
  exact (compare_stats_swap _ _ _ _ _ _ Hrun).
Defined.

End HeadToHead.

(** ** [src/compare.py]: the best player and the ranking *)

Section Best.

Import QuarterbackComparer.

Lemma value_ge_refl (v : pyval) : value_ge v v.
Proof.
  destruct v; simpl; try apply Qle_refl.
  unfold String.leb. rewrite string_compare_refl. reflexivity.
Qed.

Lemma value_ge_key_ge (a b : pyval) : value_ge a b -> key_ge a b = true.
Proof.
  destruct a as [x|x|s], b as [y|y|t]; simpl; try tauto;
    unfold key_ge, py_gt, Qlt_bool; simpl;
    try (intros H; apply Qle_bool_iff in H; rewrite H; reflexivity).
  unfold String.leb, String.ltb. rewrite (String.compare_antisym t s).
  destruct (String.compare s t); simpl; congruence.
Qed.

Lemma key_ge_total (a b : pyval) :
  is_num a = is_num b -> key_ge a b = false -> key_ge b a = true.
Proof.
  intros Hk H. apply value_ge_key_ge. exact (key_ge_false a b Hk H).
Qed.

Lemma key_ge_trans (a b c : pyval) :
  is_num a = is_num b -> is_num b = is_num c ->
  key_ge a b = true -> key_ge b c = true -> key_ge a c = true.
Proof.
  intros Hab Hbc H1 H2. apply value_ge_key_ge.
  exact (value_ge_trans _ _ _ (key_ge_true _ _ Hab H1) (key_ge_true _ _ Hbc H2)).
Qed.

(** On two values of one kind, [x > b] is the negation of [b >= x]. *)
Lemma py_gt_key_ge (x b : pyval) :
  is_num x = is_num b -> py_gt x b = Ok (negb (key_ge b x)).
Proof.
  unfold key_ge.
  destruct x, b; simpl; try discriminate; intros _;
    match goal with |- Ok ?g = _ => destruct g; reflexivity end.
Qed.

Variable stat : string.

(** [max] and the head of the descending stable sort are the same entry:
    both are the first of the entries with the greatest key. *)
Lemma max_from_heads_sort (k : bool) (l : mapping) :
  forall best : string * stats,
    is_num (stat_key stat best) = k ->
    Forall (fun a => is_num (stat_key stat a) = k) l ->
    exists m tl,
      max_from (stat_key stat) best l = Ok m
      /\ fold_right (insert_desc (stat_key stat)) [] (best :: l) = m :: tl.
Proof.
  induction l as [|x l IH]; intros b Hb Hl.
  - exists b, []. split; reflexivity.
  - apply Forall_cons in Hl. destruct Hl as [Hx Hl].
    assert (Kxb : is_num (stat_key stat x) = is_num (stat_key stat b))
      by congruence.
    cbn [max_from]. rewrite (py_gt_key_ge _ _ Kxb). cbn [mbind result_bind].
    set (b' := if negb (key_ge (stat_key stat b) (stat_key stat x))
               then x else b).
    assert (Hb' : is_num (stat_key stat b') = k)
      by (unfold b'; destruct (negb _); assumption).
    destruct (IH b' Hb' Hl) as (m & tl & Hmax & Hsort).
    exists m. rewrite Hmax.
    enough (exists tl',
              fold_right (insert_desc (stat_key stat)) [] (b :: x :: l)
              = m :: tl') as [tl' H]
      by (exists tl'; split; [reflexivity|exact H]).
    cbn [fold_right] in *.
    assert (HS : Forall (fun a => is_num (stat_key stat a) = k)
                        (fold_right (insert_desc (stat_key stat)) [] l)).
    { rewrite List.Forall_forall in *. intros a Ha. apply Hl.
      exact (Permutation_in _ (sort_perm stat l) Ha). }
    destruct (fold_right (insert_desc (stat_key stat)) [] l) as [|y S].
    + cbn [insert_desc] in *. injection Hsort as <- <-.
      unfold b'. destruct (key_ge (stat_key stat b) (stat_key stat x));
        cbn [negb]; eauto.
    + apply Forall_cons in HS. destruct HS as [Hy _].
      assert (Kby : is_num (stat_key stat b) = is_num (stat_key stat y))
        by congruence.
      assert (Kxy : is_num (stat_key stat x) = is_num (stat_key stat y))
        by congruence.
      cbn [insert_desc] in Hsort |- *.
      destruct (key_ge (stat_key stat b) (stat_key stat x)) eqn:Gbx;
        unfold b' in Hsort; cbn [negb] in Hsort.
      * destruct (key_ge (stat_key stat x) (stat_key stat y)) eqn:Gxy;
          cbn [insert_desc]; rewrite ?Gbx.
        -- rewrite (key_ge_trans _ _ _ (eq_sym Kxb) Kxy Gbx Gxy) in Hsort.
           injection Hsort as <- _. eauto.
        -- destruct (key_ge (stat_key stat b) (stat_key stat y));
             injection Hsort as <- _; eauto.
      * destruct (key_ge (stat_key stat x) (stat_key stat y)) eqn:Gxy;
          cbn [insert_desc]; rewrite ?Gbx.
        -- injection Hsort as <- _. eauto.
        -- injection Hsort as <- _.
           destruct (key_ge (stat_key stat b) (stat_key stat y)) eqn:Gby;
             [|eauto].
           exfalso.
           pose proof (key_ge_total _ _ Kxy Gxy) as Gyx.
           pose proof (key_ge_trans _ _ _ Kby (eq_sym Kxy) Gby Gyx) as Hbx.
           congruence.
Qed.

(** X5: on a non-empty mapping whose values under the stat key are all
    numbers or all strings, [get_best_qb] returns the entry that heads
    the ranking [get_top_qbs(stat, 1)]; it is an entry of the mapping and
    no entry has a greater value. *)
Theorem best_qb_heads_ranking (self : QuarterbackComparer.t) :
  qb_data self <> [] ->
  homogeneous (map (stat_key stat) (qb_data self)) = true ->
  exists best,
    get_best_qb self stat = Ok (Some (fst best), snd best)
    /\ get_top_qbs self stat 1 = Ok [best]
    /\ In best (qb_data self)
    /\ Forall (fun p => value_ge (stat_key stat best) (stat_key stat p))
              (qb_data self).
Proof.
  intros Hne Hhom. unfold get_best_qb, get_top_qbs.
  destruct (qb_data self) as [|first rest] eqn:Hdata; [congruence|].
  cbn [mapping_truthy negb].
  destruct (homogeneous_kind stat _ Hhom) as [k Hk].
  pose proof Hk as Hk'. apply Forall_cons in Hk'. destruct Hk' as [Hfirst Hrest].
  destruct (max_from_heads_sort k rest first Hfirst Hrest)
    as (m & tl & Hmax & Hsort).
  destruct (sorted_desc_descending stat (first :: rest) Hhom)
    as (s & Hs & Hsorted & Hperm).
  assert (s = m :: tl) as ->.
  { unfold sorted_desc in Hs. rewrite Hhom in Hs.
    injection Hs as <-. exact Hsort. }
  exists m. rewrite Hmax, Hs. cbn [mbind result_bind mret result_ret].
  split; [reflexivity|]. split; [reflexivity|].
  split.
  - apply (Permutation_in _ Hperm). left; reflexivity.
  - apply List.Forall_forall. intros p Hp.
    apply (Permutation_in _ (Permutation_sym Hperm)) in Hp.
    destruct Hp as [<-|Hp]; [apply value_ge_refl|].
    inversion Hsorted as [|? ? _ Hall]; subst.
    rewrite List.Forall_forall in Hall. exact (Hall p Hp).
Qed.

End Best.

Lemma best_qb_heads_ranking_witness :
  QuarterbackComparer.qb_data
    {| QuarterbackComparer.qb_data := get_demo_data |} <> []
  /\ homogeneous (map (QuarterbackComparer.stat_key "yards") get_demo_data)
     = true
  /\ exists best,
       QuarterbackComparer.get_best_qb
         {| QuarterbackComparer.qb_data := get_demo_data |} "yards"
       = Ok (Some (fst best), snd best)
       /\ QuarterbackComparer.get_top_qbs
            {| QuarterbackComparer.qb_data := get_demo_data |} "yards" 1
          = Ok [best]
       /\ In best get_demo_data
       /\ Forall (fun p => value_ge (QuarterbackComparer.stat_key "yards" best)
                                    (QuarterbackComparer.stat_key "yards" p))
                 get_demo_data.
Proof.
  assert (Hne : QuarterbackComparer.qb_data
                  {| QuarterbackComparer.qb_data := get_demo_data |} <> [])
    by discriminate.
  assert (Hhom : homogeneous
                   (map (QuarterbackComparer.stat_key "yards") get_demo_data)
                 = true) by (vm_compute; reflexivity).
  split; [exact Hne|]. split; [exact Hhom|].
  exact (best_qb_heads_ranking "yards"
           {| QuarterbackComparer.qb_data := get_demo_data |} Hne Hhom).
Defined.

(** ** [src/utils.py]: filtering, ranking and the derived metrics *)

Section Filtering.

Lemma mapping_set_fresh (k : string) (v : stats) (m : mapping) :
  ~ In k (map fst m) -> mapping_set k v m = (m ++ [(k, v)])%list.
Proof.
  induction m as [|[k' v'] m IH]; simpl; [reflexivity|].
  intros Hnot. destruct (String.eqb_spec k k') as [->|Hne].
  - exfalso; apply Hnot; left; reflexivity.
  - rewrite IH; [reflexivity|]. intros Hin; apply Hnot; right; exact Hin.
Qed.

Lemma py_ge_attempts (v : pyval) (n : Z) :
  is_num v = true ->
  py_ge v (PInt n)
  = Ok (match num_of v with Some x => Qle_bool (inject_Z n) x | None => false end).
Proof. destruct v; simpl; intros H; [reflexivity|reflexivity|discriminate H]. Qed.

Lemma filter_loop_filters (n : Z) (items : mapping) :
  forall acc,
    NoDup (map fst (acc ++ items)%list) ->
    Utils.numeric_attempts items ->
    Utils.filter_loop n items acc
    = Ok (acc ++ List.filter (Utils.attempts_at_least n) items)%list.
Proof.
  induction items as [|[name st] rest IH]; intros acc Hnd Hnum; simpl.
  - rewrite app_nil_r. reflexivity.
  - apply Forall_cons in Hnum. destruct Hnum as [Hst Hrest].
    simpl in Hst. rewrite (py_ge_attempts _ n Hst). cbn [mbind result_bind].
    unfold Utils.attempts_at_least at 1. cbn [snd].
    destruct (match num_of (dict_get st "attempts" (PInt 0)) with
              | Some x => Qle_bool (inject_Z n) x
              | None => false
              end).
    + rewrite mapping_set_fresh.
      * rewrite IH; [rewrite <- app_assoc; reflexivity| |exact Hrest].
        rewrite <- app_assoc. exact Hnd.
      * rewrite map_app in Hnd. apply NoDup_app in Hnd.
        destruct Hnd as (_ & Hdisj & _). intros Hin.
        apply (Hdisj name).
        -- apply list_elem_of_In. exact Hin.
        -- apply list_elem_of_In. left; reflexivity.
    + apply IH; [|exact Hrest].
      rewrite map_app in *. simpl in Hnd.
      apply NoDup_app in Hnd. destruct Hnd as (Hacc & Hdisj & Hitems).
      apply NoDup_app. split; [exact Hacc|]. split.
      * intros x Hx Hx'. apply (Hdisj x Hx). right. exact Hx'.
      * apply NoDup_cons in Hitems. tauto.
Qed.

Lemma at_least_max (a b : Z) (p : string * stats) :
  Utils.attempts_at_least b p && Utils.attempts_at_least a p
  = Utils.attempts_at_least (Z.max a b) p.
Proof.
  unfold Utils.attempts_at_least.
  destruct (num_of (dict_get (snd p) "attempts" (PInt 0))) as [x|];
    [|reflexivity].
  destruct (Qle_bool (inject_Z (Z.max a b)) x) eqn:E.
  - apply Qle_bool_iff in E. apply andb_true_iff.
    split; apply Qle_bool_iff; (eapply Qle_trans; [|exact E]);
      rewrite <- Zle_Qle; lia.
  - apply andb_false_iff.
    destruct (Z.max_spec a b) as [[_ Hm]|[_ Hm]]; rewrite Hm in E; auto.
Qed.

Lemma filter_filter {A} (f g : A -> bool) (l : list A) :
  List.filter f (List.filter g l) = List.filter (fun x => f x && g x) l.
Proof.
  induction l as [|x l IH]; simpl; [reflexivity|].
  destruct (g x); simpl; rewrite ?andb_true_r, ?andb_false_r;
    [destruct (f x)|]; rewrite IH; reflexivity.
Qed.

Lemma NoDup_map_filter {A B} (h : A -> B) (f : A -> bool) (l : list A) :
  NoDup (map h l) -> NoDup (map h (List.filter f l)).
Proof.
  induction l as [|x l IH]; simpl; intros Hnd; [constructor|].
  apply NoDup_cons in Hnd. destruct Hnd as [Hx Hl].
  destruct (f x); simpl; [|exact (IH Hl)].
  apply NoDup_cons. split; [|exact (IH Hl)].
  intros Hin. apply Hx.
  apply list_elem_of_In in Hin. apply list_elem_of_In.
  apply in_map_iff in Hin. destruct Hin as (y & <- & Hy).
  apply in_map. apply filter_In in Hy. tauto.
Qed.

(** X6: on a mapping whose attempts are numbers,
    [filter_qbs_by_minimum_attempts] returns exactly the entries with at
    least [min_attempts] attempts, in their original order; filtering
    the result again with a second threshold is filtering once with the
    larger of the two thresholds. *)
Theorem filter_by_attempts_composes (qb_data : mapping) (a b : Z) :
  NoDup (map fst qb_data) ->
  Utils.numeric_attempts qb_data ->
  exists kept,
    Utils.filter_qbs_by_minimum_attempts qb_data a = Ok kept
    /\ kept = List.filter (Utils.attempts_at_least a) qb_data
    /\ Utils.filter_qbs_by_minimum_attempts kept b
       = Utils.filter_qbs_by_minimum_attempts qb_data (Z.max a b).
Proof.
  intros Hnd Hnum. unfold Utils.filter_qbs_by_minimum_attempts.
  rewrite !filter_loop_filters by assumption. cbn [app].
  eexists; split; [reflexivity|]. split; [reflexivity|].
  rewrite filter_loop_filters.
  - cbn [app]. rewrite filter_filter. f_equal.
    apply filter_ext. intros p. apply at_least_max.
  - cbn [app]. apply NoDup_map_filter. exact Hnd.
  - unfold Utils.numeric_attempts in *. rewrite List.Forall_forall in *.
    intros p Hp. apply filter_In in Hp. apply Hnum. tauto.
Qed.

Lemma demo_names_distinct : NoDup (map fst get_demo_data).
Proof.
  vm_compute.
  repeat (constructor;
          [intros H; apply list_elem_of_In in H; cbn [In] in H;
           intuition discriminate|]).
  constructor.
Qed.

Lemma filter_by_attempts_composes_witness :
  NoDup (map fst get_demo_data)
  /\ Utils.numeric_attempts get_demo_data
  /\ exists kept,
       Utils.filter_qbs_by_minimum_attempts get_demo_data 400 = Ok kept
       /\ kept = List.filter (Utils.attempts_at_least 400) get_demo_data
       /\ Utils.filter_qbs_by_minimum_attempts kept 500
          = Utils.filter_qbs_by_minimum_attempts get_demo_data (Z.max 400 500).
Proof.
  assert (Hnum : Utils.numeric_attempts get_demo_data).
  { unfold Utils.numeric_attempts, get_demo_data.
    repeat (constructor; [vm_compute; reflexivity|]). constructor. }
  split; [exact demo_names_distinct|]. split; [exact Hnum|].
  exact (filter_by_attempts_composes get_demo_data 400 500
           demo_names_distinct Hnum).
Defined.

End Filtering.

Section Rankings.

Import QuarterbackComparer.

(** X7: on a mapping whose values under the stat key are all numbers or
    all strings, [get_qb_rankings] lists every entry of the mapping
    exactly once, in descending order of the stat, and
    [get_top_qbs(stat, limit)] is the slice [[:limit]] of that list. *)
Theorem rankings_list_everyone (qb_data : mapping) (stat : string) :
  homogeneous (map (stat_key stat) qb_data) = true ->
  exists ranking,
    Utils.get_qb_rankings qb_data stat = Ok ranking
    /\ Permutation ranking qb_data
    /\ descending stat ranking
    /\ forall limit,
         get_top_qbs {| QuarterbackComparer.qb_data := qb_data |} stat limit
         = Ok (slice_to limit ranking).
Proof.
  intros Hhom. unfold Utils.get_qb_rankings, get_top_qbs.
  cbn [QuarterbackComparer.qb_data].
  destruct qb_data as [|p rest]; cbn [mapping_truthy negb].
  - exists []. repeat split; try constructor.
    intros limit. unfold slice_to. rewrite !firstn_nil.
    destruct (0 <=? limit)%Z; reflexivity.
  - destruct (sorted_desc_descending stat (p :: rest) Hhom)
      as (s & Hs & Hsorted & Hperm).
    exists s. rewrite Hs. repeat split; assumption || reflexivity.
Qed.

Lemma rankings_list_everyone_witness :
  homogeneous (map (stat_key "rating") get_demo_data) = true
  /\ exists ranking,
       Utils.get_qb_rankings get_demo_data "rating" = Ok ranking
       /\ Permutation ranking get_demo_data
       /\ descending "rating" ranking
       /\ forall limit,
            get_top_qbs {| QuarterbackComparer.qb_data := get_demo_data |}
                        "rating" limit
            = Ok (slice_to limit ranking).
Proof.
  split; [vm_compute; reflexivity|].
  apply (rankings_list_everyone get_demo_data "rating").
  vm_compute; reflexivity.
Defined.

End Rankings.

Section OtherMetrics.

(** X8: on a stats record whose counters are numbers, the [int]s among
    them below [2 ^ 1023] in absolute value,
    [calculate_efficiency_metrics] never raises and returns exactly the
    four metrics, in the order it computes them.  Yards per attempt and
    yards per completion are the float quotient when the divisor is
    positive and the integer 0 otherwise; the touchdown to interception
    ratio is the float quotient when there are interceptions and, when
    there are none, the number of touchdowns itself if that is positive
    and 0 if not.  With [int] counters that are not negative and below
    [2 ^ 1000], each quotient is the double nearest to the quotient of
    the two integers. *)
Theorem efficiency_metrics_shape (st : stats) :
  Utils.numeric_fields st -> Utils.moderate_ints st ->
  exists a c y t i q1 q2 q3 q4,
    num_of (dict_get st "attempts" (PInt 0)) = Some a
    /\ num_of (dict_get st "completions" (PInt 0)) = Some c
    /\ num_of (dict_get st "yards" (PInt 0)) = Some y
    /\ num_of (dict_get st "touchdowns" (PInt 0)) = Some t
    /\ num_of (dict_get st "interceptions" (PInt 0)) = Some i
    /\ Utils.calculate_efficiency_metrics st
       = Ok [ ("completion_percentage",
               if Qlt_bool 0 a then PFloat q1 else PInt 0);
              ("yards_per_attempt",
               if Qlt_bool 0 a then PFloat q2 else PInt 0);
              ("td_int_ratio",
               if Qlt_bool 0 i then PFloat q3
               else if Qlt_bool 0 t then dict_get st "touchdowns" (PInt 0)
                    else PInt 0);
              ("yards_per_completion",
               if Qlt_bool 0 c then PFloat q4 else PInt 0) ]
    /\ (Qlt_bool 0 a = true ->
        py_truediv (dict_get st "yards" (PInt 0))
                   (dict_get st "attempts" (PInt 0)) = Ok (PFloat q2))
    /\ (Qlt_bool 0 i = true ->
        py_truediv (dict_get st "touchdowns" (PInt 0))
                   (dict_get st "interceptions" (PInt 0)) = Ok (PFloat q3))
    /\ (Qlt_bool 0 c = true ->
        py_truediv (dict_get st "yards" (PInt 0))
                   (dict_get st "completions" (PInt 0)) = Ok (PFloat q4))
    /\ (Utils.int_counters st ->
        (Qlt_bool 0 a = true -> q2 = Float64.round (y / a))
        /\ (Qlt_bool 0 i = true -> q3 = Float64.round (t / i))
        /\ (Qlt_bool 0 c = true -> q4 = Float64.round (y / c))).
Proof.
  intros Hnum Hmod.
  destruct (metrics_cases st Hnum)
    as (a & c & y & t & i & Ha & Hc & Hy & Ht & Hi & Hrun).
  destruct (metrics_moderate st Hnum Hmod) as [m Hm].
  destruct Hrun as [Hrun|(q1 & q2 & q3 & q4 & Hrun & _ & H2 & H3 & H4)];
    [congruence|].
  exists a, c, y, t, i, q1, q2, q3, q4.
  repeat (split; [assumption|]).
  intros Hint.
  destruct (Hint "attempts" ltac:(simpl; tauto)) as (za & Ea & Hza).
  destruct (Hint "completions" ltac:(simpl; tauto)) as (zc & Ec & Hzc).
  destruct (Hint "yards" ltac:(simpl; tauto)) as (zy & Ey & Hzy).
  destruct (Hint "touchdowns" ltac:(simpl; tauto)) as (zt & Et & Hzt).
  destruct (Hint "interceptions" ltac:(simpl; tauto)) as (zi & Ei & Hzi).
  rewrite Ea, Ec, Ey, Et, Ei in *. cbn [num_of] in Ha, Hc, Hy, Ht, Hi.
  injection Ha as <-. injection Hc as <-. injection Hy as <-.
  injection Ht as <-. injection Hi as <-.
  assert (Hbig : 2 ^ 1000 < 2 ^ 1023) by (apply Z.pow_lt_mono_r; lia).
  assert (Hpos : forall z, Qlt_bool 0 (inject_Z z) = true -> 0 < z).
  { intros z E. apply Qlt_bool_iff in E. change 0%Q with (inject_Z 0) in E.
    rewrite <- Zlt_Qlt in E. exact E. }
  repeat split; intros E.
  - specialize (H2 E).
    rewrite (py_truediv_ints zy za ltac:(lia) (Hpos _ E)) in H2. congruence.
  - specialize (H3 E).
    rewrite (py_truediv_ints zt zi ltac:(lia) (Hpos _ E)) in H3. congruence.
  - specialize (H4 E).
    rewrite (py_truediv_ints zy zc ltac:(lia) (Hpos _ E)) in H4. congruence.
Qed.

Lemma efficiency_metrics_shape_witness :
  Utils.numeric_fields (snd HybridQBScraper.mahomes)
  /\ Utils.moderate_ints (snd HybridQBScraper.mahomes)
  /\ exists metrics,
       Utils.calculate_efficiency_metrics (snd HybridQBScraper.mahomes)
       = Ok metrics
       /\ map fst metrics
          = [ "completion_percentage"; "yards_per_attempt"; "td_int_ratio";
              "yards_per_completion" ].
Proof.
  pose proof (int_counters_numeric _ mahomes_int_counters) as H.
  pose proof (int_counters_moderate _ mahomes_int_counters) as M.
  split; [exact H|]. split; [exact M|].
  destruct (efficiency_metrics_shape (snd HybridQBScraper.mahomes) H M)
    as (a & c & y & t & i & q1 & q2 & q3 & q4
        & _ & _ & _ & _ & _ & -> & _).
  eexists; split; reflexivity.
Defined.

End OtherMetrics.

(** ** [src/scraper.py]: the rows of the statistics table *)

Section TableRows.

Import ESPNQBScraper.

Lemma stat_of_nonneg (c : cell) :
  exists v, stat_of c = Ok v /\ nonneg_number v.
Proof.
  unfold stat_of.
  destruct (extract_number_cases (Some (cell_tag c))) as [H|(x & Hx & H)];
    rewrite H; cbn [mbind result_bind mret result_ret].
  - exists (PFloat 0). split; [reflexivity|].
    exists 0%Q. split; [reflexivity|apply Qle_refl].
  - exists (PFloat x). split; [reflexivity|].
    exists x. split; [reflexivity|exact (float_nonneg _ _ Hx)].
Qed.

Lemma stat_of_optional_nonneg (more : list cell) (i : nat) :
  exists v, stat_of_optional more i = Ok v /\ nonneg_number v.
Proof.
  unfold stat_of_optional. destruct (nth_error more i) as [c|].
  - apply stat_of_nonneg.
  - exists (PInt 0). split; [reflexivity|].
    exists 0%Q. split; [reflexivity|apply Qle_refl].
Qed.

(** A row gives no entry, or an entry with a proper name, a team and
    nine statistics that are numbers and not negative. *)
Lemma parse_row_cases (cells : list cell) :
  parse_row cells = Ok None
  \/ exists p, parse_row cells = Ok (Some p) /\ scraped_entry p.
Proof.
  unfold parse_row.
  destruct cells as [|c0 [|c1 [|c2 [|c3 [|c4 [|c5 [|c6 [|c7 more]]]]]]]];
    try (left; reflexivity).
  cbv zeta.
  set (name := match cell_a c1 with
               | Some name_link => get_text_strip name_link
               | None => get_text_strip (cell_tag c1)
               end).
  destruct (nonempty name) eqn:Hname; cbn [negb orb]; [|left; reflexivity].
  destruct (List.existsb (String.eqb (Str.lower name)) header_words) eqn:Hhead;
    [left; reflexivity|].
  destruct (stat_of_nonneg c3) as (v1 & -> & N1).
  destruct (stat_of_nonneg c4) as (v2 & -> & N2).
  destruct (stat_of_nonneg c5) as (v3 & -> & N3).
  destruct (stat_of_nonneg c6) as (v4 & -> & N4).
  destruct (stat_of_nonneg c7) as (v5 & -> & N5).
  destruct (stat_of_optional_nonneg more 0) as (v6 & -> & N6).
  destruct (stat_of_optional_nonneg more 1) as (v7 & -> & N7).
  destruct (stat_of_optional_nonneg more 2) as (v8 & -> & N8).
  destruct (stat_of_optional_nonneg more 3) as (v9 & -> & N9).
  cbn [mbind result_bind mret result_ret].
  right. eexists; split; [reflexivity|].
  split; [exact Hname|]. split.
  - cbn [fst]. intros Hin.
    assert (List.existsb (String.eqb (Str.lower name)) header_words = true)
      as Habs; [|congruence].
    apply existsb_exists. exists (Str.lower name).
    split; [exact Hin|apply String.eqb_refl].
  - cbn [snd]. split; [reflexivity|]. split; [eexists; reflexivity|].
    intros k Hk. cbn [stat_keys In] in Hk.
    repeat (destruct Hk as [<-|Hk]; [eexists; split; [reflexivity|assumption]|]).
    destruct Hk.
Qed.

Lemma mapping_set_keys (k : string) (v : stats) (m : mapping) :
  (forall x, In x (map fst (mapping_set k v m)) <-> x = k \/ In x (map fst m))
  /\ (NoDup (map fst m) -> NoDup (map fst (mapping_set k v m)))
  /\ (length (mapping_set k v m) <= S (length m))%nat.
Proof.
  induction m as [|[k' v'] m IH]; simpl.
  - split; [intros x; intuition congruence|]. split; [|lia].
    intros _. repeat constructor. intros H; apply list_elem_of_In in H; destruct H.
  - destruct IH as (IHin & IHnd & IHlen).
    destruct (String.eqb_spec k k') as [->|Hne]; simpl.
    + split; [intros x; intuition congruence|].
      split; [intros H; exact H|lia].
    + split; [intros x; rewrite IHin; intuition congruence|]. split; [|lia].
      intros Hnd. apply NoDup_cons in Hnd. destruct Hnd as [Hk' Hm].
      apply NoDup_cons. split; [|exact (IHnd Hm)].
      intros Hin. apply list_elem_of_In in Hin. apply IHin in Hin.
      destruct Hin as [->|Hin]; [congruence|].
      apply Hk'. apply list_elem_of_In. exact Hin.
Qed.

Lemma mapping_set_Forall (P : string * stats -> Prop) (k : string) (v : stats)
    (m : mapping) :
  P (k, v) -> Forall P m -> Forall P (mapping_set k v m).
Proof.
  intros Hkv. induction 1 as [|[k' v'] m Hp Hm IH]; simpl.
  - repeat constructor. exact Hkv.
  - destruct (String.eqb k k'); constructor; assumption.
Qed.

Lemma parse_rows_entries (rows : list (list cell)) :
  forall acc,
    NoDup (map fst acc) -> Forall scraped_entry acc ->
    exists m,
      parse_rows rows acc = Ok m
      /\ NoDup (map fst m)
      /\ Forall scraped_entry m
      /\ (length m <= length acc + length rows)%nat.
Proof.
  induction rows as [|cells rows IH]; intros acc Hnd Hall; simpl.
  - exists acc. repeat split; try assumption. lia.
  - destruct (parse_row_cases cells) as [->|([name st] & -> & Hp)];
      cbn [mbind result_bind].
    + destruct (IH acc Hnd Hall) as (m & Hm & ? & ? & ?).
      exists m. repeat split; try assumption. lia.
    + destruct (mapping_set_keys name st acc) as (_ & Hnd' & Hlen).
      destruct (IH (mapping_set name st acc) (Hnd' Hnd)
                   (mapping_set_Forall _ _ _ _ Hp Hall))
        as (m & Hm & ? & ? & ?).
      exists m. repeat split; try assumption. lia.
Qed.

Lemma stat_of_float (c : cell) : exists q, stat_of c = Ok (PFloat q).
Proof.
  unfold stat_of.
  destruct (extract_number_cases (Some (cell_tag c))) as [H|(x & _ & H)];
    rewrite H; cbn [mbind result_bind mret result_ret]; eauto.
Qed.

Lemma stat_of_optional_kind (more : list cell) (i : nat) :
  exists v, stat_of_optional more i = Ok v
            /\ forall z, v = PInt z -> z = 0.
Proof.
  unfold stat_of_optional. destruct (nth_error more i) as [c|].
  - destruct (stat_of_float c) as [q ->]. eexists; split; [reflexivity|].
    intros z H; discriminate H.
  - eexists; split; [reflexivity|]. intros z H; injection H as <-; reflexivity.
Qed.

(** The statistics of a row are floats, apart from the 0 of a missing
    cell. *)
Lemma parse_row_zero_ints (cells : list cell) (p : string * stats) :
  parse_row cells = Ok (Some p) -> zero_ints (snd p).
Proof.
  unfold parse_row.
  destruct cells as [|c0 [|c1 [|c2 [|c3 [|c4 [|c5 [|c6 [|c7 more]]]]]]]];
    try discriminate.
  cbv zeta.
  destruct (negb _ || _); [discriminate|].
  destruct (stat_of_float c3) as (q1 & ->).
  destruct (stat_of_float c4) as (q2 & ->).
  destruct (stat_of_float c5) as (q3 & ->).
  destruct (stat_of_float c6) as (q4 & ->).
  destruct (stat_of_float c7) as (q5 & ->).
  destruct (stat_of_optional_kind more 0) as (v6 & -> & K6).
  destruct (stat_of_optional_kind more 1) as (v7 & -> & K7).
  destruct (stat_of_optional_kind more 2) as (v8 & -> & K8).
  destruct (stat_of_optional_kind more 3) as (v9 & -> & K9).
  cbn [mbind result_bind mret result_ret].
  intros H; injection H as <-. cbn [snd].
  intros k z. unfold dict_get.
  cbn [dict_of fold_left dict_set fst snd String.eqb Ascii.eqb Bool.eqb
       dict_lookup].
  repeat match goal with
         | |- context [if String.eqb k ?s then _ else _] =>
             destruct (String.eqb k s)
         end;
    cbn [default]; intros E; try discriminate E; eauto.
  injection E as <-. reflexivity.
Qed.

Lemma parse_rows_zero_ints (rows : list (list cell)) :
  forall acc m,
    Forall (fun p => zero_ints (snd p)) acc ->
    parse_rows rows acc = Ok m ->
    Forall (fun p => zero_ints (snd p)) m.
Proof.
  induction rows as [|cells rows IH]; intros acc m Hall; simpl.
  - intros H; injection H as <-. exact Hall.
  - destruct (parse_row cells) as [[[name st]|]|e] eqn:Hrow;
      cbn [mbind result_bind]; [| |discriminate].
    + apply IH.
      apply (mapping_set_Forall (fun p => zero_ints (snd p))); [|exact Hall].
      exact (parse_row_zero_ints cells (name, st) Hrow).
    + apply IH. exact Hall.
Qed.

Lemma parse_table_rows_ok (trs : list (list cell)) :
  exists m, parse_table trs = Ok m /\ Forall scraped_entry m.
Proof.
  unfold parse_table.
  destruct (parse_rows_entries (skipn 1 trs) [] ltac:(constructor)
                               ltac:(constructor))
    as (m & Hm & _ & Hall & _).
  exists m. split; assumption.
Qed.

(** X9: reading the rows of a statistics table never raises.  The
    players it returns have distinct names, none of them empty or a
    header word, each with a team and the nine statistics, every one of
    which is a number that is not negative; there are at most as many
    players as rows after the header. *)
Theorem parse_table_entries (trs : list (list cell)) :
  exists m,
    parse_table trs = Ok m
    /\ NoDup (map fst m)
    /\ Forall scraped_entry m
    /\ (length m <= length trs - 1)%nat.
Proof.
  unfold parse_table.
  destruct (parse_rows_entries (skipn 1 trs) [] ltac:(constructor)
                               ltac:(constructor))
    as (m & Hm & Hnd & Hall & Hlen).
  exists m. repeat split; try assumption.
  rewrite length_skipn in Hlen. simpl in Hlen. lia.
Qed.

End TableRows.

Section ScrapedData.

Import ESPNQBScraper.

Lemma dict_lookup_missing (d : stats) (k : string) :
  ~ In k (map fst d) -> dict_lookup d k = None.
Proof.
  induction d as [|[k' v] d IH]; simpl; [reflexivity|].
  intros Hnot. destruct (String.eqb_spec k k') as [->|Hne].
  - exfalso; apply Hnot; left; reflexivity.
  - apply IH. intros Hin; apply Hnot; right; exact Hin.
Qed.

(** Under any key at all, a scraped record has a string exactly under
    ['team'] and a number, possibly the default 0, everywhere else. *)
Lemma scraped_record_kind (st : stats) (stat : string) :
  scraped_record st ->
  is_num (dict_get st stat (PInt 0)) = negb (String.eqb stat "team").
Proof.
  intros (Hkeys & (team & Hteam) & Hstats). unfold dict_get.
  destruct (String.eqb_spec stat "team") as [->|Hne]; cbn [negb].
  - rewrite Hteam. reflexivity.
  - destruct (in_dec string_dec stat stat_keys) as [Hin|Hout].
    + destruct (Hstats stat Hin) as (v & -> & x & Hx & _).
      destruct v; [reflexivity|reflexivity|discriminate Hx].
    + rewrite dict_lookup_missing; [reflexivity|].
      rewrite Hkeys. intros [Heq|Hin]; [congruence|contradiction].
Qed.

Lemma scraped_keys_homogeneous (m : mapping) (stat : string) :
  Forall scraped_entry m ->
  homogeneous (map (QuarterbackComparer.stat_key stat) m) = true.
Proof.
  intros Hall. unfold homogeneous.
  destruct (String.eqb stat "team") eqn:Hstat.
  - apply orb_true_iff. right. apply forallb_forall.
    intros v Hv. apply in_map_iff in Hv. destruct Hv as (p & <- & Hp).
    rewrite List.Forall_forall in Hall. destruct (Hall p Hp) as (_ & _ & Hrec).
    pose proof (scraped_record_kind _ stat Hrec) as Hk.
    rewrite Hstat in Hk. unfold QuarterbackComparer.stat_key.
    destruct (dict_get (snd p) stat (PInt 0)); simpl in *; congruence.
  - apply orb_true_iff. left. apply forallb_forall.
    intros v Hv. apply in_map_iff in Hv. destruct Hv as (p & <- & Hp).
    rewrite List.Forall_forall in Hall. destruct (Hall p Hp) as (_ & _ & Hrec).
    pose proof (scraped_record_kind _ stat Hrec) as Hk.
    rewrite Hstat in Hk. exact Hk.
Qed.

(** X10: ranking what was read from a table never raises, whatever the
    stat key and the limit: [get_top_qbs] returns a sequence in
    descending order of the stat, of the length the slice [[:limit]]
    gives. *)
Theorem scraped_rankings_never_raise (trs : list (list cell))
    (stat : string) (limit : Z) :
  exists m top,
    parse_table trs = Ok m
    /\ get_top_qbs m stat limit = Ok top
    /\ QuarterbackComparer.descending stat top
    /\ Z.of_nat (length top)
       = if (0 <=? limit)%Z then Z.min limit (Z.of_nat (length m))
         else Z.max 0 (Z.of_nat (length m) + limit).
Proof.
  destruct (parse_table_rows_ok trs) as (m & Hm & Hall).
  exists m. unfold get_top_qbs.
  destruct m as [|p rest] eqn:Em; cbn [mapping_truthy negb].
  - exists []. split; [exact Hm|]. split; [reflexivity|].
    split; [constructor|].
    cbn [length]. destruct (Z.leb_spec 0 limit); lia.
  - rewrite <- Em in *.
    pose proof (scraped_keys_homogeneous m stat Hall) as Hhom.
    destruct (sorted_desc_descending stat m Hhom) as (s & Hs & Hsorted & Hperm).
    change (sorted_desc (fun x => dict_get (snd x) stat (PInt 0)) m)
      with (sorted_desc (QuarterbackComparer.stat_key stat) m).
    rewrite Hs. cbn [mbind result_bind mret result_ret].
    eexists. split; [exact Hm|]. split; [reflexivity|]. split.
    + unfold QuarterbackComparer.descending, slice_to.
      destruct (0 <=? limit)%Z; apply strongly_sorted_firstn; exact Hsorted.
    + rewrite slice_to_length, (Permutation_length Hperm). reflexivity.
Qed.

(** X11: the derived metrics of a player read from a table are always
    computed: [calculate_efficiency_metrics] raises on none of them, in
    particular it never divides by zero. *)
Theorem scraped_metrics_never_raise (trs : list (list cell)) :
  exists m,
    parse_table trs = Ok m
    /\ Forall (fun p => exists metrics,
                 Utils.calculate_efficiency_metrics (snd p) = Ok metrics) m.
Proof.
  destruct (parse_table_rows_ok trs) as (m & Hm & Hall).
  exists m. split; [exact Hm|].
  pose proof (parse_rows_zero_ints (skipn 1 trs) [] m ltac:(constructor) Hm)
    as Hints.
  apply List.Forall_forall. intros p Hp.
  destruct (proj1 (List.Forall_forall _ _) Hall p Hp) as (_ & _ & Hrec).
  pose proof (proj1 (List.Forall_forall _ _) Hints p Hp) as Hzero.
  simpl in Hzero.
  apply metrics_moderate.
  - intros k Hk. rewrite (scraped_record_kind _ k Hrec).
    cbn [In] in Hk.
    repeat (destruct Hk as [<-|Hk]; [reflexivity|]). destruct Hk.
  - intros k z _ Hz. rewrite (Hzero k z Hz). reflexivity.
Qed.

End ScrapedData.

(** ** [src/hybrid_scraper.py]: saving to the store and reading it back *)

Section StoreRoundTrip.

Import HybridQBScraper.

Lemma mapping_lookup_set_same (k : string) (v : stats) (m : mapping) :
  mapping_lookup (mapping_set k v m) k = Some v.
Proof.
  induction m as [|[k0 v0] m IH]; simpl.
  - rewrite String.eqb_refl; reflexivity.
  - destruct (String.eqb_spec k k0) as [->|Hne]; simpl.
    + rewrite String.eqb_refl; reflexivity.
    + destruct (String.eqb_spec k k0); [contradiction|exact IH].
Qed.

Lemma mapping_lookup_set_other (k k' : string) (v : stats) (m : mapping) :
  k <> k' ->
  mapping_lookup (mapping_set k v m) k' = mapping_lookup m k'.
Proof.
  intros Hne. induction m as [|[k0 v0] m IH]; simpl.
  - destruct (String.eqb_spec k' k); [congruence|reflexivity].
  - destruct (String.eqb_spec k k0) as [->|Hne0]; simpl.
    + destruct (String.eqb_spec k' k0); [congruence|reflexivity].
    + destruct (String.eqb_spec k' k0); [reflexivity|exact IH].
Qed.

Lemma int_of_number (v : pyval) :
  is_num v = true -> exists z, int_of v = Ok (PInt z).
Proof. destruct v; simpl; intros H; [eauto|eauto|discriminate H]. Qed.

Lemma float_of_number (v : pyval) :
  is_num v = true -> exists q, float_of v = Ok (PFloat q).
Proof. destruct v; simpl; intros H; [eauto|eauto|discriminate H]. Qed.

Lemma storable_number_num (v : pyval) :
  storable_number v = true -> is_num v = true.
Proof. destruct v; simpl; intros H; [reflexivity|reflexivity|discriminate H]. Qed.

(** A row of numbers converts. *)
Lemma row_to_dict_ok (q : quarterback_row) (s : stats_row) :
  numeric_row s -> exists c, row_to_dict (q, s) = Ok c.
Proof.
  unfold numeric_row; intros H.
  repeat (apply Forall_cons in H; destruct H as [? H]).
  unfold row_to_dict; cbn [fst snd].
  repeat match goal with
  | Hn : is_num ?v = true |- _ =>
      let z := fresh "z" in let Ei := fresh "Ei" in
      let x := fresh "x" in let Ef := fresh "Ef" in
      destruct (int_of_number v Hn) as [z Ei];
      destruct (float_of_number v Hn) as [x Ef];
      try rewrite Ei; try rewrite Ef; clear Hn Ei Ef
  end.
  cbn [mbind result_bind mret result_ret]. eauto.
Qed.


Lemma storable_team (st : stats) :
  storable st = true -> exists team, dict_lookup st "team" = Some (PStr team).
Proof.
  unfold storable; intros H; apply andb_true_iff in H; destruct H as [H _].
  destruct (dict_lookup st "team") as [[| |team]|]; try discriminate H; eauto.
Qed.

Lemma storable_numbers (st : stats) :
  storable st = true ->
  Forall (fun v => is_num v = true)
         (map (fun k => dict_get st k (PInt 0)) stat_columns).
Proof.
  unfold storable; intros H; apply andb_true_iff in H; destruct H as [_ H].
  apply List.Forall_map, List.Forall_forall; intros k Hk.
  apply storable_number_num.
  exact (proj1 (List.forallb_forall _ _) H k Hk).
Qed.

(** A storable dictionary reads back. *)
Lemma read_back_ok (st : stats) :
  storable st = true -> exists c, read_back st = Ok c.
Proof.
  intros H. destruct (storable_team st H) as [team Ht].
  unfold read_back, dict_item; rewrite Ht; cbn [mbind result_bind].
  apply row_to_dict_ok. exact (storable_numbers st H).
Qed.

(** The result of one turn of the loop on a consistent store: the player
    rows with the same [espn_id] are gone, a new player row and a new
    row of statistics are appended, and no old row of statistics is
    replaced. *)
Lemma save_one_eq current_time season name (st : stats) (d : database)
    (team : pyval) :
  consistent d ->
  dict_lookup st "team" = Some team ->
  let id := Sql.next_id (quarterbacks_seq d) (map q_id (quarterbacks d)) in
  save_one current_time season name st d
  = Ok {| quarterbacks :=
            List.filter (fun r => negb (String.eqb (q_espn_id r) (demo_id name)))
                        (quarterbacks d)
            ++ [ {| q_id := id; q_espn_id := demo_id name; q_name := name;
                    q_team := team; q_position := "QB";
                    q_created_at := current_time;
                    q_updated_at := current_time |} ];
          quarterbacks_seq := id;
          quarterback_stats :=
            quarterback_stats d
            ++ [ {| s_id := Sql.next_id (quarterback_stats_seq d)
                                        (map s_id (quarterback_stats d));
                    s_qb_id := id; s_season := season;
                    s_games_played := dict_get st "games_played" (PInt 0);
                    s_completions := dict_get st "completions" (PInt 0);
                    s_attempts := dict_get st "attempts" (PInt 0);
                    s_completion_pct := dict_get st "completion_pct" (PInt 0);
                    s_yards := dict_get st "yards" (PInt 0);
                    s_yards_per_attempt :=
                      dict_get st "yards_per_attempt" (PInt 0);
                    s_touchdowns := dict_get st "touchdowns" (PInt 0);
                    s_interceptions := dict_get st "interceptions" (PInt 0);
                    s_rating := dict_get st "rating" (PInt 0);
                    s_sacked := dict_get st "sacked" (PInt 0);
                    s_fumbles := dict_get st "fumbles" (PInt 0);
                    s_last_updated := Some current_time |} ];
          quarterback_stats_seq :=
            Sql.next_id (quarterback_stats_seq d)
                        (map s_id (quarterback_stats d)) |}.
Proof.
  intros Hc Hteam id.
  unfold save_one, dict_item; rewrite Hteam; cbn [mbind result_bind].
  rewrite select_id_after_insert; cbn [mbind result_bind mret result_ret].
  fold id. unfold Sql.insert_or_replace_stats, Sql.insert_or_replace_quarterback.
  cbn [quarterbacks quarterbacks_seq quarterback_stats quarterback_stats_seq
       s_qb_id s_season s_games_played s_completions s_attempts
       s_completion_pct s_yards s_yards_per_attempt s_touchdowns
       s_interceptions s_rating s_sacked s_fumbles s_last_updated].
  fold id.
  rewrite (filter_all
             (fun r => negb ((s_qb_id r =? id)%Z && (s_season r =? season)%Z))
             (quarterback_stats d)); [reflexivity|].
  eapply Forall_impl; [exact (refs_issued d Hc)|].
  intros r Hr; simpl in Hr.
  destruct (Z.eqb_spec (s_qb_id r) id) as [E|]; [|reflexivity].
  exfalso; unfold id, Sql.next_id in E; lia.
Qed.


Lemma next_id_fresh (seq : Z) (ids : list Z) : seq < Sql.next_id seq ids.
Proof. unfold Sql.next_id; lia. Qed.

(** One turn of the loop keeps the store consistent. *)
Lemma save_one_consistent current_time season name (st : stats)
    (d d' : database) :
  consistent d -> storable st = true ->
  save_one current_time season name st d = Ok d' ->
  consistent d'.
Proof.
  intros Hc Hst H. destruct (storable_team st Hst) as [team Ht].
  rewrite (save_one_eq _ _ _ _ _ _ Hc Ht) in H. injection H as <-.
  pose proof (next_id_fresh (quarterbacks_seq d) (map q_id (quarterbacks d)))
    as Hid.
  set (id := Sql.next_id (quarterbacks_seq d) (map q_id (quarterbacks d))) in *.
  destruct Hc as [H1 H2 H3 H4 H5 H6].
  split; cbn [quarterbacks quarterbacks_seq quarterback_stats
              quarterback_stats_seq].
  - apply Forall_app; split.
    + apply List.Forall_forall; intros q Hq.
      apply filter_In in Hq; destruct Hq as [Hq _].
      pose proof (proj1 (List.Forall_forall _ _) H1 q Hq) as Hle.
      simpl in Hle; lia.
    + constructor; [simpl; lia|constructor].
  - apply Forall_app; split.
    + eapply Forall_impl; [exact H2|]. intros r Hr; simpl in Hr; lia.
    + constructor; [simpl; lia|constructor].
  - rewrite List.map_app. apply NoDup_app.
    split; [apply NoDup_map_filter; exact H3|].
    split; [|apply NoDup_singleton].
    intros x Hx Hx'. apply list_elem_of_In in Hx.
    apply list_elem_of_In in Hx'. simpl in Hx'.
    destruct Hx' as [<-|[]].
    apply in_map_iff in Hx. destruct Hx as (q & Eq & Hq).
    apply filter_In in Hq; destruct Hq as [_ Hq].
    rewrite Eq, String.eqb_refl in Hq. discriminate Hq.
  - apply Forall_app; split.
    + apply List.Forall_forall; intros q Hq.
      apply filter_In in Hq; destruct Hq as [Hq _].
      exact (proj1 (List.Forall_forall _ _) H4 q Hq).
    + constructor; [reflexivity|constructor].
  - rewrite List.map_app. apply NoDup_app.
    split; [exact H5|]. split; [|apply NoDup_singleton].
    intros x Hx Hx'. apply list_elem_of_In in Hx.
    apply list_elem_of_In in Hx'. simpl in Hx'.
    destruct Hx' as [<-|[]].
    apply in_map_iff in Hx. destruct Hx as (r & Er & Hr).
    pose proof (proj1 (List.Forall_forall _ _) H2 r Hr) as Hle.
    simpl in Hle. injection Er as Er _. lia.
  - apply Forall_app; split; [exact H6|].
    constructor; [|constructor]. exact (storable_numbers st Hst).
Qed.

(** After a turn of the loop, the player it saved is in the store and
    reads back as [read_back] says. *)
Lemma save_one_stored current_time season name (st : stats)
    (d d' : database) (c : stats) :
  consistent d ->
  save_one current_time season name st d = Ok d' ->
  read_back st = Ok c ->
  stored d' season name c.
Proof.
  intros Hc H Hrb.
  destruct (dict_lookup st "team") as [team|] eqn:Ht.
  - rewrite (save_one_eq _ _ _ _ _ _ Hc Ht) in H. injection H as <-.
    unfold stored; cbn [quarterbacks quarterback_stats].
    eexists; eexists.
    split; [apply in_or_app; right; left; reflexivity|].
    split; [reflexivity|].
    split; [apply in_or_app; right; left; reflexivity|].
    split; [reflexivity|]. split; [reflexivity|].
    rewrite <- Hrb. unfold read_back, dict_item; rewrite Ht.
    reflexivity.
  - unfold save_one, dict_item in H; rewrite Ht in H. discriminate H.
Qed.

(** A turn of the loop for another [espn_id] leaves a stored player in
    place. *)
Lemma save_one_keeps current_time season name (st : stats)
    (d d' : database) (season0 : Z) (name0 : string) (c : stats) :
  consistent d ->
  stored d season0 name0 c ->
  demo_id name <> demo_id name0 ->
  save_one current_time season name st d = Ok d' ->
  stored d' season0 name0 c.
Proof.
  intros Hc (q & s & Hq & Hn & Hs & Hid & Hse & Hrow) Hne H.
  destruct (dict_lookup st "team") as [team|] eqn:Ht.
  - rewrite (save_one_eq _ _ _ _ _ _ Hc Ht) in H. injection H as <-.
    exists q, s; cbn [quarterbacks quarterback_stats].
    split.
    { apply in_or_app; left. apply filter_In. split; [exact Hq|].
      pose proof (proj1 (List.Forall_forall _ _) (espn_id_of_name d Hc) q Hq)
        as Eq.
      simpl in Eq. rewrite Eq, Hn.
      destruct (String.eqb_spec (demo_id name0) (demo_id name));
        [congruence|reflexivity]. }
    split; [exact Hn|].
    split; [apply in_or_app; left; exact Hs|].
    auto.
  - unfold save_one, dict_item in H; rewrite Ht in H. discriminate H.
Qed.


(** The loop of [_save_to_database]: on a consistent store and storable
    dictionaries it returns, the store stays consistent and gains one
    row of statistics per entry; a player stored before stays, unless
    the [espn_id] is written again; and every entry is stored at the end
    when the identifiers of the entries are distinct. *)
Lemma save_loop_stored current_time season (items : mapping) :
  forall d,
    consistent d ->
    forallb (fun p => storable (snd p)) items = true ->
    exists d',
      save_loop current_time season items d = Ok d'
      /\ consistent d'
      /\ length (quarterback_stats d')
         = (length (quarterback_stats d) + length items)%nat
      /\ (forall name c,
            stored d season name c ->
            ~ In (demo_id name) (map (fun p => demo_id (fst p)) items) ->
            stored d' season name c)
      /\ (NoDup (map (fun p => demo_id (fst p)) items) ->
          forall name st,
            In (name, st) items ->
            exists c, read_back st = Ok c /\ stored d' season name c).
Proof.
  induction items as [|[n st] rest IH]; intros d Hc Hall.
  - exists d; simpl. split; [reflexivity|]. split; [exact Hc|].
    split; [lia|]. split; [auto|]. intros _ name st [].
  - simpl in Hall. apply andb_true_iff in Hall. destruct Hall as [Hst Hrest].
    destruct (storable_team st Hst) as [team Ht].
    assert (Hteam : dict_has st "team" = true)
      by (unfold dict_has; rewrite Ht; reflexivity).
    destruct (save_one_ok current_time season n st d Hteam) as [d1 H1].
    pose proof (save_one_consistent _ _ _ _ _ _ Hc Hst H1) as Hc1.
    destruct (IH d1 Hc1 Hrest) as (d' & Hloop & Hc' & Hlen & Hkeep & Hnew).
    exists d'. cbn [save_loop]. rewrite H1; cbn [mbind result_bind].
    split; [exact Hloop|]. split; [exact Hc'|].
    split.
    { rewrite Hlen.
      pose proof H1 as H1'.
      rewrite (save_one_eq _ _ _ _ _ _ Hc Ht) in H1'. injection H1' as <-.
      cbn [quarterback_stats]. rewrite length_app; simpl; lia. }
    split.
    + intros name c Hs Hnot. simpl in Hnot.
      apply Hkeep; [|tauto].
      apply (save_one_keeps current_time season n st d d1 season name c Hc Hs);
        [tauto|exact H1].
    + intros Hnd name st' Hin. cbn [map fst] in Hnd.
      apply NoDup_cons in Hnd. destruct Hnd as [Hfresh Hnd].
      destruct Hin as [E|Hin].
      * injection E as <- <-.
        destruct (read_back_ok st Hst) as [c Hrb].
        exists c; split; [exact Hrb|].
        apply Hkeep.
        -- exact (save_one_stored _ _ _ _ _ _ _ Hc H1 Hrb).
        -- intros Hin. apply Hfresh. apply list_elem_of_In. exact Hin.
      * exact (Hnew Hnd name st' Hin).
Qed.


(** *** Reading back *)

Lemma insert_by_perm {A} (ge : A -> A -> bool) (x : A) (l : list A) :
  Permutation (Sql.insert_by ge x l) (x :: l).
Proof.
  induction l as [|y l IH]; simpl; [reflexivity|].
  destruct (ge x y); [reflexivity|].
  rewrite IH. apply perm_swap.
Qed.

(** [ORDER BY] rearranges the rows and does nothing else. *)
Lemma order_by_desc_perm {A} (col : A -> pyval) (rows : list A) :
  Permutation (Sql.order_by_desc col rows) rows.
Proof.
  unfold Sql.order_by_desc.
  induction rows as [|x rows IH]; simpl; [reflexivity|].
  rewrite insert_by_perm. apply perm_skip. exact IH.
Qed.

(** The rows of the join. *)
Lemma in_join_season (season : Z) (d : database)
    (q : quarterback_row) (s : stats_row) :
  In (q, s) (Sql.join_season season d)
  <-> In q (quarterbacks d) /\ In s (quarterback_stats d)
      /\ s_qb_id s = q_id q /\ s_season s = season.
Proof.
  unfold Sql.join_season. rewrite in_flat_map. split.
  - intros (q' & Hq' & Hin). apply in_map_iff in Hin.
    destruct Hin as (s' & E & Hs'). injection E as -> ->.
    apply filter_In in Hs'. destruct Hs' as [Hs' Hb].
    apply andb_true_iff in Hb. destruct Hb as [Hb1 Hb2].
    apply Z.eqb_eq in Hb1. apply Z.eqb_eq in Hb2. auto.
  - intros (Hq & Hs & Hid & Hse). exists q. split; [exact Hq|].
    apply in_map. apply filter_In. split; [exact Hs|].
    apply andb_true_iff. split; apply Z.eqb_eq; assumption.
Qed.

Lemma NoDup_map_inj {A B} (f : A -> B) (l : list A) (x y : A) :
  NoDup (map f l) -> In x l -> In y l -> f x = f y -> x = y.
Proof.
  induction l as [|z l IH]; simpl; intros Hnd Hx Hy E; [destruct Hx|].
  apply NoDup_cons in Hnd. destruct Hnd as [Hz Hnd].
  destruct Hx as [->|Hx], Hy as [->|Hy].
  - reflexivity.
  - exfalso; apply Hz. apply list_elem_of_In. rewrite E. apply in_map; exact Hy.
  - exfalso; apply Hz. apply list_elem_of_In. rewrite <- E. apply in_map; exact Hx.
  - exact (IH Hnd Hx Hy E).
Qed.

(** In a consistent store, a name and a season determine the row of the
    join. *)
Lemma join_row_unique (season : Z) (d : database)
    (r1 r2 : quarterback_row * stats_row) :
  consistent d ->
  In r1 (Sql.join_season season d) -> In r2 (Sql.join_season season d) ->
  q_name (fst r1) = q_name (fst r2) -> r1 = r2.
Proof.
  intros Hc H1 H2 En. destruct r1 as [q1 s1], r2 as [q2 s2].
  apply in_join_season in H1. destruct H1 as (Hq1 & Hs1 & Hid1 & Hse1).
  apply in_join_season in H2. destruct H2 as (Hq2 & Hs2 & Hid2 & Hse2).
  cbn [fst] in En.
  assert (Eq : q1 = q2).
  { apply (NoDup_map_inj q_espn_id (quarterbacks d));
      [exact (unique_espn_id d Hc)|exact Hq1|exact Hq2|].
    pose proof (proj1 (List.Forall_forall _ _) (espn_id_of_name d Hc)) as Hid.
    rewrite (Hid q1 Hq1), (Hid q2 Hq2), En. reflexivity. }
  subst q2. f_equal.
  apply (NoDup_map_inj (fun s => (s_qb_id s, s_season s)) (quarterback_stats d));
    [exact (unique_player_season d Hc)|exact Hs1|exact Hs2|].
  congruence.
Qed.

(** The loop of [get_all_quarterbacks], on rows that convert and that
    their names determine: every row is found under its name. *)
Lemma rows_to_dict_lookup (rows : list (quarterback_row * stats_row)) :
  Forall (fun r => exists c, row_to_dict r = Ok c) rows ->
  (forall r1 r2, In r1 rows -> In r2 rows ->
                 q_name (fst r1) = q_name (fst r2) -> r1 = r2) ->
  forall acc, exists loaded,
    rows_to_dict rows acc = Ok loaded
    /\ (forall r c, In r rows -> row_to_dict r = Ok c ->
                    mapping_lookup loaded (q_name (fst r)) = Some c)
    /\ (forall k, ~ In k (map (fun r => q_name (fst r)) rows) ->
                  mapping_lookup loaded k = mapping_lookup acc k).
Proof.
  induction rows as [|row rest IH]; intros Hconv Huniq acc.
  - exists acc; simpl. split; [reflexivity|]. split; [intros r c []|auto].
  - apply Forall_cons in Hconv. destruct Hconv as [[c0 Hc0] Hconv].
    destruct (IH Hconv
                 (fun r1 r2 H1 H2 => Huniq r1 r2 (or_intror H1) (or_intror H2))
                 (mapping_set (q_name (fst row)) c0 acc))
      as (loaded & Hrun & Hin & Hout).
    exists loaded. cbn [rows_to_dict]. rewrite Hc0; cbn [mbind result_bind].
    split; [exact Hrun|]. split.
    + intros r c Hr Hrc.
      destruct (in_dec string_dec (q_name (fst r))
                       (map (fun r => q_name (fst r)) rest)) as [Hn|Hn].
      * apply in_map_iff in Hn. destruct Hn as (r' & En & Hr').
        assert (r' = r)
          by (apply Huniq; [right; exact Hr'|exact Hr|exact En]).
        subst r'. exact (Hin r c Hr' Hrc).
      * destruct Hr as [<-|Hr].
        -- rewrite (Hout _ Hn), mapping_lookup_set_same. congruence.
        -- exfalso; apply Hn. apply in_map_iff. exists r; auto.
    + intros k Hk. simpl in Hk.
      rewrite (Hout k); [|tauto].
      apply mapping_lookup_set_other. tauto.
Qed.

(** Reading a consistent store: [get_all_quarterbacks] returns; every
    player stored for the season is found under the player's name with
    the dictionary of the player's row; and a name that no player row
    carries is not a key of the result. *)
Lemma load_stored (season : Z) (d : database) :
  consistent d ->
  exists loaded,
    rows_to_dict (Sql.select_stats season d) [] = Ok loaded
    /\ (forall name c, stored d season name c ->
                       mapping_lookup loaded name = Some c)
    /\ (forall name, (forall q, In q (quarterbacks d) -> q_name q <> name) ->
                     mapping_lookup loaded name = None).
Proof.
  intros Hc.
  pose proof (order_by_desc_perm (fun r => s_yards (snd r))
                                 (Sql.join_season season d)) as Hperm.
  fold (Sql.select_stats season d) in Hperm.
  assert (Hsub : forall r, In r (Sql.select_stats season d) ->
                           In r (Sql.join_season season d))
    by (intros r; apply Permutation_in; exact Hperm).
  destruct (rows_to_dict_lookup (Sql.select_stats season d))
    with (acc := @nil (string * stats))
    as (loaded & Hrun & Hin & Hout).
  - apply List.Forall_forall. intros [q s] Hr.
    apply row_to_dict_ok.
    apply Hsub, in_join_season in Hr. destruct Hr as (_ & Hs & _).
    exact (proj1 (List.Forall_forall _ _) (rows_numeric d Hc) s Hs).
  - intros r1 r2 H1 H2. apply (join_row_unique season d); auto.
  - exists loaded. split; [exact Hrun|]. split.
    + intros name c (q & s & Hq & Hn & Hs & Hid & Hse & Hrow).
      rewrite <- Hn. apply (Hin (q, s) c); [|exact Hrow].
      apply (Permutation_in _ (Permutation_sym Hperm)).
      apply in_join_season. auto.
    + intros name Hnone. rewrite Hout; [reflexivity|].
      intros Hk. apply in_map_iff in Hk. destruct Hk as ([q s] & En & Hr).
      apply Hsub, in_join_season in Hr. destruct Hr as (Hq & _).
      exact (Hnone q Hq En).
Qed.

(** *** Saving, then reading *)

(** X12: on a mapping of storable dictionaries (the team a text, each
    of the eleven statistics, 0 when missing, a float or an integer of
    64 bits), [_save_to_database] keeps a consistent store consistent,
    and it adds one row of statistics for every entry of the mapping,
    whatever the store held for the player before: no row of statistics
    is ever replaced.  Nothing but the database changes. *)
Theorem save_keeps_consistent (w : world) (qb_data : mapping) :
  consistent (db w) ->
  forallb (fun p => storable (snd p)) qb_data = true ->
  exists d',
    _save_to_database qb_data w = (Ok tt, set_db d' w)
    /\ consistent d'
    /\ length (quarterback_stats d')
       = (length (quarterback_stats (db w)) + length qb_data)%nat.
Proof.
  intros Hc Hall.
  destruct (save_loop_stored (now w) (year w) qb_data (db w) Hc Hall)
    as (d' & Hloop & Hc' & Hlen & _).
  exists d'. unfold _save_to_database. rewrite Hloop. auto.
Qed.

Lemma demo_data_storable :
  forallb (fun p => storable (snd p)) get_demo_data = true.
Proof. vm_compute; reflexivity. Qed.

Lemma demo_ids_distinct :
  NoDup (map (fun p => demo_id (fst p)) get_demo_data).
Proof.
  vm_compute.
  repeat (constructor;
          [intros H; apply list_elem_of_In in H; cbn [In] in H;
           intuition discriminate|]).
  constructor.
Qed.

Lemma empty_consistent : consistent Sql.empty.
Proof. split; simpl; constructor. Qed.

Lemma save_keeps_consistent_witness :
  consistent Sql.empty
  /\ exists d',
       _save_to_database get_demo_data (offline Sql.empty)
       = (Ok tt, set_db d' (offline Sql.empty))
       /\ consistent d'
       /\ length (quarterback_stats d') = 10%nat.
Proof.
  split; [exact empty_consistent|].
  exact (save_keeps_consistent (offline Sql.empty) get_demo_data
           empty_consistent demo_data_storable).
Defined.




(** *** [update_database], then reading or asking for staleness *)

Lemma try_espn_api_frame (w : world) :
  exists w', try_espn_api w = (Ok [], w') /\ same_store w w'.
Proof.
  unfold try_espn_api, try_catch, mbind, M_bind, session_get, same_store.
  destruct (net w (requests w) api_url) as [r|e]; simpl; [|eauto 6].
  destruct (status_code r =? 200)%Z; simpl; [|eauto 6].
  unfold lift; destruct (json r); simpl; eauto 6.
Qed.

Lemma scrape_loop_frame (urls : list string) :
  forall w, exists w',
    (scrape_loop urls w = (Ok [], w')
     \/ exists e, scrape_loop urls w = (Raise e, w'))
    /\ same_store w w'.
Proof.
  unfold same_store.
  induction urls as [|url rest IH]; intros w; simpl.
  - exists w; auto.
  - unfold mbind, M_bind, session_get.
    destruct (net w (requests w) url) as [r|e]; simpl; [|eauto 7].
    destruct (status_code r =? 200)%Z.
    + match goal with |- context [_parse_webpage ?c ?w1] =>
        destruct (parse_webpage_cases c w1) as [H|[e H]]; rewrite H;
        exists w1; simpl; eauto 7
      end.
    + match goal with |- context [scrape_loop rest ?w1] =>
        destruct (IH w1) as (w' & H & Hf); exists w'; simpl in Hf; auto
      end.
Qed.

Lemma try_web_scraping_frame (w : world) :
  exists w', try_web_scraping w = (Ok [], w') /\ same_store w w'.
Proof.
  unfold try_web_scraping, try_catch.
  destruct (scrape_loop_frame urls_to_try w) as (w' & [H|[e H]] & Hf);
    rewrite H; simpl; eauto.
Qed.

(** [update_database] comes down to saving the demo dataset, in a world
    with the same clock and the same database. *)
Lemma update_database_saves_demo (force_demo : bool) (w : world) :
  exists w1,
    same_store w w1
    /\ update_database force_demo w
       = (_ ← _save_to_database get_demo_data; mret get_demo_data) w1.
Proof.
  unfold update_database.
  destruct force_demo; cbn [negb].
  - exists w. split; [unfold same_store; auto|].
    unfold mbind at 1, M_bind at 1; cbn [mret M_ret].
    unfold mbind at 1, M_bind at 1; cbn [mapping_truthy negb mret M_ret].
    reflexivity.
  - destruct (try_espn_api_frame w) as (w1 & H1 & F1).
    destruct (try_web_scraping_frame w1) as (w2 & H2 & F2).
    exists w2. split.
    { unfold same_store in *. intuition congruence. }
    unfold mbind at 1, M_bind at 1.
    unfold mbind at 1, M_bind at 1.
    rewrite H1; cbn [mapping_truthy negb]. rewrite H2.
    unfold mbind at 1, M_bind at 1; cbn [mapping_truthy negb mret M_ret].
    reflexivity.
Qed.


(** Every entry of the demo dataset reads back as it is. *)
Lemma demo_data_reads_back :
  Forall (fun p => read_back (snd p) = Ok (snd p)) get_demo_data.
Proof. repeat constructor. Qed.

(** X14: on a consistent store, whatever the remote source answers,
    [update_database] returns a mapping, and [get_all_quarterbacks]
    called next has every player of that mapping, with the very
    dictionary [update_database] returned for the player. *)
Theorem update_then_load (force_demo : bool) (w : world) :
  consistent (db w) ->
  exists qb_data w' loaded,
    update_database force_demo w = (Ok qb_data, w')
    /\ get_all_quarterbacks None w' = (Ok loaded, w')
    /\ forall name st, In (name, st) qb_data ->
                       mapping_lookup loaded name = Some st.
Proof.
  intros Hc.
  destruct (update_database_saves_demo force_demo w)
    as (w1 & (Hdb & _ & Hyear) & Hrun).
  rewrite <- Hdb in Hc.
  destruct (save_loop_stored (now w1) (year w1) get_demo_data (db w1) Hc
                             demo_data_storable)
    as (d' & Hloop & Hc' & _ & _ & Hnew).
  destruct (load_stored (year w1) d' Hc') as (loaded & Hload & Hfind & _).
  exists get_demo_data, (set_db d' w1), loaded.
  split.
  { rewrite Hrun. unfold mbind, M_bind, _save_to_database.
    rewrite Hloop. reflexivity. }
  split.
  { unfold get_all_quarterbacks, get_quarterback_stats, mbind, M_bind, lift.
    cbn [default db year set_db]. rewrite Hload. reflexivity. }
  intros name st Hin.
  destruct (Hnew demo_ids_distinct name st Hin) as (c & Hrb & Hst).
  pose proof (proj1 (List.Forall_forall _ _) demo_data_reads_back
                    (name, st) Hin) as Hid.
  cbn [snd] in Hid. rewrite Hid in Hrb. injection Hrb as <-.
  exact (Hfind name st Hst).
Qed.

Lemma update_then_load_witness :
  exists qb_data w' loaded,
    update_database false (offline Sql.empty) = (Ok qb_data, w')
    /\ get_all_quarterbacks None w' = (Ok loaded, w')
    /\ forall name st, In (name, st) qb_data ->
                       mapping_lookup loaded name = Some st.
Proof.
  exact (update_then_load false (offline Sql.empty) empty_consistent).
Defined.

(** A turn of the loop ends the statistics table with a row stamped with
    the current time. *)
Lemma save_one_last_updated current_time season name (st : stats)
    (d d' : database) :
  save_one current_time season name st d = Ok d' ->
  exists rows r,
    quarterback_stats d' = (rows ++ [r])%list
    /\ s_last_updated r = Some current_time.
Proof.
  unfold save_one, dict_item.
  destruct (dict_lookup st "team") as [team|]; [|discriminate].
  cbn [mbind result_bind].
  rewrite select_id_after_insert; cbn [mbind result_bind mret result_ret].
  intros H; injection H as <-.
  unfold Sql.insert_or_replace_stats; cbn [quarterback_stats s_last_updated].
  eexists; eexists; split; reflexivity.
Qed.

Lemma save_loop_last_updated current_time season (items : mapping) :
  items <> [] ->
  forall d d',
    save_loop current_time season items d = Ok d' ->
    exists rows r,
      quarterback_stats d' = (rows ++ [r])%list
      /\ s_last_updated r = Some current_time.
Proof.
  induction items as [|[n st] rest IH]; intros Hne d d' H; [congruence|].
  cbn [save_loop] in H.
  destruct (save_one current_time season n st d) as [d1|e] eqn:H1;
    cbn [mbind result_bind] in H; [|discriminate H].
  destruct rest as [|p rest].
  - cbn [save_loop mret result_ret] in H. injection H as <-.
    exact (save_one_last_updated _ _ _ _ _ _ H1).
  - apply (IH ltac:(discriminate) d1 d' H).
Qed.

(** X15: the store is fresh after an update.  Whatever the remote
    source answers, [update_database] returns, and [needs_update] then
    answers false at every reading of the clock that is not more than
    [max_age_hours] hours after the time of the update. *)
Theorem fresh_after_update (force_demo : bool) (w : world)
    (t : timestamp) (max_age_hours : Z) :
  t - now w <= max_age_hours * 3600 * 1000000 ->
  exists qb_data w',
    update_database force_demo w = (Ok qb_data, w')
    /\ DatabaseManager.needs_update (Some (db w')) t max_age_hours = false.
Proof.
  intros Hage.
  destruct (update_database_saves_demo force_demo w)
    as (w1 & (_ & Hnow & _) & Hrun).
  destruct (save_loop_ok (now w1) (year w1) get_demo_data
                         demo_data_has_teams (db w1)) as [d' Hloop].
  exists get_demo_data, (set_db d' w1). split.
  { rewrite Hrun. unfold mbind, M_bind, _save_to_database.
    rewrite Hloop. reflexivity. }
  cbn [db set_db].
  destruct (save_loop_last_updated _ _ _ demo_data_nonempty _ _ Hloop)
    as (rows & r & Hrows & Hr).
  unfold DatabaseManager.needs_update.
  pose proof (select_max_newest d') as Hnew.
  destruct (Sql.select_max_last_updated d') as [m|]; simpl in Hnew.
  - destruct Hnew as [_ Hle].
    assert (Hm : now w1 <= m).
    { apply (Hle r); [|exact Hr]. rewrite Hrows. apply in_or_app; right.
      left; reflexivity. }
    destruct (Qlt_bool (inject_Z (max_age_hours * 3600))
                       ((t - m) # 1000000)) eqn:E; [|reflexivity].
    apply Qlt_bool_inject in E. lia.
  - rewrite (Hnew r) in Hr; [discriminate Hr|].
    rewrite Hrows. apply in_or_app; right; left; reflexivity.
Qed.

Lemma fresh_after_update_witness :
  exists qb_data w',
    update_database false (offline Sql.empty) = (Ok qb_data, w')
    /\ DatabaseManager.needs_update (Some (db w')) 3600000000 24 = false.
Proof.
  apply (fresh_after_update false (offline Sql.empty) 3600000000 24).
  vm_compute; discriminate.
Defined.


(** *** Names that share an identifier *)




End StoreRoundTrip.

(** ** [main.py]: the ranking shown from the menu *)

Section Menu.

Import QuarterbackComparer.

Lemma isdigit_cases (c : ascii) :
  Str.isdigit c = true ->
  Str.is_superscript c = negb (Str.is_ascii_digit c).
Proof.
  unfold Str.isdigit, Str.is_superscript, Str.is_ascii_digit. cbv zeta.
  destruct (N.leb_spec 48 (Str.code c)), (N.leb_spec (Str.code c) 57),
    (N.eqb_spec (Str.code c) 178), (N.eqb_spec (Str.code c) 179),
    (N.eqb_spec (Str.code c) 185); cbn; intros Hd;
    try reflexivity; try discriminate Hd; lia.
Qed.

(** In a string of digits, a superscript is what is no decimal digit. *)
Lemma superscript_among_digits (s : string) :
  Str.forallb Str.isdigit s = true ->
  Str.existsb Str.is_superscript s
  = negb (Str.forallb Str.is_ascii_digit s).
Proof.
  induction s as [|c s IH]; simpl; [reflexivity|].
  intros H. apply andb_true_iff in H. destruct H as [Hc Hs].
  rewrite (isdigit_cases c Hc), (IH Hs).
  destruct (Str.is_ascii_digit c); reflexivity.
Qed.

(** X17: the ranking of the menu, for console lines within Latin-1 (the
    strings of the model), a choice that is on the menu, data that can
    be ranked by its stat, and a second line of at most 4300 characters
    once stripped (what every interpreter converts).  What happens then
    depends on the second line only.  When the line, stripped, consists
    of digits one of which is a superscript (U+00B2, U+00B3 or U+00B9,
    the digits of Latin-1 that are no decimal digits), [int] raises
    [ValueError], which nothing catches.  Otherwise the ranking is
    shown: the limit is the number whose decimal numeral was typed (the
    sum of its digits weighted by the powers of ten), or 10 when the
    line is not a string of digits; it is never negative, so that the
    ranking has min(limit, number of players) rows; and the rows are in
    descending order of the stat, for every choice of the menu. *)
Theorem view_top_quarterbacks_ranking (comparer : QuarterbackComparer.t)
    (choice_line limit_line : string) (stat name : string) :
  assoc (Str.strip choice_line) Main.stats = Some (stat, name) ->
  homogeneous (map (stat_key stat) (qb_data comparer)) = true ->
  (String.length (Str.strip limit_line) <= 4300)%nat ->
  if Main.isdigit (Str.strip limit_line)
     && Str.existsb Str.is_superscript (Str.strip limit_line)
  then Main.view_top_quarterbacks comparer choice_line limit_line
       = Raise ValueError
  else exists limit top,
         Main.view_top_quarterbacks comparer choice_line limit_line
         = Ok (Some top)
         /\ (Main.isdigit (Str.strip limit_line) = true ->
             (inject_Z limit
              == ESPNQBScraper.int_part (list_ascii_of_string (Str.strip limit_line)))%Q)
         /\ (Main.isdigit (Str.strip limit_line) = false -> limit = 10)
         /\ 0 <= limit
         /\ Z.of_nat (length top)
            = Z.min limit (Z.of_nat (length (qb_data comparer)))
         /\ descending stat top.
Proof.
  intros Hchoice Hhom _.
  unfold Main.view_top_quarterbacks. rewrite Hchoice.
  set (line := Str.strip limit_line).
  assert (Hshow : forall limit, 0 <= limit ->
            exists top,
              get_top_qbs comparer stat limit = Ok top
              /\ Z.of_nat (length top)
                 = Z.min limit (Z.of_nat (length (qb_data comparer)))
              /\ descending stat top).
  { intros limit Hpos. unfold get_top_qbs.
    destruct (qb_data comparer) as [|p rest] eqn:Hdata;
      cbn [mapping_truthy negb].
    - exists []. split; [reflexivity|]. split; [simpl; lia|constructor].
    - destruct (sorted_desc_descending stat (p :: rest) Hhom)
        as (s & -> & Hsorted & Hperm).
      cbn [mbind result_bind mret result_ret].
      eexists; split; [reflexivity|]. split.
      + rewrite slice_to_length, (Permutation_length Hperm).
        destruct (Z.leb_spec 0 limit); [reflexivity|lia].
      + unfold descending, slice_to.
        destruct (Z.leb_spec 0 limit); [|lia].
        apply strongly_sorted_firstn. exact Hsorted. }
  destruct (Main.isdigit line) eqn:Hdig; cbn [andb].
  - unfold Main.isdigit in Hdig.
    apply andb_true_iff in Hdig. destruct Hdig as [Hne Hall].
    rewrite (superscript_among_digits line Hall).
    unfold Main.int. rewrite Hne.
    destruct (Str.forallb Str.is_ascii_digit line) eqn:Hascii; cbn [negb].
    + destruct (digits_value_total line 0%N Hascii) as [n Hn]. rewrite Hn.
      cbn [mbind result_bind].
      destruct (Hshow (Z.of_N n) (N2Z.is_nonneg n)) as (top & -> & Hlen & Hd).
      cbn [mbind result_bind mret result_ret].
      exists (Z.of_N n), top. split; [reflexivity|]. split.
      { intros _. destruct (digits_value_reads line 0%N n Hn) as [_ Hval].
        rewrite Hval. apply int_part_reads. }
      split; [intros H; discriminate H|].
      split; [apply N2Z.is_nonneg|]. split; assumption.
    + rewrite (digits_value_none line 0%N Hascii). reflexivity.
  - cbn [mret result_ret mbind result_bind].
    destruct (Hshow 10 ltac:(lia)) as (top & -> & Hlen & Hd).
    cbn [mbind result_bind mret result_ret].
    exists 10, top. split; [reflexivity|].
    split; [intros H; discriminate H|]. split; [reflexivity|].
    split; [lia|]. split; assumption.
Qed.

Lemma view_top_quarterbacks_ranking_witness :
  exists limit top,
    Main.view_top_quarterbacks {| qb_data := get_demo_data |} " 6 " "3"
    = Ok (Some top)
    /\ (Main.isdigit (Str.strip "3") = true ->
        (inject_Z limit == ESPNQBScraper.int_part (list_ascii_of_string (Str.strip "3")))%Q)
    /\ (Main.isdigit (Str.strip "3") = false -> limit = 10)
    /\ 0 <= limit
    /\ Z.of_nat (length top) = Z.min limit (Z.of_nat (length get_demo_data))
    /\ descending "interceptions" top.
Proof.
  apply (view_top_quarterbacks_ranking {| qb_data := get_demo_data |}
           " 6 " "3" "interceptions" "Interceptions (Lowest)").
  - vm_compute; reflexivity.
  - vm_compute; reflexivity.
  - vm_compute; lia.
Defined.

End Menu.

(** ** [src/scraper.py]: the search of the scraper *)

Section ScraperSearch.

Import QuarterbackComparer.

(** X18: the two searches agree.  [search_qb_by_name] of the scraper
    returns a dictionary with exactly one entry, an entry of the mapping
    whose lower-cased name contains the lower-cased search name, and
    the stats of that entry are what [_find_qb] of a comparer built on
    the same mapping returns; it returns [None] exactly when [_find_qb]
    does. *)
Theorem searches_agree (qb_stats : mapping) (search_name : string) :
  match ESPNQBScraper.search_qb_by_name qb_stats search_name with
  | Some found =>
      exists name st,
        found = [(name, st)]
        /\ In (name, st) qb_stats
        /\ Str.contains (Str.lower search_name) (Str.lower name) = true
        /\ _find_qb {| qb_data := qb_stats |} search_name = Some st
  | None => _find_qb {| qb_data := qb_stats |} search_name = None
  end.
Proof.
  unfold ESPNQBScraper.search_qb_by_name, _find_qb.
  cbn [QuarterbackComparer.qb_data].
  induction qb_stats as [|[name st] rest IH]; simpl; [reflexivity|].
  destruct (Str.contains (Str.lower search_name) (Str.lower name)) eqn:Hhit.
  - exists name, st. auto.
  - destruct (ESPNQBScraper.search_qb_by_name_in (Str.lower search_name) rest).
    + destruct IH as (name' & st' & -> & Hin & Hhit' & Hfind).
      exists name', st'. auto.
    + exact IH.
Qed.

End ScraperSearch.

(** ** [src/scraper.py]: what [fetch_qb_stats] returns *)

Section Fetching.

Import ESPNQBScraper ESPNQBScraperFetch.

(** What [_parse_qb_stats] leaves: the world as it was, and either an
    exception or a mapping of well-formed entries. *)
Lemma parse_qb_stats_cases (content : string) (w : world) :
  (exists e, _parse_qb_stats content w = (Raise e, w))
  \/ exists m,
       _parse_qb_stats content w = (Ok m, w)
       /\ NoDup (map fst m) /\ Forall scraped_entry m.
Proof.
  unfold _parse_qb_stats, mbind, M_bind, BeautifulSoup.
  destruct (html_parser w content) as [page|e]; [|left; eauto].
  right. destruct (first_table page table_selectors) as [trs|].
  - unfold lift, parse_table.
    destruct (parse_rows_entries (skipn 1 trs) [] ltac:(constructor)
                                 ltac:(constructor))
      as (m & -> & Hnd & Hall & _).
    exists m. auto.
  - exists []. repeat split; constructor.
Qed.

(** The API path returns the empty mapping after one request. *)
Lemma fetch_from_api_empty (w : world) :
  exists w',
    _fetch_from_api w = (Ok [], w')
    /\ requests w' = S (requests w) /\ slept w' = slept w.
Proof.
  unfold _fetch_from_api, try_catch, mbind, M_bind, session_get.
  destruct (net w (requests w) HybridQBScraper.api_url) as [r|e]; simpl;
    [|eauto].
  destruct (HybridQBScraper.status_code r =? 200)%Z; simpl; [|eauto].
  unfold lift; destruct (HybridQBScraper.json r); simpl; eauto.
Qed.

Lemma fetch_loop_cases (urls : list string) :
  forall w, exists r w',
    fetch_loop urls w = (r, w')
    /\ match r with
       | Ok m => NoDup (map fst m) /\ Forall scraped_entry m
       | Raise _ => True
       end
    /\ (requests w < requests w' <= requests w + length urls + 1)%nat
    /\ slept w <= slept w' <= slept w + 2 * Z.of_nat (length urls).
Proof.
  induction urls as [|url rest IH]; intros w.
  - cbn [fetch_loop].
    destruct (fetch_from_api_empty w) as (w' & -> & Hr & Hs).
    exists (Ok []), w'. split; [reflexivity|].
    split; [split; constructor|]. simpl. lia.
  - cbn [fetch_loop]. unfold mbind, M_bind, session_get.
    destruct (net w (requests w) url) as [r|e].
    + destruct (HybridQBScraper.status_code r =? 200)%Z.
      * match goal with |- context [_parse_qb_stats ?c ?w1] =>
          destruct (parse_qb_stats_cases c w1) as [[e H]|(m & H & Hm)];
          rewrite H; eexists; exists w1; (split; [reflexivity|])
        end.
        -- split; [exact I|]. cbn [requests slept length]. lia.
        -- split; [exact Hm|]. cbn [requests slept length]. lia.
      * cbn [sleep].
        match goal with |- context [fetch_loop rest ?w1] =>
          destruct (IH w1) as (r' & w' & -> & Hr' & Hreq & Hsl)
        end.
        exists r', w'. split; [reflexivity|]. split; [exact Hr'|].
        cbn [requests slept length] in *. lia.
    + eexists; eexists. split; [reflexivity|]. split; [exact I|].
      cbn [requests slept length]. lia.
Qed.

(** X19: [fetch_qb_stats] never raises, whatever the remote source and
    the parser do.  The mapping it returns has distinct names, none of
    them empty or a header word, each with a team and the nine
    statistics as numbers that are not negative.  It sends at least one
    request and at most five, and sleeps eight seconds at most. *)
Theorem fetch_qb_stats_entries (w : world) :
  exists m w',
    fetch_qb_stats w = (Ok m, w')
    /\ NoDup (map fst m) /\ Forall scraped_entry m
    /\ (requests w < requests w' <= requests w + 5)%nat
    /\ slept w <= slept w' <= slept w + 8.
Proof.
  unfold fetch_qb_stats, try_catch.
  destruct (fetch_loop_cases urls_to_try w) as (r & w' & -> & Hr & Hreq & Hsl).
  cbn [length urls_to_try] in Hreq, Hsl.
  destruct r as [m|e].
  - exists m, w'. split; [reflexivity|].
    destruct Hr as [Hnd Hall]. repeat split; try assumption; lia.
  - exists [], w'. cbn [is_Exception mret M_ret].
    split; [reflexivity|]. repeat split; try constructor; lia.
Qed.

End Fetching.
